(** * Supply-chain risk scoring engine (services/risk_assessment_service.py)

    A shallow embedding of [RiskAssessmentService] and the properties of its
    concentration index, segment adjustment, exposure assessors, lead-time
    classifier and composite score.

    Modelling conventions
    - Python floats are modelled by exact rationals ([Q]); equalities between
      scores are [Qeq] ([==]).  [round(x, 3)] is rounding to the nearest
      multiple of 1/1000, ties to even.
    - Text is ASCII ([string]); [str.lower], [str.strip], [\d] and [\s] are
      the ASCII restrictions of the Python operations.
    - A dict key that may be missing is an [option] field; a returned dict
      whose key set depends on the path has [option] fields for those keys. *)

From Stdlib Require Import QArith Qround Qminmax Qabs ZArith List String Ascii.
From Stdlib Require Import Lia Lqa Bool Permutation PeanoNat.
Import ListNotations.

Open Scope string_scope.
Open Scope list_scope.
Open Scope Q_scope.

(* ------------------------------------------------------------------ *)
(** ** Python numeric primitives *)

Module Py.

(** [int] to [float]. *)
Definition of_nat (n : nat) : Q := inject_Z (Z.of_nat n).

(** Nearest integer, ties to even (the rule of [round]). *)
Definition round_half_even (x : Q) : Z :=
  let f := Qfloor x in
  let r := x - inject_Z f in
  match Qcompare r (1 # 2) with
  | Lt => f
  | Gt => (f + 1)%Z
  | Eq => if Z.even f then f else (f + 1)%Z
  end.

(** [round(x, 3)]. *)
Definition round3 (x : Q) : Q := Qmake (round_half_even (x * 1000)) 1000.

(** [x >= t] on floats. *)
Definition ge (x t : Q) : bool := Qle_bool t x.

(** [max(a, b)] and [min(a, b)]: the first argument wins a tie. *)
Definition max (a b : Q) : Q := if Qle_bool b a then a else b.
Definition min (a b : Q) : Q := if Qle_bool a b then a else b.

(** [d.get(key, default)] on a dict given as an association list. *)
Fixpoint dict_get {V : Type} (d : list (string * V)) (key : string)
         (default : V) : V :=
  match d with
  | [] => default
  | (k, v) :: rest => if String.eqb k key then v else dict_get rest key default
  end.

End Py.

(* ------------------------------------------------------------------ *)
(** ** Input records *)

(** A location dict; each field is [None] when the key is missing. *)
Record Location := mkLocation {
  loc_type    : option string;
  loc_name    : option string;
  loc_country : option string
}.

(** [location.get('country', 'Unknown')] *)
Definition country_of (l : Location) : string :=
  match loc_country l with Some c => c | None => "Unknown" end.

(** [loc.get('type') == location_type] *)
Definition has_type (t : string) (l : Location) : bool :=
  match loc_type l with Some t' => String.eqb t' t | None => false end.

(** The [raw] sub-dict of a product. *)
Record RawProduct := mkRaw {
  raw_lead_time    : option string;
  raw_leadTime     : option string;
  raw_availability : option string
}.

Record Product := mkProduct {
  prod_name : option string;
  prod_raw  : option RawProduct
}.

(* ------------------------------------------------------------------ *)
(** ** Concentration index *)

(** [collections.Counter] keyed by country, in insertion order. *)
Definition Counter := list (string * nat).

(** [counter[key] += 1] *)
Fixpoint counter_incr (c : Counter) (key : string) : Counter :=
  match c with
  | [] => [(key, 1%nat)]
  | (k, n) :: rest =>
      if String.eqb k key then (k, S n) :: rest
      else (k, n) :: counter_incr rest key
  end.

(** The counting loop of [calculate_hhi]. *)
Definition count_countries (locs : list Location) : Counter :=
  fold_left (fun acc l => counter_incr acc (country_of l)) locs [].

(** A filter is applied only when [location_type] is truthy. *)
Definition filter_by_type (locs : list Location) (location_type : option string)
  : list Location :=
  match location_type with
  | None => locs
  | Some t => if String.eqb t "" then locs else filter (has_type t) locs
  end.

(** The accumulation loop [hhi += market_share ** 2]. *)
Definition hhi_loop (counts : list nat) (total_locations : nat) : Q :=
  fold_left
    (fun hhi count =>
       let market_share := Py.of_nat count / Py.of_nat total_locations in
       hhi + market_share ^ 2)
    counts 0.

Definition calculate_hhi (locations : list Location)
           (location_type : option string) : Q :=
  match locations with
  | [] => 0
  | _ =>
      let filtered_locations := filter_by_type locations location_type in
      match filtered_locations with
      | [] => 0
      | _ =>
          let country_counts := count_countries filtered_locations in
          let total_locations := List.length filtered_locations in
          if Nat.eqb total_locations 0 then 0
          else hhi_loop (map snd country_counts) total_locations
      end
  end.

(* ------------------------------------------------------------------ *)
(** ** Static risk tables *)

(** The dict literal of [_load_climate_risk_data], in source order (keys that
    are repeated in the literal carry the same value each time). *)
Definition climate_risk_data : list (string * Q) :=
  [
   ("Australia", 0.3); ("China", 0.6); ("USA", 0.4); ("Germany", 0.2);
   ("Japan", 0.5); ("India", 0.7); ("Brazil", 0.6); ("Canada", 0.3);
   ("United Kingdom", 0.3); ("France", 0.2); ("Italy", 0.4); ("Spain", 0.5);
   ("Netherlands", 0.3); ("South Korea", 0.4); ("Taiwan", 0.5);
   ("Thailand", 0.6); ("Vietnam", 0.6); ("Indonesia", 0.7);
   ("Malaysia", 0.6); ("Philippines", 0.7); ("Mexico", 0.5); ("Turkey", 0.5);
   ("Poland", 0.3); ("Czech Republic", 0.3); ("Hungary", 0.4);
   ("Romania", 0.4); ("Bulgaria", 0.4); ("Croatia", 0.4); ("Slovakia", 0.3);
   ("Slovenia", 0.3); ("Estonia", 0.3); ("Latvia", 0.3); ("Lithuania", 0.3);
   ("Finland", 0.2); ("Sweden", 0.2); ("Norway", 0.2); ("Denmark", 0.3);
   ("Switzerland", 0.2); ("Austria", 0.2); ("Belgium", 0.3);
   ("Luxembourg", 0.3); ("Ireland", 0.3); ("Portugal", 0.4); ("Greece", 0.5);
   ("Cyprus", 0.5); ("Malta", 0.4); ("Iceland", 0.2); ("New Zealand", 0.3);
   ("South Africa", 0.6); ("Egypt", 0.7); ("Morocco", 0.6); ("Tunisia", 0.6);
   ("Algeria", 0.6); ("Libya", 0.7); ("Sudan", 0.8); ("Ethiopia", 0.7);
   ("Kenya", 0.6); ("Nigeria", 0.7); ("Ghana", 0.6); ("Senegal", 0.6);
   ("Ivory Coast", 0.6); ("Cameroon", 0.6); ("Angola", 0.6);
   ("Mozambique", 0.6); ("Tanzania", 0.6); ("Uganda", 0.6); ("Rwanda", 0.6);
   ("Burundi", 0.6); ("Madagascar", 0.6); ("Mauritius", 0.5);
   ("Seychelles", 0.5); ("Reunion", 0.5); ("Mayotte", 0.5); ("Comoros", 0.6);
   ("Djibouti", 0.7); ("Somalia", 0.8); ("Eritrea", 0.7); ("Chad", 0.7);
   ("Niger", 0.7); ("Mali", 0.7); ("Burkina Faso", 0.7); ("Guinea", 0.6);
   ("Sierra Leone", 0.6); ("Liberia", 0.6); ("Gambia", 0.6);
   ("Guinea-Bissau", 0.6); ("Cape Verde", 0.5);
   ("Sao Tome and Principe", 0.5); ("Equatorial Guinea", 0.6);
   ("Gabon", 0.6); ("Republic of the Congo", 0.6);
   ("Democratic Republic of the Congo", 0.7);
   ("Central African Republic", 0.7); ("Zambia", 0.6); ("Zimbabwe", 0.6);
   ("Botswana", 0.6); ("Namibia", 0.6); ("Lesotho", 0.6); ("Swaziland", 0.6);
   ("Malawi", 0.6); ("Zambia", 0.6); ("Zimbabwe", 0.6); ("Botswana", 0.6);
   ("Namibia", 0.6); ("Lesotho", 0.6); ("Swaziland", 0.6); ("Malawi", 0.6);
   ("Unknown", 0.5)
  ].

(** The dict literal of [_load_geopolitical_risk_data], in source order. *)
Definition geopolitical_risk_data : list (string * Q) :=
  [
   ("Australia", 0.1); ("China", 0.4); ("USA", 0.2); ("Germany", 0.1);
   ("Japan", 0.2); ("India", 0.3); ("Brazil", 0.3); ("Canada", 0.1);
   ("United Kingdom", 0.2); ("France", 0.2); ("Italy", 0.2); ("Spain", 0.2);
   ("Netherlands", 0.1); ("South Korea", 0.3); ("Taiwan", 0.5);
   ("Thailand", 0.3); ("Vietnam", 0.3); ("Indonesia", 0.3);
   ("Malaysia", 0.3); ("Philippines", 0.4); ("Mexico", 0.4); ("Turkey", 0.5);
   ("Poland", 0.2); ("Czech Republic", 0.2); ("Hungary", 0.3);
   ("Romania", 0.3); ("Bulgaria", 0.3); ("Croatia", 0.2); ("Slovakia", 0.2);
   ("Slovenia", 0.2); ("Estonia", 0.3); ("Latvia", 0.3); ("Lithuania", 0.3);
   ("Finland", 0.2); ("Sweden", 0.1); ("Norway", 0.1); ("Denmark", 0.1);
   ("Switzerland", 0.1); ("Austria", 0.1); ("Belgium", 0.1);
   ("Luxembourg", 0.1); ("Ireland", 0.1); ("Portugal", 0.2); ("Greece", 0.3);
   ("Cyprus", 0.4); ("Malta", 0.2); ("Iceland", 0.1); ("New Zealand", 0.1);
   ("South Africa", 0.4); ("Egypt", 0.6); ("Morocco", 0.4); ("Tunisia", 0.4);
   ("Algeria", 0.5); ("Libya", 0.7); ("Sudan", 0.8); ("Ethiopia", 0.5);
   ("Kenya", 0.4); ("Nigeria", 0.5); ("Ghana", 0.3); ("Senegal", 0.3);
   ("Ivory Coast", 0.4); ("Cameroon", 0.4); ("Angola", 0.4);
   ("Mozambique", 0.4); ("Tanzania", 0.3); ("Uganda", 0.4); ("Rwanda", 0.3);
   ("Burundi", 0.5); ("Madagascar", 0.3); ("Mauritius", 0.2);
   ("Seychelles", 0.2); ("Reunion", 0.2); ("Mayotte", 0.2); ("Comoros", 0.3);
   ("Djibouti", 0.5); ("Somalia", 0.8); ("Eritrea", 0.6); ("Chad", 0.6);
   ("Niger", 0.6); ("Mali", 0.6); ("Burkina Faso", 0.6); ("Guinea", 0.4);
   ("Sierra Leone", 0.4); ("Liberia", 0.4); ("Gambia", 0.3);
   ("Guinea-Bissau", 0.4); ("Cape Verde", 0.2);
   ("Sao Tome and Principe", 0.2); ("Equatorial Guinea", 0.4);
   ("Gabon", 0.3); ("Republic of the Congo", 0.4);
   ("Democratic Republic of the Congo", 0.6);
   ("Central African Republic", 0.7); ("Zambia", 0.3); ("Zimbabwe", 0.5);
   ("Botswana", 0.2); ("Namibia", 0.3); ("Lesotho", 0.3); ("Swaziland", 0.3);
   ("Malawi", 0.3); ("Unknown", 0.5)
  ].

(* ------------------------------------------------------------------ *)
(** ** Segmented geographic risk *)

Inductive ConcentrationLevel := conc_low | conc_moderate | conc_high | conc_very_high.

Record HhiByType := mkHhiByType {
  hbt_manufacturing : Q;
  hbt_materials     : Q;
  hbt_storage       : Q
}.

Record SegmentHhi := mkSegmentHhi {
  seg_base_hhi      : Q;
  seg_adjusted_hhi  : Q;
  seg_overlap_ratio : Q
}.

Record HhiBySegment := mkHhiBySegment {
  materials_to_manufacturing : SegmentHhi;
  manufacturing_to_storage   : SegmentHhi
}.

Record HighRiskCountry := mkHighRiskCountry {
  hrc_country           : string;
  hrc_climate_risk      : Q;
  hrc_geopolitical_risk : Q
}.

(** The three f-string diagnostics, with the data they print. *)
Inductive RiskFactor :=
| HighGeographicConcentration (hhi_3f : Q)
| LimitedGeographicDiversity (n_countries : nat)
| HighRiskCountries (names : list string).

(** The dict returned by [assess_geographic_risk]; the keys that the
    empty-input dict lacks are [option] fields. *)
Record GeographicRisk := mkGeographicRisk {
  geo_total_locations     : nat;
  geo_countries           : nat;
  geo_hhi                 : Q;
  geo_concentration_risk  : ConcentrationLevel;
  geo_country_distribution : Counter;
  geo_hhi_by_type         : option HhiByType;
  geo_hhi_by_segment      : option HhiBySegment;
  geo_risk_factors        : list RiskFactor;
  geo_high_risk_countries : option (list HighRiskCountry)
}.

(** Membership in [target_set]. *)
Definition in_set (c : string) (s : list string) : bool :=
  existsb (String.eqb c) s.

(** Truthiness of a string. *)
Definition truthy (s : string) : bool := negb (String.eqb s "").

(** The local function [overlap_ratio]. *)
Definition overlap_ratio (source_countries target_countries : list string) : Q :=
  match source_countries with
  | [] => 0
  | _ =>
      let target_set := filter truthy target_countries in
      let overlap :=
        List.length (filter (fun c => in_set c target_set) source_countries) in
      Py.of_nat overlap / Py.of_nat (Nat.max (List.length source_countries) 1)
  end.

(** [[loc.get('country', 'Unknown') for loc in locations if loc.get('type') == t]] *)
Definition countries_of_type (t : string) (locations : list Location)
  : list string :=
  map country_of (filter (has_type t) locations).

(** Reduction factor [k]. *)
Definition k : Q := 0.5.

(** [max(base * (1.0 - k * overlap), 0.0)] *)
Definition adjusted_segment_hhi (base overlap : Q) : Q :=
  Py.max (base * (1 - k * overlap)) 0.

(** The concentration-level chain on [overall_hhi]. *)
Definition concentration_level (overall_hhi : Q) : ConcentrationLevel :=
  if Py.ge overall_hhi 0.7 then conc_very_high
  else if Py.ge overall_hhi 0.5 then conc_high
  else if Py.ge overall_hhi 0.3 then conc_moderate
  else conc_low.

(** The local variables of [assess_geographic_risk] on a non-empty input,
    before they are rounded into the returned dict. *)
Record GeoLocals := mkGeoLocals {
  overall_hhi            : Q;
  manufacturing_hhi      : Q;
  materials_hhi          : Q;
  storage_hhi            : Q;
  overlap_m2m            : Q;
  overlap_manu_to_store  : Q;
  base_seg_m2m           : Q;
  base_seg_manu_to_store : Q;
  adj_seg_m2m            : Q;
  adj_seg_manu_to_store  : Q
}.

Definition geo_locals (locations : list Location) : GeoLocals :=
  let overall_hhi := calculate_hhi locations None in
  let manufacturing_hhi := calculate_hhi locations (Some "manufacturing") in
  let materials_hhi := calculate_hhi locations (Some "raw_material") in
  let storage_hhi := calculate_hhi locations (Some "supplier") in
  let material_countries := countries_of_type "raw_material" locations in
  let manufacturing_countries := countries_of_type "manufacturing" locations in
  let storage_countries := countries_of_type "supplier" locations in
  let overlap_m2m := overlap_ratio material_countries manufacturing_countries in
  let overlap_manu_to_store :=
    overlap_ratio manufacturing_countries storage_countries in
  let base_seg_m2m := (materials_hhi + manufacturing_hhi) / 2 in
  let base_seg_manu_to_store := (manufacturing_hhi + storage_hhi) / 2 in
  let adj_seg_m2m := adjusted_segment_hhi base_seg_m2m overlap_m2m in
  let adj_seg_manu_to_store :=
    adjusted_segment_hhi base_seg_manu_to_store overlap_manu_to_store in
  mkGeoLocals overall_hhi manufacturing_hhi materials_hhi storage_hhi
              overlap_m2m overlap_manu_to_store
              base_seg_m2m base_seg_manu_to_store
              adj_seg_m2m adj_seg_manu_to_store.

(** The country set of the input, listed in order of first appearance (the
    iteration order of a Python set is unspecified). *)
Definition country_set (locations : list Location) : list string :=
  map fst (count_countries locations).

(** One pass of the loop that collects [high_risk_countries]. *)
Definition high_risk_country_step (acc : list HighRiskCountry)
           (country : string) : list HighRiskCountry :=
  let climate_risk := Py.dict_get climate_risk_data country 0.5 in
  let geo_risk := Py.dict_get geopolitical_risk_data country 0.5 in
  if Py.ge climate_risk 0.7 || Py.ge geo_risk 0.7
  then acc ++ [mkHighRiskCountry country climate_risk geo_risk]
  else acc.

Definition collect_high_risk_countries (countries : list string)
  : list HighRiskCountry :=
  fold_left high_risk_country_step countries [].

Definition assess_geographic_risk (locations : list Location) : GeographicRisk :=
  match locations with
  | [] => mkGeographicRisk 0 0 0 conc_low [] None None [] None
  | _ =>
      let v := geo_locals locations in
      let countries := country_set locations in
      let country_distribution := count_countries locations in
      let concentration_risk := concentration_level (overall_hhi v) in
      let risk_factors1 :=
        if Py.ge (overall_hhi v) 0.5
        then [HighGeographicConcentration (Py.round3 (overall_hhi v))] else [] in
      let risk_factors2 :=
        if Nat.leb (List.length countries) 2
        then risk_factors1 ++ [LimitedGeographicDiversity (List.length countries)]
        else risk_factors1 in
      let high_risk_countries := collect_high_risk_countries countries in
      let risk_factors :=
        match high_risk_countries with
        | [] => risk_factors2
        | _ => risk_factors2 ++ [HighRiskCountries (map hrc_country high_risk_countries)]
        end in
      mkGeographicRisk
        (List.length locations)
        (List.length countries)
        (Py.round3 (overall_hhi v))
        concentration_risk
        country_distribution
        (Some (mkHhiByType (Py.round3 (manufacturing_hhi v))
                           (Py.round3 (materials_hhi v))
                           (Py.round3 (storage_hhi v))))
        (Some (mkHhiBySegment
                 (mkSegmentHhi (Py.round3 (base_seg_m2m v))
                               (Py.round3 (adj_seg_m2m v))
                               (Py.round3 (overlap_m2m v)))
                 (mkSegmentHhi (Py.round3 (base_seg_manu_to_store v))
                               (Py.round3 (adj_seg_manu_to_store v))
                               (Py.round3 (overlap_manu_to_store v)))))
        risk_factors
        (Some high_risk_countries)
  end.

(* ------------------------------------------------------------------ *)
(** ** Exposure assessors *)

Inductive ExposureLevel := exp_low | exp_moderate | exp_high.

Record HighRiskLocation := mkHighRiskLocation {
  hrl_name       : string;
  hrl_country    : string;
  hrl_risk_level : Q;
  hrl_type       : string
}.

(** The dict returned by an exposure assessor; the empty-input dict has no
    [risk_level] key. *)
Record ExposureRisk := mkExposureRisk {
  exp_average_risk        : Q;
  exp_high_risk_locations : list HighRiskLocation;
  exp_risk_level          : option ExposureLevel
}.

Definition or_default (o : option string) (d : string) : string :=
  match o with Some s => s | None => d end.

(** One pass of the loop body shared by [_assess_climate_risk] and
    [_assess_geopolitical_risk], which differ only in the table read. *)
Definition exposure_step (table : list (string * Q))
           (acc : Q * list HighRiskLocation) (location : Location)
  : Q * list HighRiskLocation :=
  let '(total_risk, high_risk_locations) := acc in
  let country := country_of location in
  let risk := Py.dict_get table country 0.5 in
  let total_risk := total_risk + risk in
  if Py.ge risk 0.7
  then (total_risk,
        high_risk_locations ++
          [mkHighRiskLocation (or_default (loc_name location) "Unknown")
                              country risk
                              (or_default (loc_type location) "unknown")])
  else (total_risk, high_risk_locations).

Definition exposure_level (average_risk : Q) : ExposureLevel :=
  if Py.ge average_risk 0.6 then exp_high
  else if Py.ge average_risk 0.4 then exp_moderate
  else exp_low.

Definition assess_exposure (table : list (string * Q))
           (locations : list Location) : ExposureRisk :=
  match locations with
  | [] => mkExposureRisk 0 [] None
  | _ =>
      let '(total_risk, high_risk_locations) :=
        fold_left (exposure_step table) locations (0, []) in
      let average_risk := total_risk / Py.of_nat (List.length locations) in
      mkExposureRisk (Py.round3 average_risk) high_risk_locations
                     (Some (exposure_level average_risk))
  end.

Definition _assess_climate_risk : list Location -> ExposureRisk :=
  assess_exposure climate_risk_data.

Definition _assess_geopolitical_risk : list Location -> ExposureRisk :=
  assess_exposure geopolitical_risk_data.

(* ------------------------------------------------------------------ *)
(** ** Text primitives *)

Module Text.

Definition code (c : ascii) : nat := nat_of_ascii c.

(** [\d] *)
Definition is_digit (c : ascii) : bool :=
  Nat.leb 48 (code c) && Nat.leb (code c) 57.

(** [\s], and the characters removed by [str.strip()]. *)
Definition is_space (c : ascii) : bool :=
  (Nat.leb 9 (code c) && Nat.leb (code c) 13)
  || (Nat.leb 28 (code c) && Nat.leb (code c) 32).

Definition lower_char (c : ascii) : ascii :=
  if Nat.leb 65 (code c) && Nat.leb (code c) 90
  then ascii_of_nat (code c + 32) else c.

(** [str.lower()] *)
Fixpoint lower (s : string) : string :=
  match s with
  | EmptyString => EmptyString
  | String c r => String (lower_char c) (lower r)
  end.

Fixpoint lstrip (s : string) : string :=
  match s with
  | EmptyString => EmptyString
  | String c r => if is_space c then lstrip r else s
  end.

Fixpoint rstrip (s : string) : string :=
  match s with
  | EmptyString => EmptyString
  | String c r =>
      match rstrip r with
      | EmptyString => if is_space c then EmptyString else String c EmptyString
      | r' => String c r'
      end
  end.

(** [str.strip()] *)
Definition strip (s : string) : string := rstrip (lstrip s).

(** [s[len(p):]] when [s.startswith(p)]. *)
Fixpoint strip_prefix (p s : string) : option string :=
  match p, s with
  | EmptyString, _ => Some s
  | String a p', String b s' =>
      if Ascii.eqb a b then strip_prefix p' s' else None
  | String _ _, EmptyString => None
  end.

(** [p in s] *)
Fixpoint contains (p s : string) : bool :=
  match strip_prefix p s with
  | Some _ => true
  | None =>
      match s with
      | EmptyString => false
      | String _ r => contains p r
      end
  end.

Definition digit_value (c : ascii) : nat := code c - 48.

(** [int(s)] for a string of digits. *)
Fixpoint int_of_digits_from (acc : nat) (s : string) : nat :=
  match s with
  | EmptyString => acc
  | String c r => int_of_digits_from (10 * acc + digit_value c) r
  end.

Definition int_of_digits (s : string) : nat := int_of_digits_from 0 s.

(** Splits at the first ['.']. *)
Fixpoint split_dot (s : string) : string * string :=
  match s with
  | EmptyString => (EmptyString, EmptyString)
  | String c r =>
      if Ascii.eqb c "."%char then (EmptyString, r)
      else let '(a, b) := split_dot r in (String c a, b)
  end.

(** [float(s)] for [s] of the shape digits, optional dot, digits. *)
Definition float_of_decimal (s : string) : Q :=
  let '(int_part, frac_part) := split_dot s in
  Py.of_nat (int_of_digits int_part)
  + Py.of_nat (int_of_digits frac_part)
    / Py.of_nat (10 ^ String.length frac_part).

End Text.

(* ------------------------------------------------------------------ *)
(** ** A backtracking matcher for the two lead-time patterns *)

Module Re.

(** The pattern elements that occur in the two regular expressions. *)
Inductive atom :=
| plus (p : ascii -> bool)     (* one or more, greedy *)
| star (p : ascii -> bool)     (* zero or more, greedy *)
| opt (c : ascii)              (* zero or one, greedy *)
| lit (s : string).            (* literal text *)

(** Greedy repetition of a character class followed by the continuation
    [rest]: the longest run is tried first and given back one character at
    a time.  The result lists the text consumed by each pattern element. *)
Fixpoint greedy (p : ascii -> bool) (rest : string -> option (list string))
         (s : string) : option (list string) :=
  match s with
  | String c s' =>
      if p c then
        match greedy p rest s' with
        | Some (t :: r) => Some (String c t :: r)
        | _ => option_map (cons EmptyString) (rest s)
        end
      else option_map (cons EmptyString) (rest s)
  | EmptyString => option_map (cons EmptyString) (rest s)
  end.

(** [re.match] of a sequence of elements at the start of [s]. *)
Fixpoint match_atoms (pat : list atom) (s : string) : option (list string) :=
  match pat with
  | [] => Some []
  | a :: pat' =>
      match a with
      | star p => greedy p (match_atoms pat') s
      | plus p =>
          match s with
          | String c s' =>
              if p c then
                match greedy p (match_atoms pat') s' with
                | Some (t :: r) => Some (String c t :: r)
                | _ => None
                end
              else None
          | EmptyString => None
          end
      | opt c =>
          match s with
          | String c' s' =>
              if Ascii.eqb c c' then
                match match_atoms pat' s' with
                | Some r => Some (String c EmptyString :: r)
                | None => option_map (cons EmptyString) (match_atoms pat' s)
                end
              else option_map (cons EmptyString) (match_atoms pat' s)
          | EmptyString => option_map (cons EmptyString) (match_atoms pat' s)
          end
      | lit l =>
          match Text.strip_prefix l s with
          | Some s' => option_map (cons l) (match_atoms pat' s')
          | None => None
          end
      end
  end.

(** [re.search]: the match at the leftmost starting position. *)
Fixpoint search (pat : list atom) (s : string) : option (list string) :=
  match match_atoms pat s with
  | Some texts => Some texts
  | None =>
      match s with
      | EmptyString => None
      | String _ s' => search pat s'
      end
  end.

(** The text matched by the first [n] elements. *)
Definition group (n : nat) (texts : list string) : string :=
  fold_right String.append EmptyString (firstn n texts).

End Re.

(** The weeks pattern: group 1 is [\d+ \.? \d*]; then [\s*], the text
    "week" and an optional "s". *)
Definition weeks_pattern : list Re.atom :=
  [Re.plus Text.is_digit; Re.opt "."%char; Re.star Text.is_digit;
   Re.star Text.is_space; Re.lit "week"; Re.opt "s"%char].

(** The days pattern: group 1 is [\d+]; then [\s*], the text "day" and an
    optional "s". *)
Definition days_pattern : list Re.atom :=
  [Re.plus Text.is_digit; Re.star Text.is_space; Re.lit "day"; Re.opt "s"%char].

(* ------------------------------------------------------------------ *)
(** ** Lead-time classifier *)

Definition mentions_in_stock_australia (t : string) : bool :=
  Text.contains "in stock australia" t || Text.contains "in-stock australia" t.

(** The local function [parse_weeks]: -1 stands for "unknown". *)
Definition parse_weeks (text : string) : Q :=
  if String.eqb text "" then -1
  else
    let t := Text.lower (Text.strip text) in
    if mentions_in_stock_australia t then 0
    else
      match Re.search weeks_pattern t with
      | Some m => Text.float_of_decimal (Re.group 3 m)
      | None =>
          match Re.search days_pattern t with
          | Some m =>
              let days := Text.int_of_digits (Re.group 1 m) in
              Py.of_nat days / 5
          | None => -1
          end
      end.

(** The local function [risk_from_text]. *)
Definition risk_from_text (text : string) : Q :=
  if String.eqb text "" then 0.5
  else
    let t := Text.lower (Text.strip text) in
    if mentions_in_stock_australia t then 0
    else
      let weeks := parse_weeks t in
      if Qeq_bool weeks 0 then 0
      else if negb (Qle_bool 0 weeks) then 0.5
      else if Qle_bool weeks 3 then 0.2
      else if Qle_bool weeks 6 then 0.6
      else if negb (Qle_bool weeks 10) then 0.9
      else Py.min 0.85 (0.6 + (Py.max weeks 6 - 6) * (0.25 / 4)).

(* ------------------------------------------------------------------ *)
(** ** Lead-time batch *)

Record LeadTimeItem := mkLeadTimeItem {
  lti_product   : string;
  lti_lead_time : string;
  lti_risk      : Q
}.

Record LeadTimeRisk := mkLeadTimeRisk {
  lt_average_risk : Q;
  lt_items        : list LeadTimeItem
}.

(** [a or b] where [a] is the result of a [dict.get]. *)
Definition py_or (a : option string) (b : string) : string :=
  match a with
  | Some s => if truthy s then s else b
  | None => b
  end.

(** The lead-time text of a product: the first non-empty of the three keys. *)
Definition lead_time_text (p : Product) : string :=
  let raw := match prod_raw p with
             | Some r => r
             | None => mkRaw None None None
             end in
  py_or (raw_lead_time raw)
        (py_or (raw_leadTime raw) (py_or (raw_availability raw) "")).

(** One pass of the product loop: [(items, total, count)]. *)
Definition lead_time_step (acc : list LeadTimeItem * Q * nat) (p : Product)
  : list LeadTimeItem * Q * nat :=
  let '(items, total, count) := acc in
  let lt := lead_time_text p in
  let score := risk_from_text lt in
  (items ++ [mkLeadTimeItem (or_default (prod_name p) "Unknown") lt
                            (Py.round3 score)],
   total + score,
   S count).

Definition _assess_lead_time_risk (products : list Product) : LeadTimeRisk :=
  match products with
  | [] => mkLeadTimeRisk 0 []
  | _ =>
      let '(items, total, count) :=
        fold_left lead_time_step products ([], 0, 0%nat) in
      let avg := if Nat.eqb count 0 then 0 else total / Py.of_nat count in
      mkLeadTimeRisk (Py.round3 avg) items
  end.

(* ------------------------------------------------------------------ *)
(** ** Composite scorer *)

(** Reads the [hhi] and [average_risk] entries of the two sub-results. *)
Definition _calculate_overall_risk_score_with_lead_time
           (geographic_risk : GeographicRisk) (lead_time_risk : LeadTimeRisk) : Q :=
  let hhi_score := geo_hhi geographic_risk in
  let lt_score := lt_average_risk lead_time_risk in
  Py.min (Py.max (0.7 * hhi_score + 0.3 * lt_score) 0) 1.

Inductive OverallLevel :=
| lvl_unknown | lvl_very_low | lvl_low | lvl_moderate | lvl_high | lvl_very_high.

(** The bucketing chain on [risk_score]. *)
Definition overall_level (risk_score : Q) : OverallLevel :=
  if Py.ge risk_score 0.8 then lvl_very_high
  else if Py.ge risk_score 0.6 then lvl_high
  else if Py.ge risk_score 0.4 then lvl_moderate
  else if Py.ge risk_score 0.2 then lvl_low
  else lvl_very_low.

(** [', '.join(xs)] *)
Fixpoint join_comma (xs : list string) : string :=
  match xs with
  | [] => EmptyString
  | [x] => x
  | x :: rest => String.append x (String.append ", " (join_comma rest))
  end.

(** The elements of [set(xs)], in order of first appearance. *)
Fixpoint distinct (xs : list string) : list string :=
  match xs with
  | [] => []
  | x :: rest => x :: filter (fun y => negb (String.eqb y x)) (distinct rest)
  end.

Definition is_exp_high (l : option ExposureLevel) : bool :=
  match l with Some exp_high => true | _ => false end.

Definition exposure_recommendations (headline prefix : string)
           (r : ExposureRisk) : list string :=
  if is_exp_high (exp_risk_level r) then
    let high_risk_countries := map hrl_country (exp_high_risk_locations r) in
    match high_risk_countries with
    | [] => [headline]
    | _ => [headline;
            String.append prefix (join_comma (distinct high_risk_countries))]
    end
  else [].

Definition _generate_recommendations (geographic_risk : GeographicRisk)
           (climate_risk geopolitical_risk : ExposureRisk) : list string :=
  let hhi := geo_hhi geographic_risk in
  let r1 :=
    if Py.ge hhi 0.7 then
      ["Consider diversifying suppliers across more countries to reduce geographic concentration risk"]
    else if Py.ge hhi 0.5 then
      ["Monitor geographic concentration and consider adding suppliers in different regions"]
    else [] in
  let r2 := r1 ++ exposure_recommendations
      "Implement climate risk mitigation strategies for high-risk locations"
      "Consider alternative suppliers outside high climate risk countries: "
      climate_risk in
  let r3 := r2 ++ exposure_recommendations
      "Develop contingency plans for geopolitical disruptions in high-risk regions"
      "Monitor political stability in: "
      geopolitical_risk in
  match r3 with
  | [] => ["Supply chain risk levels are acceptable. Continue monitoring for changes."]
  | _ => r3
  end.

Record ConcentrationSummary := mkConcentrationSummary {
  cs_hhi                  : Q;
  cs_concentration_level  : ConcentrationLevel;
  cs_countries            : nat;
  cs_country_distribution : Counter
}.

(** The dict returned by [assess_supply_chain_risk].  A sub-assessment that
    is the empty dict is [None]; [lead_time_risk] is [None] when the key is
    not present.  The [assessment_timestamp] entry, which is always [None],
    is left out. *)
Record Assessment := mkAssessment {
  overall_risk       : OverallLevel;
  risk_score         : Q;
  geographic_risk    : option GeographicRisk;
  climate_risk       : option ExposureRisk;
  geopolitical_risk  : option ExposureRisk;
  lead_time_risk     : option LeadTimeRisk;
  concentration_risk : option ConcentrationSummary;
  recommendations    : list string
}.

(** [products or []] *)
Definition products_or_empty (products : option (list Product)) : list Product :=
  match products with Some ps => ps | None => [] end.

Definition assess_supply_chain_risk (locations : list Location)
           (products : option (list Product)) : Assessment :=
  match locations with
  | [] =>
      mkAssessment lvl_unknown 0 None None None None None
                   ["No locations available for risk assessment"]
  | _ =>
      let geographic_risk := assess_geographic_risk locations in
      let climate_risk := _assess_climate_risk locations in
      let geopolitical_risk := _assess_geopolitical_risk locations in
      let lead_time_risk :=
        _assess_lead_time_risk (products_or_empty products) in
      let risk_score :=
        _calculate_overall_risk_score_with_lead_time
          geographic_risk lead_time_risk in
      let overall_risk := overall_level risk_score in
      let recommendations :=
        _generate_recommendations geographic_risk climate_risk
                                  geopolitical_risk in
      mkAssessment
        overall_risk
        (Py.round3 risk_score)
        (Some geographic_risk)
        (Some climate_risk)
        (Some geopolitical_risk)
        (Some lead_time_risk)
        (Some (mkConcentrationSummary
                 (geo_hhi geographic_risk)
                 (geo_concentration_risk geographic_risk)
                 (geo_countries geographic_risk)
                 (geo_country_distribution geographic_risk)))
        recommendations
  end.

(* ------------------------------------------------------------------ *)
(** ** Reference definitions, written from the specification's wording *)

(** Sum of a list of rationals. *)
Definition qsum (xs : list Q) : Q := fold_right Qplus 0 xs.

(** Arithmetic mean. *)
Definition mean (xs : list Q) : Q := qsum xs / Py.of_nat (List.length xs).

(** Number of entries of [countries] equal to [c]. *)
Definition count_in_country (c : string) (countries : list string) : nat :=
  count_occ string_dec countries c.

(** "Group locations by country; for each country compute
    share = count_in_country / total; sum share squared over all countries." *)
Definition spec_concentration_index (countries : list string) : Q :=
  qsum (map (fun c => (Py.of_nat (count_in_country c countries)
                       / Py.of_nat (List.length countries)) ^ 2)
            (nodup string_dec countries)).

(** The locations kept by an optional segment-type filter. *)
Definition spec_filtered (locations : list Location) (segment : option string)
  : list Location :=
  match segment with
  | None => locations
  | Some t => filter (has_type t) locations
  end.

(** All locations of a list lie in one country. *)
Definition share_one_country (locations : list Location) : Prop :=
  forall l1 l2, In l1 locations -> In l2 locations ->
                country_of l1 = country_of l2.

(** "Fraction of A's locations whose country appears anywhere in B's country
    set; 0.0 if A is empty" -- as the specification words it. *)
Definition spec_overlap_ratio (source target : list string) : Q :=
  match source with
  | [] => 0
  | _ => Py.of_nat (List.length (filter (fun c => in_set c target) source))
         / Py.of_nat (List.length source)
  end.

(** The week count of a lead-time text: a weeks pattern if there is one, else
    a days pattern divided by 5, else nothing. *)
Definition extract_weeks (t : string) : option Q :=
  match Re.search weeks_pattern t with
  | Some m => Some (Text.float_of_decimal (Re.group 3 m))
  | None =>
      match Re.search days_pattern t with
      | Some m => Some (Py.of_nat (Text.int_of_digits (Re.group 1 m)) / 5)
      | None => None
      end
  end.

(** Sum of squares and sum of a list of counts. *)
Definition sumsq (vs : list nat) : nat := fold_right (fun v a => (v * v + a)%nat) 0%nat vs.
Definition total (vs : list nat) : nat := fold_right Nat.add 0%nat vs.

(** Value of a counter at a key (0 when absent). *)
Fixpoint counter_get (c : Counter) (key : string) : nat :=
  match c with
  | [] => 0%nat
  | (k, n) :: rest => if String.eqb k key then n else counter_get rest key
  end.

(** The counter built from a list of keys. *)
Definition counter_of (keys : list string) : Counter :=
  fold_left counter_incr keys [].

(** What the counting loop maintains after reading the keys [seen]. *)
Record counter_inv (seen : list string) (c : Counter) : Prop := {
  inv_nodup    : NoDup (map fst c);
  inv_get      : forall k, counter_get c k = count_in_country k seen;
  inv_keys     : forall k, In k (map fst c) <-> In k seen;
  inv_total    : total (map snd c) = List.length seen;
  inv_positive : Forall (fun v => 1 <= v)%nat (map snd c)
}.

(** The overlap ratio with the guard of the code: a source location counts
    when its country is a non-empty name found among the target countries. *)
Definition guarded_overlap_ratio (source target : list string) : Q :=
  match source with
  | [] => 0
  | _ => Py.of_nat (List.length
                      (filter (fun c => truthy c && in_set c target) source))
         / Py.of_nat (List.length source)
  end.



(** The table score of a location, 0.5 for a country the table lacks. *)
Definition table_score (table : list (string * Q)) (l : Location) : Q :=
  Py.dict_get table (country_of l) 0.5.

(** The record appended for a high-risk location. *)
Definition annotate (table : list (string * Q)) (l : Location)
  : HighRiskLocation :=
  mkHighRiskLocation (or_default (loc_name l) "Unknown") (country_of l)
                     (table_score table l)
                     (or_default (loc_type l) "unknown").

(** Clamping to [0,1]. *)
Definition clamp01 (x : Q) : Q := Qmin (Qmax x 0) 1.


(** The unrounded lead-time risk of a product. *)
Definition product_risk (p : Product) : Q := risk_from_text (lead_time_text p).

(** The per-product item of the lead-time batch. *)
Definition lead_time_item (p : Product) : LeadTimeItem :=
  mkLeadTimeItem (or_default (prod_name p) "Unknown") (lead_time_text p)
                 (Py.round3 (product_risk p)).


(** A value that rounding to three decimals leaves unchanged. *)
Definition three_decimals (x : Q) : Prop := Py.round3 x == x.







(** A country flagged by the geographic assessment: climate or geopolitical
    score of at least 0.7. *)
Definition is_high_risk_country (c : string) : bool :=
  Py.ge (Py.dict_get climate_risk_data c 0.5) 0.7
  || Py.ge (Py.dict_get geopolitical_risk_data c 0.5) 0.7.

(** The record listed for a flagged country. *)
Definition high_risk_record (c : string) : HighRiskCountry :=
  mkHighRiskCountry c (Py.dict_get climate_risk_data c 0.5)
                    (Py.dict_get geopolitical_risk_data c 0.5).

(** Every score stored in a table lies in [0,1]. *)
Definition table_in_unit (table : list (string * Q)) : bool :=
  forallb (fun kv => Qle_bool 0 (snd kv) && Qle_bool (snd kv) 1) table.

(** What the returned fields of an exposure assessor satisfy together: the
    average lies in [0,1], within 0.0005 of the mean, and in the closed band
    of the level; the high-risk list is no longer than the input and its
    scores are in [0.7, 1]. *)
Definition exposure_bands (table : list (string * Q))
           (assess : list Location -> ExposureRisk) : Prop :=
  forall locations : list Location,
    let r := assess locations in
    let average := mean (map (table_score table) locations) in
    (0 <= exp_average_risk r <= 1)
    /\ (List.length (exp_high_risk_locations r) <= List.length locations)%nat
    /\ Forall (fun h => 0.7 <= hrl_risk_level h <= 1) (exp_high_risk_locations r)
    /\ (locations <> [] ->
        average - (1 # 2000) <= exp_average_risk r <= average + (1 # 2000))
    /\ (exp_risk_level r = Some exp_high -> 0.6 <= exp_average_risk r)
    /\ (exp_risk_level r = Some exp_moderate ->
        0.4 <= exp_average_risk r <= 0.6)
    /\ (exp_risk_level r = Some exp_low -> exp_average_risk r <= 0.4)
    /\ (exp_risk_level r = None <-> locations = []).

(** The tail of [risk_from_text]: the risk of a week count that was found. *)
Definition risk_of_week_count (weeks : Q) : Q :=
  if Qeq_bool weeks 0 then 0
  else if Qle_bool weeks 3 then 0.2
  else if Qle_bool weeks 6 then 0.6
  else if negb (Qle_bool weeks 10) then 0.9
  else Py.min 0.85 (0.6 + (Py.max weeks 6 - 6) * (0.25 / 4)).

(** The unrounded lead-time average of a product list (0 when empty). *)
Definition lead_time_mean (products : list Product) : Q :=
  match products with
  | [] => 0
  | _ => mean (map product_risk products)
  end.

(** The legacy three-factor score, [min(0.4 * hhi + 0.3 * climate +
    0.3 * geopolitical, 1.0)], which the assessment does not call. *)
Definition _calculate_overall_risk_score (geographic_risk : GeographicRisk)
           (climate_risk geopolitical_risk : ExposureRisk) : Q :=
  let hhi_score := geo_hhi geographic_risk in
  let climate_score := exp_average_risk climate_risk in
  let geopolitical_score := exp_average_risk geopolitical_risk in
  let overall_score :=
    0.4 * hhi_score + 0.3 * climate_score + 0.3 * geopolitical_score in
  Py.min overall_score 1.

(** The fixed recommendation texts. *)
Definition rec_diversify : string :=
  "Consider diversifying suppliers across more countries to reduce geographic concentration risk".
Definition rec_monitor : string :=
  "Monitor geographic concentration and consider adding suppliers in different regions".
Definition rec_climate : string :=
  "Implement climate risk mitigation strategies for high-risk locations".
Definition rec_geopolitical : string :=
  "Develop contingency plans for geopolitical disruptions in high-risk regions".
Definition rec_acceptable : string :=
  "Supply chain risk levels are acceptable. Continue monitoring for changes.".

(* ------------------------------------------------------------------ *)
(** ** Product catalogue service (services/product_aware_service.py) *)

(** [s.split(',')[-1]]: the text after the last comma, or all of [s]. *)
Fixpoint after_last_comma (s : string) : string :=
  match s with
  | EmptyString => EmptyString
  | String c r =>
      if Text.contains "," r then after_last_comma r
      else if Ascii.eqb c "," then r else s
  end.

(** [s.replace(old, new)] for a non-empty [old]: occurrences are replaced
    from the left and do not overlap; [skip] counts the characters of the
    current occurrence still to be passed over. *)
Fixpoint replace_from (old new : string) (skip : nat) (s : string) : string :=
  match s with
  | EmptyString => EmptyString
  | String c r =>
      match skip with
      | S n => replace_from old new n r
      | O =>
          match Text.strip_prefix old s with
          | Some _ =>
              String.append new
                (replace_from old new (String.length old - 1) r)
          | None => String c (replace_from old new 0 r)
          end
      end
  end.

Definition replace (old new s : string) : string := replace_from old new 0 s.

(** The three replacements applied to the stripped state field. *)
Definition normalise_state (location_state : string) : string :=
  let cleaned := Text.strip location_state in
  let cleaned := replace " Australia" "Australia" cleaned in
  let cleaned := replace " China" "China" cleaned in
  replace " USA" "USA" cleaned.

Definition extract_country (location_name location_state : string) : string :=
  let from_name :=
    if truthy location_name && Text.contains "," location_name then
      let last_part := Text.strip (after_last_comma location_name) in
      if truthy last_part then Some last_part else None
    else None in
  match from_name with
  | Some last_part => last_part
  | None =>
      if truthy location_state then
        let cleaned := normalise_state location_state in
        if truthy cleaned then cleaned else "Unknown"
      else if truthy location_name then
        let trimmed := Text.strip location_name in
        if Nat.ltb 2 (String.length trimmed)
           && negb (Text.contains "," trimmed)
        then trimmed else "Unknown"
      else "Unknown"
  end.

(** A location entry of the catalogue; only the two keys read for the
    country are kept. *)
Record ApiSite := mkApiSite {
  api_location_name  : option string;
  api_location_state : option string
}.

(** A catalogue product: its name, its lead-time keys and its three location
    lists (a missing list is [None]). *)
Record ApiProduct := mkApiProduct {
  api_product_name            : option string;
  api_lead                    : RawProduct;
  api_manufacturing_locations : option (list ApiSite);
  api_material_locations      : option (list ApiSite);
  api_storage_locations       : option (list ApiSite)
}.

(** A site of a transformed product, with the keys [extract_locations]
    reads. *)
Record Site := mkSite {
  site_name    : option string;
  site_address : option string;
  site_country : option string
}.

Record TransformedProduct := mkTransformedProduct {
  tp_name               : option string;
  tp_manufacturingSites : option (list Site);
  tp_rawMaterialSources : option (list Site);
  tp_suppliers          : option (list Site);
  tp_raw                : option ApiProduct
}.

(** [d.get(key, [])] *)
Definition or_nil {A : Type} (o : option (list A)) : list A :=
  match o with Some l => l | None => [] end.

(** The site dict built in each of the three loops of
    [_transform_product_data]. *)
Definition transform_site (site : ApiSite) : Site :=
  mkSite (Some (or_default (api_location_name site) "Unknown"))
         (Some (or_default (api_location_name site) ""))
         (Some (extract_country (or_default (api_location_name site) "")
                                (or_default (api_location_state site) ""))).

Definition _transform_product_data (product : ApiProduct) : TransformedProduct :=
  let manufacturing_sites :=
    map transform_site (or_nil (api_manufacturing_locations product)) in
  let raw_material_sources :=
    map transform_site (or_nil (api_material_locations product)) in
  let suppliers :=
    map transform_site (or_nil (api_storage_locations product)) in
  mkTransformedProduct
    (Some (or_default (api_product_name product) "Unknown"))
    (Some manufacturing_sites)
    (Some raw_material_sources)
    (Some suppliers)
    (Some product).

(** A location dict built by [extract_locations]: every key is present. *)
Record ExtractedLocation := mkExtractedLocation {
  el_type    : string;
  el_name    : string;
  el_address : string;
  el_country : string
}.

Definition extracted (type : string) (site : Site) : ExtractedLocation :=
  mkExtractedLocation type
                      (or_default (site_name site) "Unknown")
                      (or_default (site_address site) "")
                      (or_default (site_country site) "Unknown").

Definition extract_locations (product : TransformedProduct)
  : list ExtractedLocation :=
  map (extracted "manufacturing") (or_nil (tp_manufacturingSites product))
  ++ map (extracted "raw_material") (or_nil (tp_rawMaterialSources product))
  ++ map (extracted "supplier") (or_nil (tp_suppliers product)).

(** The keys of an extracted location that the scoring engine reads. *)
Definition to_location (l : ExtractedLocation) : Location :=
  mkLocation (Some (el_type l)) (Some (el_name l)) (Some (el_country l)).

(** The keys of a transformed product that the lead-time batch reads. *)
Definition to_engine_product (p : TransformedProduct) : Product :=
  mkProduct (tp_name p) (option_map api_lead (tp_raw p)).

(** The first character is not white space (or there is none). *)
Definition starts_clean (s : string) : bool :=
  match s with
  | EmptyString => true
  | String c _ => negb (Text.is_space c)
  end.

(** The last character is not white space (or there is none). *)
Fixpoint ends_clean (s : string) : bool :=
  match s with
  | EmptyString => true
  | String c r =>
      match r with
      | EmptyString => negb (Text.is_space c)
      | String _ _ => ends_clean r
      end
  end.

(** The country computed for a catalogue location entry. *)
Definition api_country (site : ApiSite) : string :=
  extract_country (or_default (api_location_name site) "")
                  (or_default (api_location_state site) "").

(** [round(x, 2)] *)
Definition round2 (x : Q) : Q := Qmake (Py.round_half_even (x * 100)) 100.

Record Coverage := mkCoverage {
  cov_manufacturing : Q;
  cov_materials     : Q;
  cov_storage       : Q;
  cov_complete      : Q
}.

(** The dict returned by [calculate_data_quality]; the empty-input dict has
    an empty [location_coverage], which is [None] here. *)
Record DataQuality := mkDataQuality {
  dq_total_products     : nat;
  dq_completeness_score : Q;
  dq_location_coverage  : option Coverage;
  dq_issues             : list string
}.

(** The counters and the issue list threaded through the product loop. *)
Record QualityCounts := mkQualityCounts {
  qc_manufacturing : nat;
  qc_materials     : nat;
  qc_storage       : nat;
  qc_complete      : nat;
  qc_issues        : list string
}.

Definition has_manufacturing (p : TransformedProduct) : bool :=
  Nat.ltb 0 (List.length (or_nil (tp_manufacturingSites p))).
Definition has_materials (p : TransformedProduct) : bool :=
  Nat.ltb 0 (List.length (or_nil (tp_rawMaterialSources p))).
Definition has_storage (p : TransformedProduct) : bool :=
  Nat.ltb 0 (List.length (or_nil (tp_suppliers p))).

(** The text of the issue raised for a product without any location. *)
Definition no_location_issue (p : TransformedProduct) : string :=
  String.append "Product '"
    (String.append (or_default (tp_name p) "Unknown") "' has no location data").

(** One pass of the product loop of [calculate_data_quality]. *)
Definition quality_step (acc : QualityCounts) (product : TransformedProduct)
  : QualityCounts :=
  let inc (b : bool) (n : nat) := if b then S n else n in
  mkQualityCounts
    (inc (has_manufacturing product) (qc_manufacturing acc))
    (inc (has_materials product) (qc_materials acc))
    (inc (has_storage product) (qc_storage acc))
    (inc (has_manufacturing product && has_materials product
          && has_storage product) (qc_complete acc))
    (if negb (has_manufacturing product) && negb (has_materials product)
        && negb (has_storage product)
     then qc_issues acc ++ [no_location_issue product]
     else qc_issues acc).

(** [(count / total_products) * 100] *)
Definition percentage (count total_products : nat) : Q :=
  Py.of_nat count / Py.of_nat total_products * 100.

Definition calculate_data_quality (products : list TransformedProduct)
  : DataQuality :=
  match products with
  | [] => mkDataQuality 0 0 None []
  | _ =>
      let total_products := List.length products in
      let counts :=
        fold_left quality_step products (mkQualityCounts 0 0 0 0 []) in
      let completeness_score := percentage (qc_complete counts) total_products in
      mkDataQuality
        total_products
        (round2 completeness_score)
        (Some (mkCoverage
                 (round2 (percentage (qc_manufacturing counts) total_products))
                 (round2 (percentage (qc_materials counts) total_products))
                 (round2 (percentage (qc_storage counts) total_products))
                 (round2 (percentage (qc_complete counts) total_products))))
        (firstn 10 (qc_issues counts))
  end.

(** A product with all three kinds of location, and one with none. *)
Definition is_complete (p : TransformedProduct) : bool :=
  has_manufacturing p && has_materials p && has_storage p.
Definition is_unlocated (p : TransformedProduct) : bool :=
  negb (has_manufacturing p) && negb (has_materials p) && negb (has_storage p).

(* ------------------------------------------------------------------ *)
(** ** The risk endpoint (SCRA/app.py), per product *)

(** What one call of [geocode_location] does, as the endpoint sees it. *)
Inductive GeocodeOutcome := geocode_found | geocode_not_found | geocode_raised.

(** The outcome for the location at position [i]: a location without an
    address is not found, without any lookup; otherwise the provider (cache
    and network, given as [provider]) decides. *)
Definition geocode_location (provider : nat -> GeocodeOutcome) (i : nat)
           (location : ExtractedLocation) : GeocodeOutcome :=
  if truthy (el_address location) then provider i else geocode_not_found.

(** The geocoding loop of [assess_risk]: a found location is kept (the keys
    added to it are not read by the engine), a location not found is
    dropped, and a location whose lookup raised is kept as it was. *)
Fixpoint geocode_all (provider : nat -> GeocodeOutcome) (i : nat)
         (locations : list ExtractedLocation) : list ExtractedLocation :=
  match locations with
  | [] => []
  | location :: rest =>
      match geocode_location provider i location with
      | geocode_not_found => geocode_all provider (S i) rest
      | _ => location :: geocode_all provider (S i) rest
      end
  end.

(** [int(round(x))] *)
Definition int_round (x : Q) : Z := Py.round_half_even x.

(** The numbers and levels of the [assessment] entry of a product result
    that are computed from the engine's record. *)
Record ProductAssessment := mkProductAssessment {
  pa_overallRiskLevel    : OverallLevel;
  pa_totalRiskPercentage : Z;
  pa_hhi_score           : Z;
  pa_hhi_riskLevel       : ConcentrationLevel;
  pa_leadTime_percentage : Z
}.

(** The transformation of [risk_results] in [assess_risk]: a missing
    sub-record is replaced by the defaults of the [get] calls. *)
Definition product_assessment (risk_results : Assessment) : ProductAssessment :=
  let hhi_0_1 :=
    match geographic_risk risk_results with
    | Some geo => geo_hhi geo
    | None => 0
    end in
  let concentration_level :=
    match geographic_risk risk_results with
    | Some geo => geo_concentration_risk geo
    | None =>
        match concentration_risk risk_results with
        | Some conc => cs_concentration_level conc
        | None => conc_low
        end
    end in
  let lt_average :=
    match lead_time_risk risk_results with
    | Some lt => lt_average_risk lt
    | None => 0
    end in
  mkProductAssessment
    (overall_risk risk_results)
    (int_round (risk_score risk_results * 100))
    (int_round (hhi_0_1 * 10000))
    concentration_level
    (int_round (lt_average * 100)).

(** The body of the product loop of [assess_risk]: [None] when the product
    is skipped for lack of locations. *)
Definition analyse_product (provider : nat -> GeocodeOutcome)
           (product : TransformedProduct) : option ProductAssessment :=
  let product_locations := extract_locations product in
  match product_locations with
  | [] => None
  | _ =>
      let geocoded_product_locations :=
        geocode_all provider 0 product_locations in
      let risk_results :=
        assess_supply_chain_risk (map to_location geocoded_product_locations)
                                 (Some [to_engine_product product]) in
      Some (product_assessment risk_results)
  end.

(** The location extracted for a catalogue entry of segment [t]. *)
Definition extracted_location_of (t : string) (e : ApiSite) : ExtractedLocation :=
  extracted t (transform_site e).

(* ------------------------------------------------------------------ *)
(** ** Product validation (SCRA/app.py) *)

Definition invalid_manufacturers : list string :=
  ["China"; "USA"; "United States"; "UK"; "United Kingdom"; "Europe";
   "Asia"; "America"; "India"; "Japan"; "Germany"; "France"; "Italy";
   "Spain"; "Canada"; "Brazil"; "Australia"; "Russia"; "Korea";
   "Netherlands"; "Belgium"; "Switzerland"; "Austria"; "Sweden"; "Norway";
   "Denmark"; "Finland"; "Poland"; "Portugal"; "Greece"; "Ireland";
   "Singapore"; "Malaysia"; "Thailand"; "Vietnam"; "Indonesia"; "Philippines"].

Definition invalid_product_names : list string :=
  ["Paris"; "London"; "New York"; "Tokyo"; "Sydney"; "Berlin"; "Rome";
   "Madrid"; "Beijing"; "Shanghai"; "Mumbai"; "Dubai"; "Los Angeles";
   "Chicago"; "Houston"; "Toronto"; "Vancouver"; "Melbourne"; "Brisbane"].

Definition placeholder_names : list string :=
  ["unknown"; "test"; "sample"; "demo"; "placeholder"].

(** [is_valid_product], on the two keys it reads ([None]: key missing). *)
Definition is_valid_product (manufacturer_name product_name : option string)
  : bool :=
  let manufacturer := Text.strip (or_default manufacturer_name "") in
  let product_name := Text.strip (or_default product_name "") in
  if in_set manufacturer invalid_manufacturers then false
  else if in_set product_name invalid_product_names then false
  else if negb (truthy manufacturer) || negb (truthy product_name) then false
  else if in_set (Text.lower manufacturer) placeholder_names then false
  else if in_set (Text.lower product_name) placeholder_names then false
  else true.

(* ================================================================== *)
(** * Properties *)

(** ** Numeric primitives *)

Lemma ge_true_iff (x t : Q) : Py.ge x t = true <-> t <= x.
Proof. unfold Py.ge. apply Qle_bool_iff. Qed.

Lemma ge_false_iff (x t : Q) : Py.ge x t = false <-> x < t.
Proof.
  unfold Py.ge. split; intro H.
  - apply Qnot_le_lt. intro Hle. apply Qle_bool_iff in Hle. congruence.
  - destruct (Qle_bool t x) eqn:E; auto.
    apply Qle_bool_iff in E. exfalso. apply (Qlt_not_le _ _ H E).
Qed.

Lemma py_max_spec (a b : Q) : Py.max a b == Qmax a b.
Proof.
  unfold Py.max. destruct (Qle_bool b a) eqn:E.
  - apply Qle_bool_iff in E. symmetry. apply Q.max_l. exact E.
  - assert (a < b) by (apply ge_false_iff; exact E).
    symmetry. apply Q.max_r. apply Qlt_le_weak. assumption.
Qed.

Lemma py_min_spec (a b : Q) : Py.min a b == Qmin a b.
Proof.
  unfold Py.min. destruct (Qle_bool a b) eqn:E.
  - apply Qle_bool_iff in E. symmetry. apply Q.min_l. exact E.
  - assert (b < a) by (apply ge_false_iff; exact E).
    symmetry. apply Q.min_r. apply Qlt_le_weak. assumption.
Qed.

Lemma of_nat_nonneg (n : nat) : 0 <= Py.of_nat n.
Proof.
  unfold Py.of_nat. change 0 with (inject_Z 0). rewrite <- Zle_Qle. lia.
Qed.

Lemma of_nat_pos (n : nat) : (0 < n)%nat -> 0 < Py.of_nat n.
Proof.
  intro H. unfold Py.of_nat. change 0 with (inject_Z 0). rewrite <- Zlt_Qlt. lia.
Qed.

Lemma of_nat_add (a b : nat) : Py.of_nat (a + b) == Py.of_nat a + Py.of_nat b.
Proof. unfold Py.of_nat. rewrite Nat2Z.inj_add, inject_Z_plus. reflexivity. Qed.

Lemma of_nat_mul (a b : nat) : Py.of_nat (a * b) == Py.of_nat a * Py.of_nat b.
Proof. unfold Py.of_nat. rewrite Nat2Z.inj_mul, inject_Z_mult. reflexivity. Qed.

Lemma of_nat_le (a b : nat) : (a <= b)%nat <-> Py.of_nat a <= Py.of_nat b.
Proof. unfold Py.of_nat. rewrite <- Zle_Qle. lia. Qed.

Lemma of_nat_eq (a b : nat) : a = b <-> Py.of_nat a == Py.of_nat b.
Proof. unfold Py.of_nat. rewrite inject_Z_injective. lia. Qed.

Lemma sq_as_mul (x : Q) : x ^ 2 == x * x.
Proof. simpl. reflexivity. Qed.

(** ** Sums *)

Lemma fold_left_plus_qsum (A : Type) (f : A -> Q) (xs : list A) (a : Q) :
  fold_left (fun acc x => acc + f x) xs a == a + qsum (map f xs).
Proof.
  revert a. induction xs as [|x xs IH]; intro a; simpl.
  - ring.
  - rewrite IH. ring.
Qed.

Lemma qsum_app (xs ys : list Q) : qsum (xs ++ ys) == qsum xs + qsum ys.
Proof.
  induction xs as [|x xs IH]; simpl; [ring | rewrite IH; ring].
Qed.

Lemma qsum_perm (xs ys : list Q) : Permutation xs ys -> qsum xs == qsum ys.
Proof.
  induction 1; simpl.
  - reflexivity.
  - rewrite IHPermutation. reflexivity.
  - ring.
  - etransitivity; eassumption.
Qed.

Lemma qsum_nonneg (xs : list Q) : Forall (fun x => 0 <= x) xs -> 0 <= qsum xs.
Proof.
  induction 1; simpl; [apply Qle_refl | lra].
Qed.


(** ** The counter *)

Lemma in_set_iff (c : string) (s : list string) : in_set c s = true <-> In c s.
Proof.
  unfold in_set. rewrite existsb_exists. split.
  - intros [x [Hin Heq]]. apply String.eqb_eq in Heq. subst. exact Hin.
  - intro Hin. exists c. split; [exact Hin | apply String.eqb_refl].
Qed.

Lemma counter_get_incr (c : Counter) (k k' : string) :
  counter_get (counter_incr c k) k'
  = (counter_get c k' + if String.eqb k k' then 1 else 0)%nat.
Proof.
  induction c as [|[a n] c IH]; simpl.
  - destruct (String.eqb k k'); reflexivity.
  - destruct (String.eqb a k) eqn:E; simpl.
    + apply String.eqb_eq in E. subst a.
      destruct (String.eqb k k'); lia.
    + destruct (String.eqb a k') eqn:E2.
      * apply String.eqb_eq in E2. subst a. rewrite String.eqb_sym, E. lia.
      * apply IH.
Qed.

Lemma counter_incr_keys (c : Counter) (k : string) :
  map fst (counter_incr c k)
  = if in_set k (map fst c) then map fst c else map fst c ++ [k].
Proof.
  induction c as [|[a n] c IH]; simpl.
  - reflexivity.
  - rewrite (String.eqb_sym k a).
    destruct (String.eqb a k) eqn:E; simpl.
    + reflexivity.
    + rewrite IH. fold (in_set k (map fst c)).
      destruct (in_set k (map fst c)); reflexivity.
Qed.

Lemma counter_incr_total (c : Counter) (k : string) :
  total (map snd (counter_incr c k)) = S (total (map snd c)).
Proof.
  induction c as [|[a n] c IH]; simpl.
  - reflexivity.
  - destruct (String.eqb a k); simpl; [reflexivity | rewrite IH; lia].
Qed.

Lemma counter_incr_positive (c : Counter) (k : string) :
  Forall (fun v => 1 <= v)%nat (map snd c) ->
  Forall (fun v => 1 <= v)%nat (map snd (counter_incr c k)).
Proof.
  induction c as [|[a n] c IH]; simpl; intro H.
  - constructor; [lia | constructor].
  - inversion H; subst.
    destruct (String.eqb a k); simpl; constructor; auto.
Qed.

Lemma counter_inv_nil : counter_inv [] [].
Proof.
  constructor; simpl; try reflexivity; try constructor; tauto.
Qed.

Lemma counter_inv_step (seen : list string) (c : Counter) (k : string) :
  counter_inv seen c -> counter_inv (seen ++ [k]) (counter_incr c k).
Proof.
  intros [Hnd Hget Hkeys Htot Hpos]. constructor.
  - rewrite counter_incr_keys.
    destruct (in_set k (map fst c)) eqn:E; [exact Hnd|].
    apply NoDup_app; [exact Hnd | repeat constructor; simpl; tauto |].
    intros x Hx [Hk|[]]. subst x.
    apply in_set_iff in Hx. congruence.
  - intro k'. rewrite counter_get_incr, Hget. unfold count_in_country.
    rewrite count_occ_app. simpl.
    destruct (string_dec k k') as [->|Hne].
    + rewrite String.eqb_refl. reflexivity.
    + apply String.eqb_neq in Hne. rewrite Hne. reflexivity.
  - intro k'. rewrite counter_incr_keys, in_app_iff. simpl.
    destruct (in_set k (map fst c)) eqn:E.
    + apply in_set_iff in E. rewrite Hkeys. split; [tauto|].
      intros [H|[H|[]]]; [exact H | subst k'; apply Hkeys; exact E].
    + rewrite in_app_iff, Hkeys. simpl. tauto.
  - rewrite counter_incr_total, Htot, length_app. simpl. lia.
  - apply counter_incr_positive. exact Hpos.
Qed.

Lemma counter_inv_fold (keys seen : list string) (c : Counter) :
  counter_inv seen c ->
  counter_inv (seen ++ keys) (fold_left counter_incr keys c).
Proof.
  revert seen c. induction keys as [|k keys IH]; intros seen c H; simpl.
  - rewrite app_nil_r. exact H.
  - replace (seen ++ k :: keys) with ((seen ++ [k]) ++ keys)
      by (rewrite <- app_assoc; reflexivity).
    apply IH. apply counter_inv_step. exact H.
Qed.

Lemma counter_of_inv (keys : list string) : counter_inv keys (counter_of keys).
Proof.
  apply (counter_inv_fold keys [] []). apply counter_inv_nil.
Qed.

Lemma count_countries_counter_of (locs : list Location) :
  count_countries locs = counter_of (map country_of locs).
Proof.
  unfold count_countries, counter_of.
  generalize (@nil (string * nat)).
  induction locs as [|l locs IH]; intro acc; simpl; [reflexivity | apply IH].
Qed.

Lemma counter_values_by_key (c : Counter) :
  NoDup (map fst c) -> map snd c = map (counter_get c) (map fst c).
Proof.
  induction c as [|[a n] c IH]; simpl; intro Hnd.
  - reflexivity.
  - inversion Hnd as [|? ? Hnotin Hnd']; subst.
    rewrite String.eqb_refl. f_equal.
    rewrite IH by exact Hnd'.
    apply map_ext_in. intros k Hk.
    destruct (String.eqb a k) eqn:E; [|reflexivity].
    apply String.eqb_eq in E. subst. contradiction.
Qed.

(** ** The concentration index *)

Lemma hhi_loop_qsum (vs : list nat) (n : nat) :
  hhi_loop vs n == qsum (map (fun v => (Py.of_nat v / Py.of_nat n) ^ 2) vs).
Proof.
  unfold hhi_loop.
  etransitivity;
    [apply (fold_left_plus_qsum nat (fun v => (Py.of_nat v / Py.of_nat n) ^ 2))|].
  ring.
Qed.

Lemma hhi_loop_ratio (vs : list nat) (n : nat) :
  (0 < n)%nat ->
  hhi_loop vs n == Py.of_nat (sumsq vs) / (Py.of_nat n * Py.of_nat n).
Proof.
  intro Hn. rewrite hhi_loop_qsum.
  assert (Hn0 : ~ Py.of_nat n == 0).
  { intro H. apply of_nat_pos in Hn. rewrite H in Hn. apply (Qlt_irrefl 0 Hn). }
  induction vs as [|v vs IH].
  - simpl. change (Py.of_nat 0) with 0. field. exact Hn0.
  - cbn [map qsum sumsq fold_right]. fold (sumsq vs).
    fold (qsum (map (fun v0 => (Py.of_nat v0 / Py.of_nat n) ^ 2) vs)).
    rewrite IH, of_nat_add, of_nat_mul, sq_as_mul. field. exact Hn0.
Qed.

Lemma filter_by_type_nil (ft : option string) : filter_by_type [] ft = [].
Proof.
  destruct ft as [t|]; simpl; [destruct (String.eqb t ""); reflexivity | reflexivity].
Qed.

(** [calculate_hhi] is the accumulation loop run on the filtered list. *)
Lemma calculate_hhi_unfold (locs : list Location) (ft : option string) :
  calculate_hhi locs ft
  = match filter_by_type locs ft with
    | [] => 0
    | fl => hhi_loop (map snd (count_countries fl)) (List.length fl)
    end.
Proof.
  unfold calculate_hhi. destruct locs as [|l locs].
  - rewrite filter_by_type_nil. reflexivity.
  - destruct (filter_by_type (l :: locs) ft) as [|x fl]; reflexivity.
Qed.

Lemma counter_keys_perm (cs : list string) :
  Permutation (map fst (counter_of cs)) (nodup string_dec cs).
Proof.
  destruct (counter_of_inv cs) as [Hnd _ Hkeys _ _].
  apply NoDup_Permutation; [exact Hnd | apply NoDup_nodup |].
  intro k. rewrite Hkeys, nodup_In. tauto.
Qed.

Lemma counter_values (cs : list string) :
  map snd (counter_of cs)
  = map (fun k => count_in_country k cs) (map fst (counter_of cs)).
Proof.
  destruct (counter_of_inv cs) as [Hnd Hget _ _ _].
  rewrite counter_values_by_key by exact Hnd.
  apply map_ext. exact Hget.
Qed.

Lemma hhi_loop_spec (cs : list string) :
  hhi_loop (map snd (counter_of cs)) (List.length cs)
  == spec_concentration_index cs.
Proof.
  rewrite hhi_loop_qsum, counter_values, map_map.
  unfold spec_concentration_index.
  apply qsum_perm. apply Permutation_map. apply counter_keys_perm.
Qed.

Lemma calculate_hhi_index (locs : list Location) (ft : option string) :
  calculate_hhi locs ft
  == spec_concentration_index (map country_of (filter_by_type locs ft)).
Proof.
  rewrite calculate_hhi_unfold.
  destruct (filter_by_type locs ft) as [|x fl] eqn:E.
  - reflexivity.
  - change (hhi_loop (map snd (count_countries (x :: fl))) (List.length (x :: fl))
            == spec_concentration_index (map country_of (x :: fl))).
    rewrite count_countries_counter_of.
    rewrite <- (length_map country_of (x :: fl)).
    apply hhi_loop_spec.
Qed.

Lemma filter_by_type_spec (locs : list Location) (ft : option string) :
  ft <> Some "" -> filter_by_type locs ft = spec_filtered locs ft.
Proof.
  intro H. destruct ft as [t|]; simpl; [|reflexivity].
  destruct (String.eqb t "") eqn:E; [|reflexivity].
  apply String.eqb_eq in E. subst. congruence.
Qed.

(** C2. For every location list and every optional segment filter (a
    segment name, hence not the empty string), [calculate_hhi] is the sum,
    over the distinct countries of the kept locations, of
    (count_in_country / number_of_kept_locations) squared; and when the list,
    or the list kept by the filter, is empty the result is the literal 0. *)
Theorem calculate_hhi_sum_of_squared_shares
        (locations : list Location) (segment : option string) :
  segment <> Some "" ->
  calculate_hhi locations segment
  == spec_concentration_index (map country_of (spec_filtered locations segment))
  /\ (locations = [] \/ spec_filtered locations segment = [] ->
      calculate_hhi locations segment = 0).
Proof.
  intro Hseg. split.
  - rewrite <- (filter_by_type_spec locations segment Hseg).
    apply calculate_hhi_index.
  - intro H. rewrite calculate_hhi_unfold.
    rewrite (filter_by_type_spec locations segment Hseg).
    destruct H as [H|H].
    + subst. destruct segment; reflexivity.
    + rewrite H. reflexivity.
Qed.

(** Witness of C2 on three manufacturing sites in two countries. *)
Lemma calculate_hhi_sum_of_squared_shares_witness :
  let locations :=
    [mkLocation (Some "manufacturing") None (Some "China");
     mkLocation (Some "manufacturing") None (Some "China");
     mkLocation (Some "manufacturing") None (Some "Australia")] in
  Some "manufacturing" <> Some ""
  /\ calculate_hhi locations (Some "manufacturing")
     == spec_concentration_index
          (map country_of (spec_filtered locations (Some "manufacturing"))).
Proof.
  intro locations.
  assert (H : Some "manufacturing" <> Some "") by (intro E; discriminate E).
  split; [exact H|].
  exact (proj1 (calculate_hhi_sum_of_squared_shares
                  locations (Some "manufacturing") H)).
Defined.

(** *** Bounds and extremal cases *)

Lemma sumsq_le_total_sq (vs : list nat) : (sumsq vs <= total vs * total vs)%nat.
Proof.
  induction vs as [|v vs IH]; simpl; [lia | nia].
Qed.

Lemma total_zero_positive (vs : list nat) :
  Forall (fun v => 1 <= v)%nat vs -> total vs = 0%nat -> vs = [].
Proof.
  destruct 1 as [|v vs Hv _]; simpl; [reflexivity | lia].
Qed.

Lemma sumsq_eq_total_sq (vs : list nat) :
  Forall (fun v => 1 <= v)%nat vs ->
  sumsq vs = (total vs * total vs)%nat -> (List.length vs <= 1)%nat.
Proof.
  destruct 1 as [|v vs Hv Hvs]; simpl; intro H; [lia|].
  pose proof (sumsq_le_total_sq vs) as Hle.
  assert (Ht : total vs = 0%nat) by nia.
  rewrite (total_zero_positive vs Hvs Ht). simpl. lia.
Qed.

Lemma single_total (vs : list nat) (n : nat) :
  (List.length vs <= 1)%nat -> total vs = n -> (0 < n)%nat -> vs = [n].
Proof.
  destruct vs as [|v [|w vs]]; simpl; intros; try lia.
  f_equal. lia.
Qed.

Lemma constant_counts (vs : list nat) (m : nat) :
  Forall (eq m) vs ->
  sumsq vs = (List.length vs * (m * m))%nat
  /\ total vs = (List.length vs * m)%nat.
Proof.
  induction 1 as [|v vs Hv _ [IH1 IH2]]; simpl; [split; reflexivity|].
  subst v. rewrite IH1, IH2. split; lia.
Qed.

Lemma nodup_all_equal (A : Type) (l : list A) (a : A) :
  NoDup l -> (forall x, In x l -> x = a) -> (List.length l <= 1)%nat.
Proof.
  intros Hnd Hall. destruct l as [|x [|y l]]; simpl; try lia.
  exfalso. inversion Hnd as [|? ? Hnotin _]; subst.
  apply Hnotin. left.
  rewrite (Hall x), (Hall y); simpl; auto.
Qed.

Lemma ratio_bounds (s n : nat) :
  (0 < n)%nat -> (s <= n * n)%nat ->
  0 <= Py.of_nat s / (Py.of_nat n * Py.of_nat n) <= 1.
Proof.
  intros Hn Hs.
  pose proof (of_nat_pos n Hn) as Hpos.
  assert (Hd : 0 < Py.of_nat n * Py.of_nat n) by nra.
  apply of_nat_le in Hs. rewrite of_nat_mul in Hs.
  pose proof (of_nat_nonneg s) as Hs0.
  split.
  - apply Qle_shift_div_l; [exact Hd | lra].
  - apply Qle_shift_div_r; [exact Hd | lra].
Qed.

Lemma ratio_one_iff (s n : nat) :
  (0 < n)%nat ->
  Py.of_nat s / (Py.of_nat n * Py.of_nat n) == 1 <-> s = (n * n)%nat.
Proof.
  intro Hn. pose proof (of_nat_pos n Hn) as Hpos.
  assert (Hd : ~ Py.of_nat n * Py.of_nat n == 0) by nra.
  rewrite of_nat_eq, of_nat_mul. split; intro H.
  - rewrite <- (Qmult_1_l (Py.of_nat n * Py.of_nat n)), <- H. field. nra.
  - rewrite H. field. nra.
Qed.

Section IndexOfKeys.

Variable cs : list string.
Hypothesis cs_nonempty : cs <> [].

Let vs := map snd (counter_of cs).
Let n := List.length cs.

Lemma keys_length_pos : (0 < n)%nat.
Proof. unfold n. destruct cs; [congruence | simpl; lia]. Qed.

Lemma index_bounds : 0 <= hhi_loop vs n <= 1.
Proof.
  destruct (counter_of_inv cs) as [_ _ _ Htot _].
  rewrite (hhi_loop_ratio vs n keys_length_pos).
  apply ratio_bounds; [apply keys_length_pos|].
  fold vs in Htot. fold n in Htot. rewrite <- Htot. apply sumsq_le_total_sq.
Qed.

Lemma index_one_iff :
  hhi_loop vs n == 1 <-> (forall a b, In a cs -> In b cs -> a = b).
Proof.
  destruct (counter_of_inv cs) as [Hnd _ Hkeys Htot Hpos].
  fold vs in Htot, Hpos. fold n in Htot.
  rewrite (hhi_loop_ratio vs n keys_length_pos).
  rewrite (ratio_one_iff _ _ keys_length_pos), <- Htot.
  split.
  - intros H a b Ha Hb.
    apply (sumsq_eq_total_sq vs Hpos) in H.
    unfold vs in H. rewrite length_map, <- (length_map fst) in H.
    apply Hkeys in Ha. apply Hkeys in Hb.
    destruct (map fst (counter_of cs)) as [|x [|y l]]; simpl in *;
      [tauto | intuition congruence | lia].
  - intro Hall.
    assert (Hlen : (List.length vs <= 1)%nat).
    { unfold vs. rewrite length_map, <- (length_map fst).
      destruct cs as [|c0 cs'] eqn:Ecs; [congruence|].
      apply (nodup_all_equal _ _ c0 Hnd).
      intros x Hx. apply Hkeys in Hx. apply Hall; [exact Hx | left; reflexivity]. }
    rewrite (single_total vs n Hlen Htot keys_length_pos).
    simpl. lia.
Qed.

Lemma index_even_split (m : nat) :
  (forall c, In c cs -> count_in_country c cs = m) ->
  hhi_loop vs n == 1 / Py.of_nat (List.length (nodup string_dec cs)).
Proof.
  intro Heven.
  destruct (counter_of_inv cs) as [_ _ Hkeys Htot _].
  fold vs in Htot. fold n in Htot.
  assert (Hconst : Forall (eq m) vs).
  { unfold vs. rewrite counter_values. apply Forall_forall.
    intros v Hv. apply in_map_iff in Hv. destruct Hv as [c [Hc Hin]].
    subst v. symmetry. apply Heven. apply Hkeys. exact Hin. }
  destruct (constant_counts vs m Hconst) as [Hsq Hto].
  assert (Hlen : List.length vs = List.length (nodup string_dec cs)).
  { unfold vs. rewrite length_map, <- (length_map fst).
    apply Permutation_length. apply counter_keys_perm. }
  rewrite Hlen in Hsq, Hto.
  pose proof keys_length_pos as Hn.
  rewrite (hhi_loop_ratio vs n Hn), Hsq.
  rewrite <- Htot, Hto in *.
  set (d := List.length (nodup string_dec cs)) in *.
  assert (Hd : (0 < d)%nat) by nia.
  assert (Hm : (0 < m)%nat) by nia.
  apply of_nat_pos in Hd, Hm.
  rewrite !of_nat_mul. field. split; lra.
Qed.

End IndexOfKeys.

Lemma share_one_country_keys (fl : list Location) :
  share_one_country fl
  <-> (forall a b, In a (map country_of fl) -> In b (map country_of fl) -> a = b).
Proof.
  unfold share_one_country. split.
  - intros H a b Ha Hb.
    apply in_map_iff in Ha. destruct Ha as [l1 [<- H1]].
    apply in_map_iff in Hb. destruct Hb as [l2 [<- H2]].
    apply H; assumption.
  - intros H l1 l2 H1 H2. apply H; apply in_map; assumption.
Qed.

Lemma calculate_hhi_nonempty (locs : list Location) (ft : option string) :
  filter_by_type locs ft <> [] ->
  calculate_hhi locs ft
  = hhi_loop (map snd (counter_of (map country_of (filter_by_type locs ft))))
             (List.length (map country_of (filter_by_type locs ft))).
Proof.
  intro Hne. rewrite calculate_hhi_unfold.
  destruct (filter_by_type locs ft) as [|x fl] eqn:E; [congruence|].
  cbv beta iota zeta. rewrite count_countries_counter_of, length_map.
  reflexivity.
Qed.

Lemma map_country_nonempty (fl : list Location) :
  fl <> [] -> map country_of fl <> [].
Proof. destruct fl; simpl; congruence. Qed.

(** C5. For every location list and filter the concentration index lies in
    [0,1]; when the filtered list is non-empty the index is 1 exactly when
    all its locations share one country; and when its n >= 1 distinct
    countries each hold the same number m of locations the index is 1/n. *)
Theorem calculate_hhi_bounds_and_extremes
        (locations : list Location) (location_type : option string) :
  let kept := filter_by_type locations location_type in
  let index := calculate_hhi locations location_type in
  (0 <= index <= 1)
  /\ (kept <> [] -> (index == 1 <-> share_one_country kept))
  /\ (forall n m : nat,
         (1 <= n)%nat ->
         List.length (nodup string_dec (map country_of kept)) = n ->
         (forall c, In c (map country_of kept) ->
                    count_in_country c (map country_of kept) = m) ->
         index == 1 / Py.of_nat n).
Proof.
  intros kept index.
  destruct kept as [|x fl] eqn:E.
  - assert (Hz : index = 0).
    { unfold index. rewrite calculate_hhi_unfold. fold kept. rewrite E.
      reflexivity. }
    rewrite Hz. split; [lra|]. split; [congruence|].
    intros n m Hn Hlen _. simpl in Hlen. lia.
  - assert (Hne : filter_by_type locations location_type <> [])
      by (fold kept; rewrite E; congruence).
    assert (Hidx : index
                   = hhi_loop (map snd (counter_of (map country_of (x :: fl))))
                              (List.length (map country_of (x :: fl)))).
    { unfold index. rewrite (calculate_hhi_nonempty _ _ Hne). fold kept.
      rewrite E. reflexivity. }
    assert (Hcs : map country_of (x :: fl) <> [])
      by (apply map_country_nonempty; congruence).
    rewrite Hidx. split; [|split].
    + apply index_bounds. exact Hcs.
    + intros _. rewrite share_one_country_keys.
      apply index_one_iff. exact Hcs.
    + intros n m _ Hlen Heven. rewrite <- Hlen.
      apply (index_even_split _ Hcs m). exact Heven.
Qed.

(** Witness of C5: four locations evenly split over two countries. *)
Lemma calculate_hhi_bounds_and_extremes_witness :
  let locations :=
    [mkLocation (Some "supplier") None (Some "Japan");
     mkLocation (Some "supplier") None (Some "Germany");
     mkLocation (Some "supplier") None (Some "Japan");
     mkLocation (Some "supplier") None (Some "Germany")] in
  calculate_hhi locations None == 1 / Py.of_nat 2.
Proof.
  intro locations.
  refine (proj2 (proj2 (calculate_hhi_bounds_and_extremes locations None))
                2%nat 2%nat _ _ _).
  - lia.
  - vm_compute. reflexivity.
  - intros c Hc. simpl in Hc.
    destruct Hc as [<-|[<-|[<-|[<-|[]]]]]; vm_compute; reflexivity.
Defined.

Lemma calculate_hhi_range (locs : list Location) (ft : option string) :
  0 <= calculate_hhi locs ft <= 1.
Proof.
  destruct (filter_by_type locs ft) as [|x fl] eqn:E.
  - rewrite calculate_hhi_unfold, E. lra.
  - rewrite calculate_hhi_nonempty by (rewrite E; congruence).
    apply index_bounds. apply map_country_nonempty. rewrite E. congruence.
Qed.

(** ** Concentration level *)

(** Decides every [>=] test of a threshold chain and closes the branch. *)
Ltac threshold_chain :=
  repeat match goal with
         | |- context [Py.ge ?x ?t] =>
             let E := fresh "E" in
             destruct (Py.ge x t) eqn:E;
             [apply ge_true_iff in E | apply ge_false_iff in E]
         end;
  try reflexivity; exfalso; lra.

Lemma concentration_level_cases (h : Q) :
  (0.7 <= h -> concentration_level h = conc_very_high)
  /\ (0.5 <= h -> h < 0.7 -> concentration_level h = conc_high)
  /\ (0.3 <= h -> h < 0.5 -> concentration_level h = conc_moderate)
  /\ (h < 0.3 -> concentration_level h = conc_low).
Proof.
  unfold concentration_level. repeat split; intros; threshold_chain.
Qed.

(** C7. In the geographic assessment the concentration level is decided on
    the overall index (the index of the unfiltered list) by the fixed
    thresholds 0.7, 0.5 and 0.3. *)
Theorem concentration_risk_thresholds (locations : list Location) :
  let overall := calculate_hhi locations None in
  let level := geo_concentration_risk (assess_geographic_risk locations) in
  (0.7 <= overall -> level = conc_very_high)
  /\ (0.5 <= overall -> overall < 0.7 -> level = conc_high)
  /\ (0.3 <= overall -> overall < 0.5 -> level = conc_moderate)
  /\ (overall < 0.3 -> level = conc_low).
Proof.
  intros overall level.
  assert (H : level = concentration_level overall)
    by (destruct locations; reflexivity).
  rewrite H. apply concentration_level_cases.
Qed.

(** Witness of C7: two sites in China and one in Australia are "high". *)
Lemma concentration_risk_thresholds_witness :
  let locations :=
    [mkLocation (Some "manufacturing") None (Some "China");
     mkLocation (Some "manufacturing") None (Some "China");
     mkLocation (Some "manufacturing") None (Some "Australia")] in
  geo_concentration_risk (assess_geographic_risk locations) = conc_high.
Proof.
  intro locations.
  refine (proj1 (proj2 (concentration_risk_thresholds locations)) _ _);
    vm_compute; congruence.
Defined.

(** ** Segment adjustment *)

Lemma adjusted_segment_hhi_max (base overlap : Q) :
  adjusted_segment_hhi base overlap == Qmax (base * (1 - 0.5 * overlap)) 0.
Proof. unfold adjusted_segment_hhi, k. apply py_max_spec. Qed.

Lemma adjusted_antitone (base o1 o2 : Q) :
  0 <= base -> o1 <= o2 ->
  adjusted_segment_hhi base o2 <= adjusted_segment_hhi base o1.
Proof.
  intros Hb Ho. rewrite !adjusted_segment_hhi_max.
  apply Q.max_le_compat_r. nra.
Qed.

Lemma adjusted_range (base overlap : Q) :
  0 <= base -> 0 <= overlap ->
  0 <= adjusted_segment_hhi base overlap <= base.
Proof.
  intros Hb Ho. rewrite adjusted_segment_hhi_max. split.
  - apply Q.le_max_r.
  - apply Q.max_lub; [nra | exact Hb].
Qed.

Lemma overlap_ratio_range (source target : list string) :
  0 <= overlap_ratio source target <= 1.
Proof.
  unfold overlap_ratio. destruct source as [|s source]; [lra|].
  set (src := s :: source).
  set (hits := List.length (filter _ src)).
  assert (Hlen : (0 < List.length src)%nat) by (simpl; lia).
  assert (Hmax : Nat.max (List.length src) 1 = List.length src) by lia.
  rewrite Hmax.
  assert (Hhits : (hits <= List.length src)%nat) by apply filter_length_le.
  apply of_nat_le in Hhits. apply of_nat_pos in Hlen.
  pose proof (of_nat_nonneg hits).
  split.
  - apply Qle_shift_div_l; [exact Hlen | lra].
  - apply Qle_shift_div_r; [exact Hlen | lra].
Qed.

(** C9. For a fixed non-negative base, a larger overlap ratio never gives a
    larger adjusted value; for base and overlap in [0,1] the adjusted value
    lies between 0 and the base; and both hold of the two segment pairs that
    the geographic assessment computes. *)
Theorem adjusted_segment_hhi_monotone_bounded :
  (forall base o1 o2 : Q,
      0 <= base -> o1 <= o2 ->
      adjusted_segment_hhi base o2 <= adjusted_segment_hhi base o1)
  /\ (forall base overlap : Q,
         0 <= base <= 1 -> 0 <= overlap <= 1 ->
         0 <= adjusted_segment_hhi base overlap <= base)
  /\ (forall locations : list Location,
         let v := geo_locals locations in
         0 <= adj_seg_m2m v <= base_seg_m2m v
         /\ 0 <= adj_seg_manu_to_store v <= base_seg_manu_to_store v).
Proof.
  split; [exact adjusted_antitone|]. split.
  - intros base overlap [Hb _] [Ho _]. apply adjusted_range; assumption.
  - intros locations v. unfold v, geo_locals. simpl.
    pose proof (calculate_hhi_range locations (Some "manufacturing")).
    pose proof (calculate_hhi_range locations (Some "raw_material")).
    pose proof (calculate_hhi_range locations (Some "supplier")).
    split; apply adjusted_range;
      try apply overlap_ratio_range;
      (apply Qle_shift_div_l; [reflexivity | lra]).
Qed.

(** Witness of C9 at base 0.8 with overlaps 0.25 and 0.75. *)
Lemma adjusted_segment_hhi_monotone_bounded_witness :
  adjusted_segment_hhi 0.8 0.75 <= adjusted_segment_hhi 0.8 0.25
  /\ 0 <= adjusted_segment_hhi 0.8 0.75 <= 0.8.
Proof.
  split.
  - apply (proj1 adjusted_segment_hhi_monotone_bounded); vm_compute; congruence.
  - apply (proj1 (proj2 adjusted_segment_hhi_monotone_bounded));
      split; vm_compute; congruence.
Defined.

(** ** Overlap ratio and segment pairs *)

Lemma in_set_filter_truthy (c : string) (target : list string) :
  in_set c (filter truthy target) = truthy c && in_set c target.
Proof.
  destruct (in_set c (filter truthy target)) eqn:E.
  - apply in_set_iff in E. apply filter_In in E. destruct E as [Hin Ht].
    rewrite Ht. symmetry. apply in_set_iff in Hin. rewrite Hin. reflexivity.
  - destruct (truthy c) eqn:Ht; [|reflexivity].
    destruct (in_set c target) eqn:Hin; [|reflexivity].
    apply in_set_iff in Hin.
    assert (H : In c (filter truthy target)) by (apply filter_In; auto).
    apply in_set_iff in H. congruence.
Qed.

Lemma overlap_ratio_guarded (source target : list string) :
  overlap_ratio source target = guarded_overlap_ratio source target.
Proof.
  unfold overlap_ratio, guarded_overlap_ratio.
  destruct source as [|s source]; [reflexivity|].
  replace (Nat.max (List.length (s :: source)) 1) with (List.length (s :: source))
    by (simpl; lia).
  rewrite (filter_ext (fun c => in_set c (filter truthy target))
                      (fun c => truthy c && in_set c target)
                      (fun c => in_set_filter_truthy c target)).
  reflexivity.
Qed.

(** When no target country is the empty string the guard is void. *)
Lemma overlap_ratio_named_countries (source target : list string) :
  Forall (fun c => c <> "") target ->
  overlap_ratio source target = spec_overlap_ratio source target.
Proof.
  intro Hnamed. rewrite overlap_ratio_guarded.
  unfold guarded_overlap_ratio, spec_overlap_ratio.
  destruct source as [|s source]; [reflexivity|].
  assert (Hext : forall c, truthy c && in_set c target = in_set c target).
  { intro c. destruct (in_set c target) eqn:Hin; [|apply andb_false_r].
    rewrite andb_true_r. apply in_set_iff in Hin.
    rewrite Forall_forall in Hnamed. specialize (Hnamed c Hin).
    unfold truthy. apply String.eqb_neq in Hnamed. rewrite Hnamed. reflexivity. }
  rewrite (filter_ext _ _ Hext). reflexivity.
Qed.

(** C4, as the code has it.  For each of the two segment pairs the overlap
    ratio is the fraction of the source segment's locations whose country is
    a non-empty name occurring among the target segment's countries (0 for
    an empty source segment); the base is the mean of the two segment
    indices; the adjusted value is base * (1 - 0.5 * overlap) clamped below
    at 0; and the returned record carries the three values rounded to three
    decimals. *)
Theorem segment_pair_risk (locations : list Location) :
  let v := geo_locals locations in
  let materials := countries_of_type "raw_material" locations in
  let manufacturing := countries_of_type "manufacturing" locations in
  let storage := countries_of_type "supplier" locations in
  overlap_m2m v = guarded_overlap_ratio materials manufacturing
  /\ overlap_manu_to_store v = guarded_overlap_ratio manufacturing storage
  /\ base_seg_m2m v
     == (calculate_hhi locations (Some "raw_material")
         + calculate_hhi locations (Some "manufacturing")) / 2
  /\ base_seg_manu_to_store v
     == (calculate_hhi locations (Some "manufacturing")
         + calculate_hhi locations (Some "supplier")) / 2
  /\ adj_seg_m2m v == Qmax (base_seg_m2m v * (1 - 0.5 * overlap_m2m v)) 0
  /\ adj_seg_manu_to_store v
     == Qmax (base_seg_manu_to_store v * (1 - 0.5 * overlap_manu_to_store v)) 0
  /\ (locations <> [] ->
      geo_hhi_by_segment (assess_geographic_risk locations)
      = Some (mkHhiBySegment
                (mkSegmentHhi (Py.round3 (base_seg_m2m v))
                              (Py.round3 (adj_seg_m2m v))
                              (Py.round3 (overlap_m2m v)))
                (mkSegmentHhi (Py.round3 (base_seg_manu_to_store v))
                              (Py.round3 (adj_seg_manu_to_store v))
                              (Py.round3 (overlap_manu_to_store v))))).
Proof.
  intros v materials manufacturing storage.
  unfold v, geo_locals. cbn [overlap_m2m overlap_manu_to_store base_seg_m2m
    base_seg_manu_to_store adj_seg_m2m adj_seg_manu_to_store].
  repeat split; try apply overlap_ratio_guarded; try reflexivity;
    try apply adjusted_segment_hhi_max.
  intro Hne. destruct locations; [congruence | reflexivity].
Qed.

(** Witness of C4 on a material source and a factory in one country. *)
Lemma segment_pair_risk_witness :
  let locations :=
    [mkLocation (Some "raw_material") None (Some "Brazil");
     mkLocation (Some "manufacturing") None (Some "Brazil")] in
  geo_hhi_by_segment (assess_geographic_risk locations)
  = Some (mkHhiBySegment
            (mkSegmentHhi (Py.round3 (base_seg_m2m (geo_locals locations)))
                          (Py.round3 (adj_seg_m2m (geo_locals locations)))
                          (Py.round3 (overlap_m2m (geo_locals locations))))
            (mkSegmentHhi
               (Py.round3 (base_seg_manu_to_store (geo_locals locations)))
               (Py.round3 (adj_seg_manu_to_store (geo_locals locations)))
               (Py.round3 (overlap_manu_to_store (geo_locals locations))))).
Proof.
  intro locations.
  refine (proj2 (proj2 (proj2 (proj2 (proj2 (proj2
            (segment_pair_risk locations)))))) _).
  intro E. discriminate E.
Defined.

(** C4 as stated fails: a material source and a factory whose country is the
    empty string overlap by the stated fraction (1) but not in the code (0),
    so the adjusted value is the full base (1) and not half of it.  And of
    three material sources in three countries, one of which also hosts the
    factory, the overlap is 1/3 and the record carries 0.333. *)
Lemma segment_pair_risk_counterexample :
  let unnamed :=
    [mkLocation (Some "raw_material") None (Some "");
     mkLocation (Some "manufacturing") None (Some "")] in
  let v := geo_locals unnamed in
  let spread :=
    [mkLocation (Some "raw_material") None (Some "Chile");
     mkLocation (Some "raw_material") None (Some "Peru");
     mkLocation (Some "raw_material") None (Some "China");
     mkLocation (Some "manufacturing") None (Some "China")] in
  spec_overlap_ratio (countries_of_type "raw_material" unnamed)
                     (countries_of_type "manufacturing" unnamed) == 1
  /\ overlap_m2m v == 0
  /\ ~ overlap_m2m v
       == spec_overlap_ratio (countries_of_type "raw_material" unnamed)
                             (countries_of_type "manufacturing" unnamed)
  /\ base_seg_m2m v == 1
  /\ adj_seg_m2m v == 1
  /\ ~ adj_seg_m2m v == base_seg_m2m v * (1 - 0.5 * 1)
  /\ spec_overlap_ratio (countries_of_type "raw_material" spread)
                        (countries_of_type "manufacturing" spread) == 1 # 3
  /\ option_map (fun s => seg_overlap_ratio (materials_to_manufacturing s))
                (geo_hhi_by_segment (assess_geographic_risk spread))
     = Some 0.333.
Proof.
  vm_compute. repeat split; try reflexivity; intro H; discriminate H.
Qed.

(** ** Rounding *)

Lemma round_half_even_proper (x y : Q) :
  x == y -> Py.round_half_even x = Py.round_half_even y.
Proof.
  intro H. unfold Py.round_half_even.
  rewrite (Qfloor_comp x y H).
  assert (Hc : Qcompare (x - inject_Z (Qfloor y)) (1 # 2)
               = Qcompare (y - inject_Z (Qfloor y)) (1 # 2)).
  { apply Qcompare_comp; [rewrite H; reflexivity | reflexivity]. }
  rewrite Hc. reflexivity.
Qed.

Lemma round3_proper (x y : Q) : x == y -> Py.round3 x = Py.round3 y.
Proof.
  intro H. unfold Py.round3. f_equal.
  apply round_half_even_proper. rewrite H. reflexivity.
Qed.

(** ** Exposure assessors *)


Lemma exposure_step_eq (table : list (string * Q)) (t : Q)
      (hs : list HighRiskLocation) (l : Location) :
  exposure_step table (t, hs) l
  = if Qle_bool 0.7 (table_score table l)
    then (t + table_score table l, hs ++ [annotate table l])
    else (t + table_score table l, hs).
Proof. reflexivity. Qed.

Lemma exposure_fold (table : list (string * Q)) (locs : list Location)
      (t : Q) (hs : list HighRiskLocation) :
  fold_left (exposure_step table) locs (t, hs)
  = (fold_left (fun a l => a + table_score table l) locs t,
     hs ++ map (annotate table)
              (filter (fun l => Qle_bool 0.7 (table_score table l)) locs)).
Proof.
  revert t hs. induction locs as [|l locs IH]; intros t hs.
  - simpl. rewrite app_nil_r. reflexivity.
  - cbn [fold_left filter]. rewrite exposure_step_eq.
    destruct (Qle_bool 0.7 (table_score table l)); rewrite IH.
    + cbn [map]. rewrite <- app_assoc. reflexivity.
    + reflexivity.
Qed.


Lemma assess_exposure_nonempty (table : list (string * Q))
      (locs : list Location) :
  locs <> [] ->
  let average :=
    fold_left (fun a x => a + table_score table x) locs 0
    / Py.of_nat (List.length locs) in
  assess_exposure table locs
  = mkExposureRisk
      (Py.round3 average)
      (map (annotate table)
           (filter (fun x => Qle_bool 0.7 (table_score table x)) locs))
      (Some (exposure_level average)).
Proof.
  intro Hne. destruct locs as [|l locs]; [congruence|].
  unfold assess_exposure. rewrite exposure_fold. reflexivity.
Qed.






(** ** Lead-time batch *)

Lemma lead_time_fold (ps : list Product) (items : list LeadTimeItem)
      (t : Q) (count : nat) :
  fold_left lead_time_step ps (items, t, count)
  = (items ++ map lead_time_item ps,
     fold_left (fun a p => a + product_risk p) ps t,
     (count + List.length ps)%nat).
Proof.
  revert items t count.
  induction ps as [|p ps IH]; intros items t count.
  - simpl. rewrite app_nil_r, Nat.add_0_r. reflexivity.
  - cbn [fold_left]. unfold lead_time_step at 2.
    fold (product_risk p). fold (lead_time_item p).
    rewrite IH. cbn [map List.length]. rewrite <- app_assoc.
    f_equal. lia.
Qed.

Lemma assess_lead_time_nonempty (ps : list Product) :
  ps <> [] ->
  _assess_lead_time_risk ps
  = mkLeadTimeRisk (Py.round3 (mean (map product_risk ps)))
                   (map lead_time_item ps).
Proof.
  intro Hne. destruct ps as [|p ps]; [congruence|].
  unfold _assess_lead_time_risk. rewrite lead_time_fold.
  cbn [Nat.add List.length Nat.eqb app]. f_equal.
  apply round3_proper. unfold mean.
  rewrite fold_left_plus_qsum, length_map, Qplus_0_l. reflexivity.
Qed.

(** C8. On an empty location list the full assessment short-circuits to
    level "unknown", score 0, empty sub-assessments and the single
    recommendation that no locations are available, whatever the products;
    and on an empty product list the lead-time batch has average risk 0 and
    no items. *)
Theorem empty_inputs_short_circuit :
  (forall products : option (list Product),
      let a := assess_supply_chain_risk [] products in
      overall_risk a = lvl_unknown
      /\ risk_score a = 0
      /\ geographic_risk a = None
      /\ climate_risk a = None
      /\ geopolitical_risk a = None
      /\ concentration_risk a = None
      /\ recommendations a = ["No locations available for risk assessment"])
  /\ lt_average_risk (_assess_lead_time_risk []) = 0
  /\ lt_items (_assess_lead_time_risk []) = [].
Proof.
  split; [intro products; simpl|]; repeat split.
Qed.

(** ** Three-decimal fields *)

Lemma round_half_even_integer (z : Z) : Py.round_half_even (inject_Z z) = z.
Proof.
  unfold Py.round_half_even. rewrite Qfloor_Z.
  assert (H : Qcompare (inject_Z z - inject_Z z) (1 # 2) = Lt).
  { assert (E : inject_Z z - inject_Z z == 0) by ring.
    rewrite (Qcompare_comp _ _ E (1 # 2) (1 # 2) (Qeq_refl _)). reflexivity. }
  rewrite H. reflexivity.
Qed.

Lemma round3_thousandths (z : Z) : Py.round3 (z # 1000) = z # 1000.
Proof.
  unfold Py.round3. f_equal.
  rewrite <- (round_half_even_integer z) at 2.
  apply round_half_even_proper.
  unfold Qeq. simpl. lia.
Qed.











(** ** Composite score *)

Lemma overall_score_clamp (g : GeographicRisk) (lt : LeadTimeRisk) :
  _calculate_overall_risk_score_with_lead_time g lt
  == clamp01 (0.7 * geo_hhi g + 0.3 * lt_average_risk lt).
Proof.
  unfold _calculate_overall_risk_score_with_lead_time, clamp01.
  rewrite py_min_spec.
  apply Q.min_compat; [apply py_max_spec | reflexivity].
Qed.

Lemma clamp01_range (x : Q) : 0 <= clamp01 x <= 1.
Proof.
  unfold clamp01. split.
  - apply Q.min_glb; [apply Q.le_max_r | lra].
  - apply Q.le_min_r.
Qed.


(** The returned dict on a non-empty input, field by field. *)
Lemma assess_supply_chain_risk_nonempty (locations : list Location)
      (products : option (list Product)) :
  locations <> [] ->
  let g := assess_geographic_risk locations in
  let lt := _assess_lead_time_risk (products_or_empty products) in
  let s := _calculate_overall_risk_score_with_lead_time g lt in
  assess_supply_chain_risk locations products
  = mkAssessment
      (overall_level s) (Py.round3 s)
      (Some g)
      (Some (_assess_climate_risk locations))
      (Some (_assess_geopolitical_risk locations))
      (Some lt)
      (Some (mkConcentrationSummary (geo_hhi g) (geo_concentration_risk g)
                                    (geo_countries g)
                                    (geo_country_distribution g)))
      (_generate_recommendations g (_assess_climate_risk locations)
                                 (_assess_geopolitical_risk locations)).
Proof.
  intro Hne. destruct locations as [|l locs]; [congruence | reflexivity].
Qed.

Lemma geo_hhi_nonempty (locations : list Location) :
  locations <> [] ->
  geo_hhi (assess_geographic_risk locations)
  = Py.round3 (calculate_hhi locations None).
Proof.
  intro Hne. destruct locations as [|l locs]; [congruence | reflexivity].
Qed.






(** ** Text normalisation *)

Lemma is_space_lower_char (c : ascii) :
  Text.is_space (Text.lower_char c) = Text.is_space c.
Proof.
  destruct c as [[|] [|] [|] [|] [|] [|] [|] [|]]; reflexivity.
Qed.

Lemma lower_char_idempotent (c : ascii) :
  Text.lower_char (Text.lower_char c) = Text.lower_char c.
Proof.
  destruct c as [[|] [|] [|] [|] [|] [|] [|] [|]]; reflexivity.
Qed.

Lemma lower_idempotent (s : string) : Text.lower (Text.lower s) = Text.lower s.
Proof.
  induction s as [|c s IH]; simpl; [reflexivity|].
  rewrite lower_char_idempotent, IH. reflexivity.
Qed.

Lemma lstrip_lower (s : string) :
  Text.lstrip (Text.lower s) = Text.lower (Text.lstrip s).
Proof.
  induction s as [|c s IH]; simpl; [reflexivity|].
  rewrite is_space_lower_char.
  destruct (Text.is_space c); [exact IH | reflexivity].
Qed.

Lemma rstrip_lower (s : string) :
  Text.rstrip (Text.lower s) = Text.lower (Text.rstrip s).
Proof.
  induction s as [|c s IH]; simpl; [reflexivity|].
  rewrite IH, is_space_lower_char.
  destruct (Text.rstrip s); simpl; [destruct (Text.is_space c)|]; reflexivity.
Qed.

Lemma strip_lower (s : string) :
  Text.strip (Text.lower s) = Text.lower (Text.strip s).
Proof.
  unfold Text.strip. rewrite lstrip_lower, rstrip_lower. reflexivity.
Qed.

Lemma rstrip_idempotent (s : string) : Text.rstrip (Text.rstrip s) = Text.rstrip s.
Proof.
  induction s as [|c s IH]; simpl; [reflexivity|].
  destruct (Text.rstrip s) as [|d u] eqn:E.
  - destruct (Text.is_space c) eqn:Ec; simpl; [reflexivity|].
    rewrite Ec. reflexivity.
  - change (Text.rstrip (String c (String d u)))
      with (match Text.rstrip (String d u) with
            | EmptyString =>
                if Text.is_space c then EmptyString else String c EmptyString
            | r' => String c r'
            end).
    rewrite IH. reflexivity.
Qed.

Lemma rstrip_keeps_head (c : ascii) (s : string) :
  Text.is_space c = false ->
  Text.rstrip (String c s) = String c (Text.rstrip s).
Proof.
  intro Hc. simpl. rewrite Hc. destruct (Text.rstrip s); reflexivity.
Qed.

Lemma lstrip_head (s : string) :
  Text.lstrip s = EmptyString
  \/ exists c r, Text.lstrip s = String c r /\ Text.is_space c = false.
Proof.
  induction s as [|c s IH]; simpl; [left; reflexivity|].
  destruct (Text.is_space c) eqn:Ec; [exact IH|].
  right. exists c, s. split; [reflexivity | exact Ec].
Qed.

Lemma strip_idempotent (s : string) : Text.strip (Text.strip s) = Text.strip s.
Proof.
  unfold Text.strip.
  destruct (lstrip_head s) as [E | [c [r [E Hc]]]]; rewrite E.
  - reflexivity.
  - rewrite (rstrip_keeps_head c r Hc). simpl Text.lstrip. rewrite Hc.
    rewrite <- (rstrip_keeps_head c r Hc). apply rstrip_idempotent.
Qed.

(** Normalising a normalised text changes nothing. *)
Lemma normalise_idempotent (s : string) :
  Text.lower (Text.strip (Text.lower (Text.strip s)))
  = Text.lower (Text.strip s).
Proof.
  rewrite strip_lower, lower_idempotent, strip_idempotent. reflexivity.
Qed.

(** ** Lead-time classifier *)

Lemma float_of_decimal_nonneg (s : string) : 0 <= Text.float_of_decimal s.
Proof.
  unfold Text.float_of_decimal. destruct (Text.split_dot s) as [a b].
  pose proof (of_nat_nonneg (Text.int_of_digits a)) as Ha.
  pose proof (of_nat_nonneg (Text.int_of_digits b)) as Hb.
  assert (Hp : 0 < Py.of_nat (10 ^ String.length b)).
  { apply of_nat_pos. apply Nat.neq_0_lt_0. apply Nat.pow_nonzero. lia. }
  assert (Hq : 0 <= Py.of_nat (Text.int_of_digits b)
                    / Py.of_nat (10 ^ String.length b)).
  { apply Qle_shift_div_l; [exact Hp | lra]. }
  lra.
Qed.

Lemma extract_weeks_nonneg (t : string) (w : Q) :
  extract_weeks t = Some w -> 0 <= w.
Proof.
  unfold extract_weeks.
  destruct (Re.search weeks_pattern t) as [m|].
  - intro E. injection E as <-. apply float_of_decimal_nonneg.
  - destruct (Re.search days_pattern t) as [m|]; [|discriminate].
    intro E. injection E as <-.
    pose proof (of_nat_nonneg (Text.int_of_digits (Re.group 1 m))).
    apply Qle_shift_div_l; [reflexivity | lra].
Qed.

(** On a normalised text without the in-stock phrase, [parse_weeks] is the
    extracted week count, or -1 when there is none. *)
Lemma parse_weeks_extract (t : string) :
  Text.lower (Text.strip t) = t ->
  mentions_in_stock_australia t = false ->
  parse_weeks t = match extract_weeks t with Some w => w | None => -1 end.
Proof.
  intros Hn Hm. unfold parse_weeks.
  destruct (String.eqb t "") eqn:E.
  - apply String.eqb_eq in E. subst t. reflexivity.
  - rewrite Hn, Hm. unfold extract_weeks.
    destruct (Re.search weeks_pattern t); [reflexivity|].
    destruct (Re.search days_pattern t); reflexivity.
Qed.

(** The value of [risk_from_text] in terms of the normalised text. *)
Lemma risk_from_text_unfold (text : string) :
  let t := Text.lower (Text.strip text) in
  risk_from_text text
  = if mentions_in_stock_australia t then 0
    else match extract_weeks t with
         | None => 0.5
         | Some weeks =>
             if Qeq_bool weeks 0 then 0
             else if Qle_bool weeks 3 then 0.2
             else if Qle_bool weeks 6 then 0.6
             else if negb (Qle_bool weeks 10) then 0.9
             else Py.min 0.85 (0.6 + (Py.max weeks 6 - 6) * (0.25 / 4))
         end.
Proof.
  intro t. unfold risk_from_text.
  destruct (String.eqb text "") eqn:E.
  - apply String.eqb_eq in E. subst text. reflexivity.
  - fold t. destruct (mentions_in_stock_australia t) eqn:Hm; [reflexivity|].
    rewrite (parse_weeks_extract t (normalise_idempotent text) Hm).
    destruct (extract_weeks t) as [w|] eqn:Ew; [|reflexivity].
    apply extract_weeks_nonneg in Ew. apply Qle_bool_iff in Ew.
    rewrite Ew. reflexivity.
Qed.

Lemma interpolation_value (w : Q) :
  6 < w -> w <= 10 ->
  Py.min 0.85 (0.6 + (Py.max w 6 - 6) * (0.25 / 4))
  == Qmin 0.85 (0.6 + (w - 6) * 0.0625).
Proof.
  intros H6 H10. rewrite py_min_spec.
  apply Q.min_compat; [reflexivity|].
  rewrite py_max_spec, (Q.max_l w 6) by lra.
  field.
Qed.





(** A falsy filter (the empty string) is no filter at all. *)
Remark calculate_hhi_empty_filter (locations : list Location) :
  calculate_hhi locations (Some "") = calculate_hhi locations None.
Proof. rewrite !calculate_hhi_unfold. reflexivity. Qed.

(* ================================================================== *)
(** * Further properties of the engine and of its callers *)

(** ** Rounding: monotone and within half a unit *)

Lemma round_half_even_error (x : Q) :
  x - (1 # 2) <= inject_Z (Py.round_half_even x) <= x + (1 # 2).
Proof.
  unfold Py.round_half_even.
  pose proof (Qfloor_le x) as Hlo. pose proof (Qlt_floor x) as Hhi.
  rewrite inject_Z_plus in Hhi. change (inject_Z 1) with 1 in Hhi.
  destruct (Qcompare (x - inject_Z (Qfloor x)) (1 # 2)) eqn:E.
  - apply Qeq_alt in E.
    destruct (Z.even (Qfloor x)); [|rewrite inject_Z_plus; change (inject_Z 1) with 1];
      lra.
  - apply Qlt_alt in E. lra.
  - apply Qgt_alt in E. rewrite inject_Z_plus. change (inject_Z 1) with 1. lra.
Qed.

Lemma round_half_even_monotone (x y : Q) :
  x <= y -> (Py.round_half_even x <= Py.round_half_even y)%Z.
Proof.
  intro Hxy.
  pose proof (Qfloor_resp_le x y Hxy) as Hf.
  destruct (Z.eq_dec (Qfloor x) (Qfloor y)) as [Heq|Hne].
  - unfold Py.round_half_even. rewrite Heq.
    assert (Hr : x - inject_Z (Qfloor y) <= y - inject_Z (Qfloor y)) by lra.
    destruct (Qcompare (x - inject_Z (Qfloor y)) (1 # 2)) eqn:Ex;
      destruct (Qcompare (y - inject_Z (Qfloor y)) (1 # 2)) eqn:Ey;
      repeat match goal with
             | H : Qcompare _ _ = Eq |- _ => apply Qeq_alt in H
             | H : Qcompare _ _ = Lt |- _ => apply Qlt_alt in H
             | H : Qcompare _ _ = Gt |- _ => apply Qgt_alt in H
             end;
      destruct (Z.even (Qfloor y)); try lia; exfalso; lra.
  - assert (Hlt : (Qfloor x + 1 <= Qfloor y)%Z) by lia.
    assert (Hx : (Py.round_half_even x <= Qfloor x + 1)%Z).
    { unfold Py.round_half_even.
      destruct (Qcompare _ _); [destruct (Z.even _)| |]; lia. }
    assert (Hy : (Qfloor y <= Py.round_half_even y)%Z).
    { unfold Py.round_half_even.
      destruct (Qcompare _ _); [destruct (Z.even _)| |]; lia. }
    lia.
Qed.

Lemma round3_monotone (x y : Q) : x <= y -> Py.round3 x <= Py.round3 y.
Proof.
  intro H. unfold Py.round3, Qle. simpl.
  apply Z.mul_le_mono_nonneg_r; [lia|].
  apply round_half_even_monotone. nra.
Qed.

Lemma round3_error (x : Q) :
  x - (1 # 2000) <= Py.round3 x <= x + (1 # 2000).
Proof.
  pose proof (round_half_even_error (x * 1000)) as H.
  assert (E : Py.round3 x == inject_Z (Py.round_half_even (x * 1000)) / 1000).
  { unfold Py.round3. rewrite Qmake_Qdiv. reflexivity. }
  rewrite E. split.
  - apply Qle_shift_div_l; [reflexivity | lra].
  - apply Qle_shift_div_r; [reflexivity | lra].
Qed.

Lemma round3_unit_interval (x : Q) : 0 <= x <= 1 -> 0 <= Py.round3 x <= 1.
Proof.
  intros [H0 H1]. split.
  - apply (Qle_trans _ (Py.round3 0)); [vm_compute; congruence|].
    apply round3_monotone. exact H0.
  - apply (Qle_trans _ (Py.round3 1)); [apply round3_monotone; exact H1|].
    vm_compute. congruence.
Qed.

(** ** The index against the number of countries *)

Lemma total_sq_le_length_sumsq (vs : list nat) :
  (total vs * total vs <= List.length vs * sumsq vs)%nat.
Proof.
  induction vs as [|v vs IH]; simpl; [lia|].
  set (t := total vs) in *. set (s := sumsq vs) in *.
  set (n := List.length vs) in *.
  assert (Hmix : (2 * v * t <= n * (v * v) + s)%nat).
  { destruct (Nat.eq_dec n 0) as [Hz|Hnz].
    - rewrite Hz in IH. assert (t = 0)%nat by nia. subst t. nia.
    - assert (H1 : (2 * (n * v) * t <= (n * v) * (n * v) + t * t)%nat).
      { destruct (Nat.le_ge_cases (n * v) t) as [Hle|Hle];
          [ assert (exists d, t = (n * v + d)%nat) as [d ->] by (exists (t - n * v)%nat; lia)
          | assert (exists d, (n * v = t + d)%nat) as [d Hd] by (exists (n * v - t)%nat; lia);
            rewrite Hd ]; nia. }
      assert (H2 : (n * (2 * v * t) <= n * (n * (v * v) + s))%nat) by nia.
      apply (Nat.mul_le_mono_pos_l _ _ n); lia. }
  nia.
Qed.

Lemma calculate_hhi_ge_inverse_countries (locs : list Location)
      (ft : option string) :
  filter_by_type locs ft <> [] ->
  1 / Py.of_nat (List.length (count_countries (filter_by_type locs ft)))
  <= calculate_hhi locs ft.
Proof.
  intro Hne.
  rewrite (calculate_hhi_nonempty locs ft Hne), count_countries_counter_of.
  set (cs := map country_of (filter_by_type locs ft)).
  assert (Hcs : cs <> []) by (apply map_country_nonempty; exact Hne).
  destruct (counter_of_inv cs) as [_ _ _ Htot Hpos].
  assert (HN : (0 < List.length cs)%nat)
    by (destruct cs; [congruence | simpl; lia]).
  rewrite (hhi_loop_ratio _ _ HN).
  pose proof (total_sq_le_length_sumsq (map snd (counter_of cs))) as Hcs2.
  rewrite Htot, length_map in Hcs2.
  assert (Hn : (0 < List.length (counter_of cs))%nat).
  { destruct (counter_of cs); [simpl in Htot; lia | simpl; lia]. }
  apply of_nat_le in Hcs2. rewrite !of_nat_mul in Hcs2.
  apply of_nat_pos in HN, Hn.
  set (n := Py.of_nat (List.length (counter_of cs))) in *.
  set (N := Py.of_nat (List.length cs)) in *.
  set (S := Py.of_nat (sumsq (map snd (counter_of cs)))) in *.
  apply Qle_shift_div_l; [nra|].
  assert (E : 1 / n * (N * N) == (N * N) / n) by (field; lra).
  rewrite E. apply Qle_shift_div_r; [exact Hn | lra].
Qed.

(** X1. The concentration index of a non-empty kept list is at least the
    reciprocal of the number of distinct countries in it. *)
Theorem calculate_hhi_at_least_one_over_countries
        (locations : list Location) (location_type : option string) :
  filter_by_type locations location_type <> [] ->
  1 / Py.of_nat
        (List.length
           (nodup string_dec
                  (map country_of (filter_by_type locations location_type))))
  <= calculate_hhi locations location_type.
Proof.
  intro Hne.
  pose proof (calculate_hhi_ge_inverse_countries _ _ Hne) as H.
  rewrite count_countries_counter_of in H.
  rewrite <- (length_map fst) in H.
  rewrite (Permutation_length (counter_keys_perm _)) in H. exact H.
Qed.

Lemma calculate_hhi_at_least_one_over_countries_witness :
  let locations :=
    [mkLocation (Some "supplier") None (Some "Japan");
     mkLocation (Some "supplier") None (Some "Japan");
     mkLocation (Some "supplier") None (Some "Chile");
     mkLocation (Some "manufacturing") None (Some "Peru")] in
  1 / Py.of_nat
        (List.length
           (nodup string_dec
                  (map country_of (filter_by_type locations (Some "supplier")))))
  <= calculate_hhi locations (Some "supplier").
Proof.
  intro locations.
  apply (calculate_hhi_at_least_one_over_countries locations (Some "supplier")).
  vm_compute. intro E. discriminate E.
Defined.

(** ** Counts of the geographic record *)

Lemma count_in_country_locations (c : string) (locs : list Location) :
  count_in_country c (map country_of locs)
  = List.length (filter (fun l => String.eqb (country_of l) c) locs).
Proof.
  unfold count_in_country.
  induction locs as [|l locs IH]; simpl; [reflexivity|].
  destruct (string_dec (country_of l) c) as [E|E].
  - rewrite E, String.eqb_refl. simpl. rewrite IH. reflexivity.
  - apply String.eqb_neq in E. rewrite E. exact IH.
Qed.

(** X2. In the geographic record the location count is the length of the
    input, the country count is the number of entries of the country
    distribution, the distribution lists each country once with the number
    of locations in it (at least 1), its counts add up to the location
    count, and a non-empty input has between 1 and [total_locations]
    countries. *)
Theorem geographic_counts_consistent (locations : list Location) :
  let g := assess_geographic_risk locations in
  geo_total_locations g = List.length locations
  /\ geo_countries g = List.length (geo_country_distribution g)
  /\ NoDup (map fst (geo_country_distribution g))
  /\ (forall c n, In (c, n) (geo_country_distribution g) ->
        (1 <= n)%nat
        /\ n = List.length
                 (filter (fun l => String.eqb (country_of l) c) locations))
  /\ (forall l, In l locations ->
        In (country_of l) (map fst (geo_country_distribution g)))
  /\ total (map snd (geo_country_distribution g)) = geo_total_locations g
  /\ (locations <> [] ->
      (1 <= geo_countries g <= geo_total_locations g)%nat).
Proof.
  intro g.
  assert (Hg : geo_total_locations g = List.length locations
               /\ geo_countries g = List.length (count_countries locations)
               /\ geo_country_distribution g = count_countries locations).
  { unfold g. destruct locations as [|l locs]; [repeat split|].
    unfold assess_geographic_risk, country_set.
    cbn [geo_total_locations geo_countries geo_country_distribution].
    rewrite length_map. repeat split. }
  destruct Hg as [Ht [Hc Hd]]. rewrite Ht, Hc, Hd.
  rewrite count_countries_counter_of.
  destruct (counter_of_inv (map country_of locations))
    as [Hnd Hget Hkeys Htot Hpos].
  rewrite length_map in Htot.
  split; [reflexivity|]. split; [reflexivity|]. split; [exact Hnd|].
  split; [|split; [|split]].
  - intros c n Hin. split.
    + rewrite Forall_forall in Hpos. apply Hpos.
      apply (in_map snd) in Hin. exact Hin.
    + rewrite <- count_in_country_locations, <- Hget.
      assert (Hv := counter_values_by_key _ Hnd).
      clear - Hin Hnd. induction (counter_of (map country_of locations))
        as [|[a m] cnt IH]; [destruct Hin|].
      simpl in Hnd. inversion Hnd as [|? ? Hnotin Hnd']; subst.
      simpl. destruct Hin as [E|Hin].
      * injection E as -> ->. rewrite String.eqb_refl. reflexivity.
      * destruct (String.eqb a c) eqn:Eac; [|apply IH; assumption].
        apply String.eqb_eq in Eac. subst a. exfalso. apply Hnotin.
        apply (in_map fst) in Hin. exact Hin.
  - intros l Hl. apply Hkeys. apply in_map. exact Hl.
  - exact Htot.
  - intro Hne.
    assert (Hlen : (0 < List.length locations)%nat)
      by (destruct locations; [congruence | simpl; lia]).
    split.
    + destruct (counter_of (map country_of locations)); simpl in *; lia.
    + rewrite <- Htot, <- (length_map snd).
      clear - Hpos. induction Hpos; simpl; lia.
Qed.

Lemma geographic_counts_consistent_witness :
  let locations :=
    [mkLocation (Some "supplier") None (Some "Japan");
     mkLocation (Some "raw_material") None None;
     mkLocation (Some "supplier") None (Some "Japan")] in
  (1 <= geo_countries (assess_geographic_risk locations)
   <= geo_total_locations (assess_geographic_risk locations))%nat.
Proof.
  intro locations.
  refine (proj2 (proj2 (proj2 (proj2 (proj2 (proj2
            (geographic_counts_consistent locations)))))) _).
  intro E. discriminate E.
Defined.

Lemma geo_countries_count (locations : list Location) :
  locations <> [] ->
  geo_countries (assess_geographic_risk locations)
  = List.length (count_countries (filter_by_type locations None))
  /\ geo_concentration_risk (assess_geographic_risk locations)
     = concentration_level (calculate_hhi locations None).
Proof.
  intro Hne. destruct locations as [|l locs]; [congruence|].
  unfold assess_geographic_risk, country_set.
  cbn [geo_countries geo_concentration_risk filter_by_type].
  rewrite length_map. split; reflexivity.
Qed.

Lemma inverse_of_small_count (n : nat) (b : nat) :
  (0 < n)%nat -> (n <= b)%nat -> 1 / Py.of_nat b <= 1 / Py.of_nat n.
Proof.
  intros Hn Hb.
  pose proof (of_nat_pos n Hn) as Hpn.
  assert (Hpb : 0 < Py.of_nat b) by (apply of_nat_pos; lia).
  apply of_nat_le in Hb.
  apply Qle_shift_div_l; [exact Hpn|].
  assert (E : 1 / Py.of_nat b * Py.of_nat n == Py.of_nat n / Py.of_nat b)
    by (field; lra).
  rewrite E. apply Qle_shift_div_r; [exact Hpb | lra].
Qed.

(** With few countries the overall index is large. *)
Lemma few_countries_bound (locations : list Location) :
  locations <> [] ->
  let n := geo_countries (assess_geographic_risk locations) in
  let h := calculate_hhi locations None in
  ((0 < n)%nat /\ 1 / Py.of_nat n <= h)
  /\ ((n <= 2)%nat -> 0.5 <= h).
Proof.
  intros Hne n h.
  destruct (geo_countries_count locations Hne) as [Hc _]. fold n in Hc.
  assert (Hk : filter_by_type locations None <> []) by exact Hne.
  pose proof (calculate_hhi_ge_inverse_countries locations None Hk) as Hlow.
  rewrite <- Hc in Hlow. fold h in Hlow.
  assert (Hpos : (0 < n)%nat).
  { rewrite Hc. destruct locations as [|l locs]; [congruence|].
    simpl filter_by_type. rewrite count_countries_counter_of.
    destruct (counter_of_inv (map country_of (l :: locs))) as [_ _ _ Htot _].
    destruct (counter_of (map country_of (l :: locs)));
      [simpl in Htot; lia | simpl; lia]. }
  split; [split; assumption|].
  intro E. apply (Qle_trans _ (1 / Py.of_nat n)); [|exact Hlow].
  apply (Qle_trans _ (1 / Py.of_nat 2)); [vm_compute; congruence|].
  apply (inverse_of_small_count n 2 Hpos E).
Qed.

(** Decides the tests of a threshold chain in front of an impossible
    conclusion about its value. *)
Ltac threshold_chain_in :=
  repeat match goal with
         | |- context [Py.ge ?x ?t] =>
             let E := fresh "E" in
             destruct (Py.ge x t) eqn:E;
             [apply ge_true_iff in E | apply ge_false_iff in E]
         end;
  intro; try discriminate; exfalso; lra.

(** X3. For a non-empty input, few countries force a high concentration
    level: with one country the level is very_high, with at most two it is
    high or very_high; a moderate level needs at least three countries and a
    low level at least four. *)
Theorem few_countries_force_concentration (locations : list Location) :
  locations <> [] ->
  let g := assess_geographic_risk locations in
  (geo_countries g = 1%nat -> geo_concentration_risk g = conc_very_high)
  /\ ((geo_countries g <= 2)%nat ->
      geo_concentration_risk g = conc_high
      \/ geo_concentration_risk g = conc_very_high)
  /\ (geo_concentration_risk g = conc_moderate -> (3 <= geo_countries g)%nat)
  /\ (geo_concentration_risk g = conc_low -> (4 <= geo_countries g)%nat).
Proof.
  intros Hne g.
  destruct (geo_countries_count locations Hne) as [Hc Hl].
  fold g in Hc, Hl.
  assert (Hk : filter_by_type locations None <> []) by exact Hne.
  pose proof (calculate_hhi_ge_inverse_countries locations None Hk) as Hlow.
  rewrite <- Hc in Hlow.
  assert (Hpos : (0 < geo_countries g)%nat).
  { rewrite Hc. destruct locations as [|l locs]; [congruence|].
    simpl filter_by_type. rewrite count_countries_counter_of.
    destruct (counter_of_inv (map country_of (l :: locs))) as [_ _ _ Htot _].
    destruct (counter_of (map country_of (l :: locs)));
      [simpl in Htot; lia | simpl; lia]. }
  set (h := calculate_hhi locations None) in *.
  set (n := geo_countries g) in *.
  rewrite Hl. unfold concentration_level.
  assert (B1 : n = 1%nat -> 1 <= h).
  { intro E. rewrite E in Hlow. exact Hlow. }
  assert (B2 : (n <= 2)%nat -> 1 # 2 <= h).
  { intro E. apply (Qle_trans _ (1 / Py.of_nat n)); [|exact Hlow].
    apply (inverse_of_small_count n 2 Hpos E). }
  assert (B3 : (n <= 3)%nat -> 1 # 3 <= h).
  { intro E. apply (Qle_trans _ (1 / Py.of_nat n)); [|exact Hlow].
    apply (inverse_of_small_count n 3 Hpos E). }
  repeat split.
  - intro E. specialize (B1 E). threshold_chain.
  - intro E. specialize (B2 E).
    destruct (Py.ge h 0.7) eqn:E7; [right; reflexivity|].
    destruct (Py.ge h 0.5) eqn:E5; [left; reflexivity|].
    apply ge_false_iff in E5. exfalso. lra.
  - intro E. destruct (Nat.le_gt_cases 3 n) as [H3|H3]; [exact H3|].
    assert (H2 : (n <= 2)%nat) by lia. specialize (B2 H2).
    revert E. threshold_chain_in.
  - intro E. destruct (Nat.le_gt_cases 4 n) as [H4|H4]; [exact H4|].
    assert (H3 : (n <= 3)%nat) by lia. specialize (B3 H3).
    revert E. threshold_chain_in.
Qed.

Lemma few_countries_force_concentration_witness :
  let locations :=
    [mkLocation (Some "manufacturing") None (Some "Vietnam");
     mkLocation (Some "supplier") None (Some "Australia")] in
  geo_concentration_risk (assess_geographic_risk locations) = conc_high
  \/ geo_concentration_risk (assess_geographic_risk locations) = conc_very_high.
Proof.
  intro locations.
  assert (Hne : locations <> []) by (intro E; discriminate E).
  apply (proj1 (proj2 (few_countries_force_concentration locations Hne))).
  vm_compute. lia.
Defined.

(** ** Risk factors and flagged countries *)

Lemma collect_high_risk_countries_filter (countries : list string) :
  collect_high_risk_countries countries
  = map high_risk_record (filter is_high_risk_country countries).
Proof.
  unfold collect_high_risk_countries.
  assert (G : forall acc,
             fold_left high_risk_country_step countries acc
             = acc ++ map high_risk_record
                          (filter is_high_risk_country countries)).
  { induction countries as [|c cs IH]; intro acc.
    - simpl. rewrite app_nil_r. reflexivity.
    - cbn [fold_left filter]. rewrite IH.
      unfold high_risk_country_step. fold (is_high_risk_country c).
      destruct (is_high_risk_country c).
      + fold (high_risk_record c). cbn [map]. rewrite <- app_assoc. reflexivity.
      + reflexivity. }
  apply (G []).
Qed.

Lemma geographic_record_nonempty (locations : list Location) :
  locations <> [] ->
  let g := assess_geographic_risk locations in
  let h := calculate_hhi locations None in
  let hs := map high_risk_record
                (filter is_high_risk_country (country_set locations)) in
  geo_high_risk_countries g = Some hs
  /\ geo_risk_factors g
     = (if Py.ge h 0.5 then [HighGeographicConcentration (Py.round3 h)] else [])
       ++ (if Nat.leb (geo_countries g) 2
           then [LimitedGeographicDiversity (geo_countries g)] else [])
       ++ (match hs with
           | [] => []
           | _ => [HighRiskCountries (map hrc_country hs)]
           end).
Proof.
  intro Hne. destruct locations as [|l locs]; [congruence|].
  intros g h hs. unfold g, assess_geographic_risk.
  cbn [geo_high_risk_countries geo_risk_factors geo_countries].
  rewrite collect_high_risk_countries_filter. fold hs.
  cbn [geo_locals overall_hhi]. fold h.
  split; [reflexivity|].
  destruct (Py.ge h 0.5); destruct (Nat.leb _ 2); destruct hs; reflexivity.
Qed.



Lemma country_set_spec (locations : list Location) :
  NoDup (country_set locations)
  /\ forall c, In c (country_set locations)
               <-> exists l, In l locations /\ country_of l = c.
Proof.
  unfold country_set. rewrite count_countries_counter_of.
  destruct (counter_of_inv (map country_of locations)) as [Hnd _ Hkeys _ _].
  split; [exact Hnd|].
  intro c. rewrite Hkeys, in_map_iff. split.
  - intros [l [E Hl]]. exists l. split; assumption.
  - intros [l [Hl E]]. exists l. split; assumption.
Qed.

(** X5. For a non-empty input the list of high-risk countries holds exactly
    the countries of the input whose climate score or geopolitical score
    (0.5 when the table lacks the country) is at least 0.7, each once, with
    both scores as the tables give them. *)
Theorem high_risk_countries_exact (locations : list Location) :
  locations <> [] ->
  exists hs,
    geo_high_risk_countries (assess_geographic_risk locations) = Some hs
    /\ NoDup (map hrc_country hs)
    /\ forall r,
        In r hs
        <-> (exists l, In l locations /\ country_of l = hrc_country r)
            /\ hrc_climate_risk r
               = Py.dict_get climate_risk_data (hrc_country r) 0.5
            /\ hrc_geopolitical_risk r
               = Py.dict_get geopolitical_risk_data (hrc_country r) 0.5
            /\ (0.7 <= hrc_climate_risk r \/ 0.7 <= hrc_geopolitical_risk r).
Proof.
  intro Hne.
  destruct (geographic_record_nonempty locations Hne) as [Hhs _].
  destruct (country_set_spec locations) as [Hnd Hin].
  eexists. split; [exact Hhs|]. split.
  - rewrite map_map. cbn [high_risk_record hrc_country]. rewrite map_id.
    apply NoDup_filter. exact Hnd.
  - intros [c cr gr]. cbn [hrc_country hrc_climate_risk hrc_geopolitical_risk].
    rewrite in_map_iff. split.
    + intros [c' [E Hc']]. apply filter_In in Hc'. destruct Hc' as [Hc' Hhigh].
      unfold high_risk_record in E. injection E as -> <- <-.
      split; [apply Hin; exact Hc'|]. split; [reflexivity|].
      split; [reflexivity|].
      unfold is_high_risk_country in Hhigh. apply orb_true_iff in Hhigh.
      destruct Hhigh as [H|H]; apply ge_true_iff in H; [left | right]; exact H.
    + intros [Hl [-> [-> Hhigh]]]. exists c. split; [reflexivity|].
      apply filter_In. split; [apply Hin; exact Hl|].
      unfold is_high_risk_country. apply orb_true_iff.
      destruct Hhigh as [H|H]; apply ge_true_iff in H; [left | right]; exact H.
Qed.

Lemma high_risk_countries_exact_witness :
  exists hs,
    geo_high_risk_countries
      (assess_geographic_risk
         [mkLocation (Some "supplier") None (Some "Sudan");
          mkLocation (Some "supplier") None (Some "Norway")]) = Some hs
    /\ NoDup (map hrc_country hs).
Proof.
  destruct (high_risk_countries_exact
              [mkLocation (Some "supplier") None (Some "Sudan");
               mkLocation (Some "supplier") None (Some "Norway")])
    as [hs [H1 [H2 _]]].
  - intro E. discriminate E.
  - exists hs. split; assumption.
Defined.

(** ** The overlap ratio *)

Lemma filter_length_all (A : Type) (p : A -> bool) (l : list A) :
  List.length (filter p l) = List.length l <-> forall x, In x l -> p x = true.
Proof.
  induction l as [|a l IH]; simpl.
  - split; [intros _ x [] | reflexivity].
  - pose proof (filter_length_le p l) as Hle.
    destruct (p a) eqn:E; simpl.
    + split.
      * intros H x [<-|Hx]; [exact E | apply IH; [lia | exact Hx]].
      * intro H. f_equal. apply IH. intros x Hx. apply H. right. exact Hx.
    + split; [lia|].
      intro H. specialize (H a (or_introl eq_refl)). congruence.
Qed.

Lemma filter_length_none (A : Type) (p : A -> bool) (l : list A) :
  List.length (filter p l) = 0%nat <-> forall x, In x l -> p x = false.
Proof.
  induction l as [|a l IH]; simpl.
  - split; [intros _ x [] | reflexivity].
  - destruct (p a) eqn:E; simpl.
    + split; [lia|]. intro H. specialize (H a (or_introl eq_refl)). congruence.
    + rewrite IH. split.
      * intros H x [<-|Hx]; [exact E | apply H; exact Hx].
      * intros H x Hx. apply H. right. exact Hx.
Qed.

Lemma filter_length_mono (A : Type) (p q : A -> bool) (l : list A) :
  (forall x, In x l -> p x = true -> q x = true) ->
  (List.length (filter p l) <= List.length (filter q l))%nat.
Proof.
  induction l as [|a l IH]; simpl; intro H; [lia|].
  assert (IH' : (List.length (filter p l) <= List.length (filter q l))%nat)
    by (apply IH; intros x Hx; apply H; right; exact Hx).
  pose proof (H a (or_introl eq_refl)) as Ha.
  destruct (p a); destruct (q a); simpl;
    try (specialize (Ha eq_refl); discriminate Ha); lia.
Qed.

Lemma named_and_present (c : string) (t : list string) :
  truthy c && in_set c t = true <-> c <> "" /\ In c t.
Proof.
  rewrite andb_true_iff, in_set_iff. unfold truthy.
  rewrite negb_true_iff, String.eqb_neq. tauto.
Qed.

Lemma fraction_value (hits len : nat) :
  (0 < len)%nat ->
  (Py.of_nat hits / Py.of_nat len == 1 <-> hits = len)
  /\ (Py.of_nat hits / Py.of_nat len == 0 <-> hits = 0%nat).
Proof.
  intro Hlen. apply of_nat_pos in Hlen.
  split; split; intro H.
  - apply of_nat_eq.
    rewrite <- (Qmult_1_l (Py.of_nat len)), <- H. field. lra.
  - rewrite H. field. lra.
  - apply (of_nat_eq hits 0). change (Py.of_nat 0) with 0.
    assert (E : Py.of_nat hits == Py.of_nat hits / Py.of_nat len * Py.of_nat len)
      by (field; lra).
    rewrite E, H. ring.
  - rewrite H. change (Py.of_nat 0) with 0. field. lra.
Qed.

Lemma div_le_mono (a b c : Q) : 0 < c -> a <= b -> a / c <= b / c.
Proof.
  intros Hc Hab. unfold Qdiv. apply Qmult_le_compat_r; [exact Hab|].
  apply Qlt_le_weak. apply Qinv_lt_0_compat. exact Hc.
Qed.

(** X6. The overlap ratio lies in [0,1]; for a non-empty source it is 1
    exactly when every source country is a non-empty name found among the
    target countries, and 0 exactly when none is; and adding target
    countries never lowers it. *)
Theorem overlap_ratio_extremes_and_growth :
  (forall source target, 0 <= overlap_ratio source target <= 1)
  /\ (forall source target,
         source <> [] ->
         (overlap_ratio source target == 1
          <-> forall c, In c source -> c <> "" /\ In c target)
         /\ (overlap_ratio source target == 0
             <-> forall c, In c source -> ~ (c <> "" /\ In c target)))
  /\ (forall source target target',
         incl target target' ->
         overlap_ratio source target <= overlap_ratio source target').
Proof.
  split; [exact overlap_ratio_range|]. split.
  - intros source target Hne. rewrite overlap_ratio_guarded.
    unfold guarded_overlap_ratio.
    destruct source as [|s source]; [congruence|].
    set (src := s :: source).
    assert (Hlen : (0 < List.length src)%nat) by (simpl; lia).
    destruct (fraction_value
                (List.length
                   (filter (fun c => truthy c && in_set c target) src))
                (List.length src) Hlen) as [H1 H0].
    split.
    + rewrite H1, filter_length_all.
      split; intros H c Hc; apply named_and_present; apply H; exact Hc.
    + rewrite H0, filter_length_none.
      split; intros H c Hc.
      * rewrite <- named_and_present, (H c Hc). discriminate.
      * specialize (H c Hc). rewrite <- named_and_present in H.
        destruct (truthy c && in_set c target); [exfalso; auto | reflexivity].
  - intros source target target' Hincl. rewrite !overlap_ratio_guarded.
    unfold guarded_overlap_ratio.
    destruct source as [|s source]; [lra|].
    set (src := s :: source).
    assert (Hlen : 0 < Py.of_nat (List.length src))
      by (apply of_nat_pos; simpl; lia).
    assert (Hm : (List.length (filter (fun c => truthy c && in_set c target) src)
                  <= List.length
                       (filter (fun c => truthy c && in_set c target') src))%nat).
    { apply filter_length_mono. intros c _ Hc.
      apply named_and_present in Hc. apply named_and_present.
      split; [tauto | apply Hincl; tauto]. }
    apply of_nat_le in Hm.
    apply div_le_mono; assumption.
Qed.

Lemma overlap_ratio_extremes_and_growth_witness :
  overlap_ratio ["Chile"; "Peru"] ["Peru"; "Chile"; "China"] == 1.
Proof.
  apply (proj1 (proj1 (proj2 overlap_ratio_extremes_and_growth)
                      ["Chile"; "Peru"] ["Peru"; "Chile"; "China"]
                      ltac:(intro E; discriminate E))).
  intros c [<-|[<-|[]]]; split; try (intro E; discriminate E); simpl; tauto.
Defined.

(** ** Exposure averages and levels *)

Lemma table_score_unit (table : list (string * Q)) (l : Location) :
  table_in_unit table = true -> 0 <= table_score table l <= 1.
Proof.
  unfold table_in_unit, table_score. intro H.
  induction table as [|[a x] table IH]; simpl.
  - split; vm_compute; congruence.
  - simpl in H. apply andb_true_iff in H. destruct H as [Hx Ht].
    destruct (String.eqb a (country_of l)); [|apply IH; exact Ht].
    apply andb_true_iff in Hx. destruct Hx as [H0 H1].
    apply Qle_bool_iff in H0, H1. split; assumption.
Qed.

Lemma mean_unit (xs : list Q) :
  xs <> [] -> Forall (fun x => 0 <= x <= 1) xs -> 0 <= mean xs <= 1.
Proof.
  intros Hne Hall. unfold mean.
  assert (Hlen : 0 < Py.of_nat (List.length xs)).
  { apply of_nat_pos. destruct xs; [congruence | simpl; lia]. }
  assert (Hsum : 0 <= qsum xs <= Py.of_nat (List.length xs)).
  { clear Hne Hlen. induction Hall as [|x xs [Hx0 Hx1] _ IH].
    - simpl. change (Py.of_nat 0) with 0. lra.
    - cbn [qsum fold_right List.length].
      fold (qsum xs).
      replace (S (List.length xs)) with (1 + List.length xs)%nat by reflexivity.
      rewrite of_nat_add. change (Py.of_nat 1) with 1. lra. }
  split.
  - apply Qle_shift_div_l; [exact Hlen | lra].
  - apply Qle_shift_div_r; [exact Hlen | lra].
Qed.

Lemma exposure_level_inverse (h : Q) :
  (exposure_level h = exp_high -> 0.6 <= h)
  /\ (exposure_level h = exp_moderate -> 0.4 <= h /\ h < 0.6)
  /\ (exposure_level h = exp_low -> h < 0.4).
Proof.
  unfold exposure_level.
  destruct (Py.ge h 0.6) eqn:E6;
    [apply ge_true_iff in E6 | apply ge_false_iff in E6];
    (destruct (Py.ge h 0.4) eqn:E4;
     [apply ge_true_iff in E4 | apply ge_false_iff in E4]);
    repeat split; intros; try discriminate; lra.
Qed.

Lemma round3_at_least (t x : Q) :
  three_decimals t -> t <= x -> t <= Py.round3 x.
Proof.
  intros Ht H. unfold three_decimals in Ht. rewrite <- Ht.
  apply round3_monotone. exact H.
Qed.

Lemma round3_at_most (t x : Q) :
  three_decimals t -> x <= t -> Py.round3 x <= t.
Proof.
  intros Ht H. unfold three_decimals in Ht. rewrite <- Ht.
  apply round3_monotone. exact H.
Qed.

Lemma three_decimals_literal (z : Z) : three_decimals (z # 1000).
Proof. unfold three_decimals. rewrite round3_thousandths. reflexivity. Qed.

Lemma three_decimals_proper (x y : Q) :
  x == y -> three_decimals x -> three_decimals y.
Proof.
  unfold three_decimals. intros E H.
  rewrite <- (round3_proper x y E), <- E. exact H.
Qed.

(** Tenths and the unit are three-decimal values. *)
Lemma three_decimals_tenths (z : Z) : three_decimals (z # 10).
Proof.
  apply (three_decimals_proper ((z * 100) # 1000)).
  - unfold Qeq. simpl. lia.
  - apply three_decimals_literal.
Qed.

Lemma three_decimals_one : three_decimals 1.
Proof. vm_compute. reflexivity. Qed.

Lemma assess_exposure_bands (table : list (string * Q)) :
  table_in_unit table = true -> exposure_bands table (assess_exposure table).
Proof.
  intros Hunit locations r average.
  assert (Hcase : locations = [] \/ locations <> [])
    by (destruct locations; [left | right]; congruence).
  destruct Hcase as [E|Hne].
  - unfold r. rewrite E.
    cbn [assess_exposure exp_average_risk exp_high_risk_locations
         exp_risk_level List.length].
    repeat split; try lra; try lia; try constructor; try discriminate;
      try congruence.
  - pose proof (assess_exposure_nonempty table locations Hne) as Hr.
    cbv zeta in Hr. fold r in Hr.
    set (m := fold_left (fun a x => a + table_score table x) locations 0
              / Py.of_nat (List.length locations)) in *.
    assert (Hm : m == average).
    { unfold m, average, mean. rewrite fold_left_plus_qsum, length_map.
      rewrite Qplus_0_l. reflexivity. }
    assert (Hu : 0 <= average <= 1).
    { apply mean_unit; [destruct locations; [congruence | discriminate]|].
      apply Forall_forall. intros x Hx. apply in_map_iff in Hx.
      destruct Hx as [l0 [<- _]]. apply table_score_unit. exact Hunit. }
    rewrite Hr. cbn [exp_average_risk exp_high_risk_locations exp_risk_level].
    destruct (exposure_level_inverse m) as [I1 [I2 I3]].
    split; [apply round3_unit_interval; rewrite Hm; exact Hu|].
    split; [rewrite length_map; apply filter_length_le|].
    split.
    { apply Forall_forall. intros h Hh. apply in_map_iff in Hh.
      destruct Hh as [x [<- Hx]]. apply filter_In in Hx. destruct Hx as [_ Hx].
      cbn [annotate hrl_risk_level]. apply Qle_bool_iff in Hx.
      split; [exact Hx | apply table_score_unit; exact Hunit]. }
    split; [intros _; rewrite <- Hm; apply round3_error|].
    split.
    { intro E. injection E as E. apply I1 in E.
      apply round3_at_least; [apply three_decimals_tenths | exact E]. }
    split.
    { intro E. injection E as E. apply I2 in E. destruct E as [E4 E6]. split.
      - apply round3_at_least; [apply three_decimals_tenths | exact E4].
      - apply round3_at_most; [apply three_decimals_tenths | lra]. }
    split.
    { intro E. injection E as E. apply I3 in E.
      apply round3_at_most; [apply three_decimals_tenths | lra]. }
    split; [discriminate | intro E; congruence].
Qed.

Lemma climate_table_unit : table_in_unit climate_risk_data = true.
Proof. vm_compute. reflexivity. Qed.

Lemma geopolitical_table_unit : table_in_unit geopolitical_risk_data = true.
Proof. vm_compute. reflexivity. Qed.

(** X7. For both exposure assessors and every input: the returned average
    lies in [0,1] and, on a non-empty input, within 0.0005 of the mean of the
    table scores; a level high / moderate / low puts the returned average in
    [0.6,1] / [0.4,0.6] / [0,0.4]; the level is missing exactly on the empty
    input; and the high-risk list is no longer than the input, with scores
    in [0.7,1]. *)
Theorem exposure_average_and_level_bands :
  exposure_bands climate_risk_data _assess_climate_risk
  /\ exposure_bands geopolitical_risk_data _assess_geopolitical_risk.
Proof.
  split; apply assess_exposure_bands;
    [apply climate_table_unit | apply geopolitical_table_unit].
Qed.

Lemma exposure_average_and_level_bands_witness :
  let locations :=
    [mkLocation (Some "supplier") (Some "Pune") (Some "India");
     mkLocation (Some "supplier") (Some "Perth") (Some "Australia")] in
  0.4 <= exp_average_risk (_assess_climate_risk locations) <= 0.6.
Proof.
  intro locations.
  refine (proj1 (proj2 (proj2 (proj2 (proj2 (proj2
            (proj1 exposure_average_and_level_bands locations)))))) _).
  vm_compute. reflexivity.
Defined.

(** ** The lead-time classifier as a function of the week count *)

Lemma risk_from_text_by_count (text : string) :
  let t := Text.lower (Text.strip text) in
  risk_from_text text
  = if mentions_in_stock_australia t then 0
    else match extract_weeks t with
         | None => 0.5
         | Some weeks => risk_of_week_count weeks
         end.
Proof. exact (risk_from_text_unfold text). Qed.

Lemma risk_of_week_count_cases (w : Q) :
  0 <= w ->
  (w == 0 /\ risk_of_week_count w == 0)
  \/ (0 < w /\ w <= 3 /\ risk_of_week_count w == 0.2)
  \/ (3 < w /\ w <= 6 /\ risk_of_week_count w == 0.6)
  \/ (6 < w /\ w <= 10 /\ risk_of_week_count w == 0.6 + (w - 6) * 0.0625)
  \/ (10 < w /\ risk_of_week_count w == 0.9).
Proof.
  intro H0. unfold risk_of_week_count.
  destruct (Qeq_bool w 0) eqn:E0;
    [apply Qeq_bool_iff in E0; left; split; [exact E0 | reflexivity]|].
  apply Qeq_bool_neq in E0. right.
  destruct (Qle_bool w 3) eqn:E3;
    [apply Qle_bool_iff in E3; left; repeat split; try reflexivity; lra|].
  apply (ge_false_iff 3 w) in E3. right.
  destruct (Qle_bool w 6) eqn:E6;
    [apply Qle_bool_iff in E6; left; repeat split; try reflexivity; lra|].
  apply (ge_false_iff 6 w) in E6. right.
  destruct (Qle_bool w 10) eqn:E10; cbn [negb].
  - apply Qle_bool_iff in E10. left. split; [exact E6|]. split; [exact E10|].
    rewrite (interpolation_value w E6 E10). apply Q.min_r. lra.
  - apply (ge_false_iff 10 w) in E10. right. split; [exact E10 | reflexivity].
Qed.

Lemma risk_of_week_count_monotone (w1 w2 : Q) :
  0 <= w1 -> w1 <= w2 -> risk_of_week_count w1 <= risk_of_week_count w2.
Proof.
  intros H0 H12.
  assert (H2 : 0 <= w2) by lra.
  destruct (risk_of_week_count_cases w1 H0)
    as [[A R1]|[[A [A' R1]]|[[A [A' R1]]|[[A [A' R1]]|[A R1]]]]];
    destruct (risk_of_week_count_cases w2 H2)
      as [[B R2]|[[B [B' R2]]|[[B [B' R2]]|[[B [B' R2]]|[B R2]]]]];
    rewrite R1, R2; lra.
Qed.

Lemma risk_of_week_count_range (w : Q) :
  0 <= w -> 0 <= risk_of_week_count w <= 1.
Proof.
  intro H0.
  assert (Hlo : risk_of_week_count 0 <= risk_of_week_count w)
    by (apply risk_of_week_count_monotone; lra).
  assert (Hhi : risk_of_week_count w <= risk_of_week_count (Qmax w 11)).
  { apply risk_of_week_count_monotone; [exact H0 | apply Q.le_max_l]. }
  assert (E0 : risk_of_week_count 0 == 0) by (vm_compute; reflexivity).
  assert (E11 : risk_of_week_count (Qmax w 11) == 0.9).
  { pose proof (Q.le_max_r w 11) as H11.
    destruct (risk_of_week_count_cases (Qmax w 11))
      as [[B R2]|[[B [B' R2]]|[[B [B' R2]]|[[B [B' R2]]|[B R2]]]]];
      try lra; exact R2. }
  lra.
Qed.

Lemma risk_from_text_range (text : string) : 0 <= risk_from_text text <= 1.
Proof.
  rewrite (risk_from_text_by_count text). cbv zeta.
  destruct (mentions_in_stock_australia _); [lra|].
  destruct (extract_weeks _) as [w|] eqn:E; [|lra].
  apply risk_of_week_count_range. apply (extract_weeks_nonneg _ _ E).
Qed.

(** X8. The classifier reads a text only through its stripped, lower-cased
    form: padding and letter case never change the risk. *)
Theorem risk_from_text_ignores_case_and_padding (text : string) :
  risk_from_text text = risk_from_text (Text.lower (Text.strip text)).
Proof.
  rewrite (risk_from_text_by_count text).
  rewrite (risk_from_text_by_count (Text.lower (Text.strip text))).
  cbv zeta. rewrite normalise_idempotent. reflexivity.
Qed.



(** ** The lead-time batch *)

Lemma lead_time_average_value (products : list Product) :
  (products = [] -> lt_average_risk (_assess_lead_time_risk products) = 0)
  /\ (products <> [] ->
      lt_average_risk (_assess_lead_time_risk products)
      = Py.round3 (mean (map product_risk products)))
  /\ lt_items (_assess_lead_time_risk products) = map lead_time_item products
  /\ 0 <= lead_time_mean products <= 1.
Proof.
  split; [intro E; rewrite E; reflexivity|].
  split; [intro Hne; rewrite (assess_lead_time_nonempty _ Hne); reflexivity|].
  split.
  - destruct products as [|p ps]; [reflexivity|].
    rewrite assess_lead_time_nonempty by discriminate. reflexivity.
  - destruct products as [|p ps]; [simpl; lra|].
    unfold lead_time_mean. apply mean_unit; [discriminate|].
    apply Forall_forall. intros x Hx. apply in_map_iff in Hx.
    destruct Hx as [q [<- _]]. apply risk_from_text_range.
Qed.

Lemma lead_time_average_close (products : list Product) :
  lead_time_mean products - (1 # 2000)
  <= lt_average_risk (_assess_lead_time_risk products)
  <= lead_time_mean products + (1 # 2000)
  /\ 0 <= lt_average_risk (_assess_lead_time_risk products) <= 1.
Proof.
  destruct (lead_time_average_value products) as [He [Hn [_ Hu]]].
  destruct products as [|p ps].
  - rewrite He by reflexivity. simpl. lra.
  - rewrite Hn by discriminate. split.
    + apply round3_error.
    + apply round3_unit_interval. exact Hu.
Qed.

(** X10. The lead-time batch returns one item per product, in order, named
    after the product ("Unknown" without a name) and carrying the text read;
    every item risk and the average lie in [0,1]; the average is within
    0.0005 of the mean of the unrounded risks; and an item without any
    lead-time text has risk 0.5. *)
Theorem lead_time_batch_shape (products : list Product) :
  let r := _assess_lead_time_risk products in
  List.length (lt_items r) = List.length products
  /\ map lti_product (lt_items r)
     = map (fun p => or_default (prod_name p) "Unknown") products
  /\ map lti_lead_time (lt_items r) = map lead_time_text products
  /\ Forall (fun i => 0 <= lti_risk i <= 1) (lt_items r)
  /\ (forall i, In i (lt_items r) -> lti_lead_time i = "" -> lti_risk i == 0.5)
  /\ (0 <= lt_average_risk r <= 1)
  /\ (lead_time_mean products - (1 # 2000)
      <= lt_average_risk r
      <= lead_time_mean products + (1 # 2000)).
Proof.
  intro r.
  destruct (lead_time_average_value products) as [_ [_ [Hitems _]]].
  destruct (lead_time_average_close products) as [Hclose Hunit].
  fold r in Hitems, Hclose, Hunit. rewrite Hitems.
  split; [apply length_map|].
  split; [rewrite map_map; reflexivity|].
  split; [rewrite map_map; reflexivity|].
  split; [|split; [|split; assumption]].
  - apply Forall_forall. intros i Hi. apply in_map_iff in Hi.
    destruct Hi as [p [<- _]]. cbn [lead_time_item lti_risk].
    apply round3_unit_interval. apply risk_from_text_range.
  - intros i Hi Ht. apply in_map_iff in Hi. destruct Hi as [p [<- _]].
    cbn [lead_time_item lti_risk lti_lead_time] in *.
    unfold product_risk. rewrite Ht. vm_compute. reflexivity.
Qed.

(** ** The composite score *)

Lemma clamp01_close (x y d : Q) :
  y - d <= x <= y + d ->
  clamp01 y - d <= clamp01 x <= clamp01 y + d.
Proof.
  intros [Hlo Hhi]. unfold clamp01.
  destruct (Q.max_spec x 0) as [[_ Ex]|[_ Ex]];
    destruct (Q.max_spec y 0) as [[_ Ey]|[_ Ey]];
    destruct (Q.min_spec (Qmax x 0) 1) as [[_ Fx]|[_ Fx]];
    destruct (Q.min_spec (Qmax y 0) 1) as [[_ Fy]|[_ Fy]];
    rewrite Fx, Fy; try rewrite Ex; try rewrite Ey;
    pose proof (Q.le_max_r x 0); pose proof (Q.le_max_l x 0);
    pose proof (Q.le_max_r y 0); pose proof (Q.le_max_l y 0);
    pose proof (Q.le_min_r (Qmax x 0) 1); pose proof (Q.le_min_r (Qmax y 0) 1);
    pose proof (Q.le_min_l (Qmax x 0) 1); pose proof (Q.le_min_l (Qmax y 0) 1);
    rewrite ?Fx, ?Fy, ?Ex, ?Ey in *; lra.
Qed.

(** The pieces of the full assessment on a non-empty input. *)
Lemma assessment_core (locations : list Location)
      (products : option (list Product)) :
  locations <> [] ->
  let a := assess_supply_chain_risk locations products in
  let H := Py.round3 (calculate_hhi locations None) in
  let L := lt_average_risk (_assess_lead_time_risk (products_or_empty products)) in
  exists s,
    s == clamp01 (0.7 * H + 0.3 * L)
    /\ risk_score a = Py.round3 s
    /\ overall_risk a = overall_level s.
Proof.
  intros Hne a H L.
  exists (_calculate_overall_risk_score_with_lead_time
            (assess_geographic_risk locations)
            (_assess_lead_time_risk (products_or_empty products))).
  split.
  - rewrite overall_score_clamp, (geo_hhi_nonempty locations Hne). reflexivity.
  - unfold a. rewrite (assess_supply_chain_risk_nonempty _ _ Hne).
    split; reflexivity.
Qed.

(** X11. For a non-empty input the returned score is within 0.001 of
    0.7 * index + 0.3 * mean lead-time risk clamped to [0,1], both taken
    unrounded, and lies in [0,1]. *)
Theorem returned_score_close_to_formula (locations : list Location)
        (products : option (list Product)) :
  locations <> [] ->
  let a := assess_supply_chain_risk locations products in
  let exact :=
    clamp01 (0.7 * calculate_hhi locations None
             + 0.3 * lead_time_mean (products_or_empty products)) in
  (exact - (1 # 1000) <= risk_score a <= exact + (1 # 1000))
  /\ (0 <= risk_score a <= 1).
Proof.
  intros Hne a exact.
  destruct (assessment_core locations products Hne) as [s [Hs [Hr _]]].
  fold a in Hr. rewrite Hr.
  pose proof (round3_error (calculate_hhi locations None)) as EH.
  destruct (lead_time_average_close (products_or_empty products)) as [EL _].
  set (H := Py.round3 (calculate_hhi locations None)) in *.
  set (L := lt_average_risk _) in *.
  assert (Hc : exact - (1 # 2000) <= s <= exact + (1 # 2000)).
  { rewrite Hs. apply clamp01_close. lra. }
  pose proof (round3_error s) as Es.
  split; [lra|].
  apply round3_unit_interval. rewrite Hs. apply clamp01_range.
Qed.

Lemma returned_score_close_to_formula_witness :
  let locations :=
    [mkLocation (Some "manufacturing") None (Some "China");
     mkLocation (Some "manufacturing") None (Some "China");
     mkLocation (Some "supplier") None (Some "Australia")] in
  let products :=
    Some [mkProduct (Some "Panel") (Some (mkRaw None (Some "7 weeks") None));
          mkProduct None None] in
  0 <= risk_score (assess_supply_chain_risk locations products) <= 1.
Proof.
  intros locations products.
  apply (proj2 (returned_score_close_to_formula locations products
                  ltac:(intro E; discriminate E))).
Defined.

Lemma overall_level_inverse (s : Q) :
  (overall_level s = lvl_very_high -> 0.8 <= s)
  /\ (overall_level s = lvl_high -> 0.6 <= s /\ s < 0.8)
  /\ (overall_level s = lvl_moderate -> 0.4 <= s /\ s < 0.6)
  /\ (overall_level s = lvl_low -> 0.2 <= s /\ s < 0.4)
  /\ (overall_level s = lvl_very_low -> s < 0.2)
  /\ overall_level s <> lvl_unknown.
Proof.
  unfold overall_level.
  destruct (Py.ge s 0.8) eqn:E8;
    [apply ge_true_iff in E8 | apply ge_false_iff in E8];
    (destruct (Py.ge s 0.6) eqn:E6;
     [apply ge_true_iff in E6 | apply ge_false_iff in E6]);
    (destruct (Py.ge s 0.4) eqn:E4;
     [apply ge_true_iff in E4 | apply ge_false_iff in E4]);
    (destruct (Py.ge s 0.2) eqn:E2;
     [apply ge_true_iff in E2 | apply ge_false_iff in E2]);
    repeat split; intros; try discriminate; lra.
Qed.

Lemma score_level_band (locations : list Location)
        (products : option (list Product)) :
  locations <> [] ->
  let a := assess_supply_chain_risk locations products in
  (overall_risk a = lvl_very_high -> 0.8 <= risk_score a <= 1)
  /\ (overall_risk a = lvl_high -> 0.6 <= risk_score a <= 0.8)
  /\ (overall_risk a = lvl_moderate -> 0.4 <= risk_score a <= 0.6)
  /\ (overall_risk a = lvl_low -> 0.2 <= risk_score a <= 0.4)
  /\ (overall_risk a = lvl_very_low -> 0 <= risk_score a <= 0.2)
  /\ overall_risk a <> lvl_unknown.
Proof.
  intros Hne a.
  destruct (assessment_core locations products Hne) as [s [Hs [Hr Hl]]].
  fold a in Hr, Hl. rewrite Hr, Hl.
  destruct (overall_level_inverse s) as [I1 [I2 [I3 [I4 [I5 I6]]]]].
  assert (Hu : 0 <= s <= 1) by (rewrite Hs; apply clamp01_range).
  pose proof (round3_unit_interval s Hu) as Hru.
  assert (Lo : forall t : Z, (t # 10) <= s -> (t # 10) <= Py.round3 s)
    by (intros t Ht; apply round3_at_least;
        [apply three_decimals_tenths | exact Ht]).
  assert (Up : forall t : Z, s <= (t # 10) -> Py.round3 s <= (t # 10))
    by (intros t Ht; apply round3_at_most;
        [apply three_decimals_tenths | exact Ht]).
  split; [intro E; apply I1 in E; split; [apply (Lo 8%Z); lra | apply Hru]|].
  split; [intro E; apply I2 in E; split;
          [apply (Lo 6%Z); lra | apply (Up 8%Z); lra]|].
  split; [intro E; apply I3 in E; split;
          [apply (Lo 4%Z); lra | apply (Up 6%Z); lra]|].
  split; [intro E; apply I4 in E; split;
          [apply (Lo 2%Z); lra | apply (Up 4%Z); lra]|].
  split; [intro E; apply I5 in E; split;
          [apply Hru | apply (Up 2%Z); lra]|].
  exact I6.
Qed.

(** X12. For a non-empty input the returned score lies in the closed band of
    the returned level: very_high in [0.8,1], high in [0.6,0.8], moderate in
    [0.4,0.6], low in [0.2,0.4], very_low in [0,0.2]; the level is never
    "unknown". *)
Theorem returned_score_in_level_band (locations : list Location)
        (products : option (list Product)) :
  locations <> [] ->
  let a := assess_supply_chain_risk locations products in
  (overall_risk a = lvl_very_high -> 0.8 <= risk_score a <= 1)
  /\ (overall_risk a = lvl_high -> 0.6 <= risk_score a <= 0.8)
  /\ (overall_risk a = lvl_moderate -> 0.4 <= risk_score a <= 0.6)
  /\ (overall_risk a = lvl_low -> 0.2 <= risk_score a <= 0.4)
  /\ (overall_risk a = lvl_very_low -> 0 <= risk_score a <= 0.2)
  /\ overall_risk a <> lvl_unknown.
Proof. exact (score_level_band locations products). Qed.

Lemma returned_score_in_level_band_witness :
  let locations :=
    [mkLocation (Some "manufacturing") None (Some "China");
     mkLocation (Some "supplier") None (Some "Australia")] in
  0.2 <= risk_score (assess_supply_chain_risk locations None) <= 0.4.
Proof.
  intro locations.
  apply (proj1 (proj2 (proj2 (proj2
          (returned_score_in_level_band locations None
             ltac:(intro E; discriminate E)))))).
  vm_compute. reflexivity.
Defined.



(** ** A single-country supply chain *)

Lemma single_country_index (locations : list Location) :
  locations <> [] -> share_one_country locations ->
  calculate_hhi locations None == 1
  /\ geo_countries (assess_geographic_risk locations) = 1%nat.
Proof.
  intros Hne Hone. split.
  - assert (Hk : filter_by_type locations None <> []) by exact Hne.
    rewrite (calculate_hhi_nonempty locations None Hk).
    apply index_one_iff; [apply map_country_nonempty; exact Hne|].
    apply share_one_country_keys. exact Hone.
  - destruct (few_countries_bound locations Hne) as [[Hpos _] _].
    destruct (geo_countries_count locations Hne) as [Hc _].
    assert (Hle : (geo_countries (assess_geographic_risk locations) <= 1)%nat).
    { rewrite Hc. cbn [filter_by_type].
      rewrite <- (length_map fst). fold (country_set locations).
      destruct (country_set_spec locations) as [Hnd Hin].
      destruct locations as [|l0 locs]; [congruence|].
      apply (nodup_all_equal _ _ (country_of l0) Hnd).
      intros c Hc'. apply Hin in Hc'. destruct Hc' as [l [Hl <-]].
      apply Hone; [exact Hl | left; reflexivity]. }
    lia.
Qed.

(** X14. When all locations of a non-empty input lie in one country, the
    index field is 1, the country count is 1, the concentration level is
    very_high, the returned score is at least 0.7 and the overall level is
    high or very_high, whatever the products. *)
Theorem single_country_is_rated_high (locations : list Location)
        (products : option (list Product)) :
  locations <> [] -> share_one_country locations ->
  let g := assess_geographic_risk locations in
  let a := assess_supply_chain_risk locations products in
  geo_hhi g == 1
  /\ geo_countries g = 1%nat
  /\ geo_concentration_risk g = conc_very_high
  /\ 0.7 <= risk_score a
  /\ (overall_risk a = lvl_high \/ overall_risk a = lvl_very_high).
Proof.
  intros Hne Hone g a.
  destruct (single_country_index locations Hne Hone) as [Hh Hn].
  destruct (geo_countries_count locations Hne) as [_ Hl].
  destruct (assessment_core locations products Hne) as [s [Hs [Hr Hlv]]].
  fold a in Hr, Hlv. fold g in Hn, Hl.
  assert (HH : Py.round3 (calculate_hhi locations None) == 1).
  { rewrite (round3_proper _ 1 Hh). vm_compute. reflexivity. }
  destruct (lead_time_average_close (products_or_empty products)) as [_ HL].
  set (L := lt_average_risk _) in *.
  assert (Hs7 : 0.7 <= s).
  { rewrite Hs. unfold clamp01.
    apply Q.min_glb; [|lra].
    apply (Qle_trans _ (0.7 * Py.round3 (calculate_hhi locations None)
                        + 0.3 * L)); [lra | apply Q.le_max_l]. }
  split; [unfold g; rewrite (geo_hhi_nonempty _ Hne); exact HH|].
  split; [exact Hn|].
  split.
  { rewrite Hl. unfold concentration_level.
    assert (E : Py.ge (calculate_hhi locations None) 0.7 = true)
      by (apply ge_true_iff; lra).
    rewrite E. reflexivity. }
  split.
  { rewrite Hr. apply round3_at_least; [apply three_decimals_tenths | exact Hs7]. }
  rewrite Hlv. unfold overall_level.
  destruct (Py.ge s 0.8); [right; reflexivity|].
  assert (E : Py.ge s 0.6 = true) by (apply ge_true_iff; lra).
  rewrite E. left. reflexivity.
Qed.

Lemma single_country_is_rated_high_witness :
  let locations :=
    [mkLocation (Some "manufacturing") (Some "Plant") (Some "Vietnam");
     mkLocation (Some "raw_material") None (Some "Vietnam")] in
  0.7 <= risk_score (assess_supply_chain_risk locations None).
Proof.
  intro locations.
  refine (proj1 (proj2 (proj2 (proj2
            (single_country_is_rated_high locations None _ _))))).
  - intro E. discriminate E.
  - intros l1 l2 [<-|[<-|[]]] [<-|[<-|[]]]; reflexivity.
Defined.

(** ** The legacy three-factor score *)

(** X15. The legacy score is never above 1; on the sub-results of any
    non-empty input its cap is idle: it equals
    0.4 * index + 0.3 * climate average + 0.3 * geopolitical average of the
    returned (three-decimal) fields, and lies in [0,1]. *)
Theorem legacy_score_weighted_sum :
  (forall g c p, _calculate_overall_risk_score g c p <= 1)
  /\ (forall locations : list Location,
         let g := assess_geographic_risk locations in
         let c := _assess_climate_risk locations in
         let p := _assess_geopolitical_risk locations in
         _calculate_overall_risk_score g c p
         == 0.4 * geo_hhi g + 0.3 * exp_average_risk c
            + 0.3 * exp_average_risk p
         /\ 0 <= _calculate_overall_risk_score g c p <= 1).
Proof.
  split.
  - intros g c p. unfold _calculate_overall_risk_score.
    rewrite py_min_spec. apply Q.le_min_r.
  - intros locations g c p.
    assert (Hg : 0 <= geo_hhi g <= 1).
    { unfold g. destruct locations as [|l locs]; [simpl; lra|].
      rewrite geo_hhi_nonempty by discriminate.
      apply round3_unit_interval. apply calculate_hhi_range. }
    pose proof (proj1 (assess_exposure_bands climate_risk_data
                         climate_table_unit locations)) as Hc.
    pose proof (proj1 (assess_exposure_bands geopolitical_risk_data
                         geopolitical_table_unit locations)) as Hp.
    cbv zeta in Hc, Hp.
    change (assess_exposure climate_risk_data locations) with c in Hc.
    change (assess_exposure geopolitical_risk_data locations) with p in Hp.
    unfold _calculate_overall_risk_score. rewrite py_min_spec.
    set (x := 0.4 * geo_hhi g + 0.3 * exp_average_risk c
              + 0.3 * exp_average_risk p).
    assert (Hx : 0 <= x <= 1) by (unfold x; lra).
    rewrite (Q.min_l x 1) by lra. split; [reflexivity | exact Hx].
Qed.

(** ** Recommendations *)

Lemma exposure_recommendations_shape (headline prefix : string)
      (r : ExposureRisk) :
  (exp_risk_level r <> Some exp_high
   /\ exposure_recommendations headline prefix r = [])
  \/ (exp_risk_level r = Some exp_high
      /\ (exposure_recommendations headline prefix r = [headline]
          \/ exists x, exposure_recommendations headline prefix r
                       = [headline; String.append prefix x])).
Proof.
  unfold exposure_recommendations, is_exp_high.
  destruct (exp_risk_level r) as [[| |]|];
    try (left; split; [discriminate | reflexivity]).
  right. split; [reflexivity|].
  destruct (map hrl_country (exp_high_risk_locations r));
    [left; reflexivity | right; eexists; reflexivity].
Qed.

(** X16. The recommendation list is never empty and has at most five
    entries; the "acceptable" text is returned exactly when the index field
    is below 0.5 and neither exposure level is high, and then it is the only
    entry; the "diversify" text is listed exactly when the index field is at
    least 0.7, the "monitor" text exactly when it is in [0.5,0.7), and each
    exposure headline exactly when that exposure level is high. *)
Theorem recommendations_characterised (g : GeographicRisk)
        (c p : ExposureRisk) :
  let rs := _generate_recommendations g c p in
  (1 <= List.length rs <= 5)%nat
  /\ (In rec_acceptable rs <-> rs = [rec_acceptable])
  /\ (rs = [rec_acceptable]
      <-> geo_hhi g < 0.5 /\ exp_risk_level c <> Some exp_high
          /\ exp_risk_level p <> Some exp_high)
  /\ (In rec_diversify rs <-> 0.7 <= geo_hhi g)
  /\ (In rec_monitor rs <-> 0.5 <= geo_hhi g /\ geo_hhi g < 0.7)
  /\ (In rec_climate rs <-> exp_risk_level c = Some exp_high)
  /\ (In rec_geopolitical rs <-> exp_risk_level p = Some exp_high).
Proof.
  intro rs. unfold rs, _generate_recommendations.
  fold rec_diversify rec_monitor rec_climate rec_geopolitical rec_acceptable.
  destruct (exposure_recommendations_shape rec_climate
              "Consider alternative suppliers outside high climate risk countries: "
              c) as [[Hc ->]|[Hc [->|[x ->]]]];
    destruct (exposure_recommendations_shape rec_geopolitical
                "Monitor political stability in: " p)
      as [[Hp ->]|[Hp [->|[y ->]]]];
    (destruct (Py.ge (geo_hhi g) 0.7) eqn:E7;
     [apply ge_true_iff in E7 | apply ge_false_iff in E7]);
    (destruct (Py.ge (geo_hhi g) 0.5) eqn:E5;
     [apply ge_true_iff in E5 | apply ge_false_iff in E5]);
    try (exfalso; lra);
    cbn [app List.length In String.append];
    unfold rec_diversify, rec_monitor, rec_climate, rec_geopolitical,
      rec_acceptable;
    cbn [String.append];
    (split; [lia|]);
    repeat split; intros;
    repeat match goal with
           | H : _ \/ _ |- _ => destruct H
           | H : _ /\ _ |- _ => destruct H
           | H : False |- _ => destruct H
           end;
    try congruence; try lra; try tauto;
    try (exfalso; congruence).
Qed.

(* ------------------------------------------------------------------ *)
(** ** Country extraction (product catalogue service) *)

Lemma lstrip_clean (s : string) : starts_clean s = true -> Text.lstrip s = s.
Proof.
  destruct s as [|c r]; simpl; [reflexivity|].
  intro H. apply negb_true_iff in H. rewrite H. reflexivity.
Qed.

Lemma rstrip_clean (s : string) : ends_clean s = true -> Text.rstrip s = s.
Proof.
  induction s as [|c r IH]; [reflexivity|].
  cbn [ends_clean Text.rstrip]. destruct r as [|d r'].
  - intro H. apply negb_true_iff in H. simpl. rewrite H. reflexivity.
  - intro H. rewrite (IH H). reflexivity.
Qed.

Lemma strip_clean (s : string) :
  starts_clean s = true -> ends_clean s = true -> Text.strip s = s.
Proof.
  intros H1 H2. unfold Text.strip.
  rewrite (lstrip_clean s H1). apply rstrip_clean. exact H2.
Qed.

Lemma rstrip_ends_clean (s : string) : ends_clean (Text.rstrip s) = true.
Proof.
  induction s as [|c r IH]; [reflexivity|].
  cbn [Text.rstrip]. destruct (Text.rstrip r) as [|d u] eqn:E.
  - destruct (Text.is_space c) eqn:Ec; simpl; [reflexivity|].
    rewrite Ec. reflexivity.
  - exact IH.
Qed.

Lemma strip_starts_clean (s : string) : starts_clean (Text.strip s) = true.
Proof.
  unfold Text.strip.
  destruct (lstrip_head s) as [E | [c [r [E Hc]]]]; rewrite E.
  - reflexivity.
  - rewrite (rstrip_keeps_head c r Hc). simpl. rewrite Hc. reflexivity.
Qed.

Lemma strip_ends_clean (s : string) : ends_clean (Text.strip s) = true.
Proof. unfold Text.strip. apply rstrip_ends_clean. Qed.

Lemma ends_clean_tail (c : ascii) (r : string) :
  ends_clean (String c r) = true -> ends_clean r = true.
Proof. destruct r; [reflexivity | intro H; exact H]. Qed.

Lemma ends_clean_append (a b : string) :
  ends_clean a = true -> ends_clean b = true ->
  ends_clean (String.append a b) = true.
Proof.
  intros Ha Hb. induction a as [|c a IH]; [exact Hb|].
  cbn [String.append]. pose proof (ends_clean_tail c a Ha) as Ha'.
  specialize (IH Ha').
  destruct a as [|d a'].
  - cbn [String.append] in *. destruct b as [|e b']; [exact Ha | exact Hb].
  - cbn [String.append ends_clean] in *. exact IH.
Qed.

Lemma replace_from_nonempty (old new : string) (c : ascii) (r : string) :
  new <> EmptyString -> replace_from old new 0 (String c r) <> EmptyString.
Proof.
  intro Hn. cbn [replace_from].
  destruct (Text.strip_prefix old (String c r)); [|discriminate].
  destruct new as [|a new']; [congruence | discriminate].
Qed.

Lemma replace_from_ends_clean (old new : string) :
  new <> EmptyString -> ends_clean new = true ->
  forall s skip,
    ends_clean s = true -> ends_clean (replace_from old new skip s) = true.
Proof.
  intros Hn Hnew. induction s as [|c r IH]; intros skip Hs; [reflexivity|].
  pose proof (ends_clean_tail c r Hs) as Hr.
  cbn [replace_from]. destruct skip as [|n]; [|apply IH; exact Hr].
  destruct (Text.strip_prefix old (String c r)).
  - apply ends_clean_append; [exact Hnew | apply IH; exact Hr].
  - destruct r as [|d r'].
    + exact Hs.
    + pose proof (replace_from_nonempty old new d r' Hn) as Hne.
      specialize (IH 0%nat Hr).
      destruct (replace_from old new 0 (String d r')) as [|e u] eqn:E;
        [congruence | exact IH].
Qed.

Lemma replace_starts_clean (a : ascii) (old' new s : string) :
  Text.is_space a = true -> starts_clean s = true ->
  starts_clean new = true -> new <> EmptyString ->
  starts_clean (replace (String a old') new s) = true.
Proof.
  intros Ha Hs _ _. unfold replace. destruct s as [|c r]; [reflexivity|].
  simpl in Hs. apply negb_true_iff in Hs.
  cbn [replace_from Text.strip_prefix].
  destruct (Ascii.eqb a c) eqn:E.
  - apply Ascii.eqb_eq in E. subst c. congruence.
  - simpl. rewrite Hs. reflexivity.
Qed.

Lemma replace_nonempty (old new s : string) :
  new <> EmptyString -> s <> EmptyString -> replace old new s <> EmptyString.
Proof.
  intros Hn Hs. destruct s as [|c r]; [congruence|].
  apply replace_from_nonempty. exact Hn.
Qed.

Lemma normalise_state_clean (location_state : string) :
  starts_clean (normalise_state location_state) = true
  /\ ends_clean (normalise_state location_state) = true
  /\ (Text.strip location_state <> EmptyString ->
      normalise_state location_state <> EmptyString).
Proof.
  unfold normalise_state.
  pose proof (strip_starts_clean location_state) as H1.
  pose proof (strip_ends_clean location_state) as H2.
  set (s0 := Text.strip location_state) in *.
  assert (A1 : starts_clean (replace " Australia" "Australia" s0) = true)
    by (apply replace_starts_clean; [reflexivity | exact H1 | reflexivity
                                     | discriminate]).
  assert (A2 : ends_clean (replace " Australia" "Australia" s0) = true)
    by (apply replace_from_ends_clean; [discriminate | reflexivity | exact H2]).
  set (s1 := replace " Australia" "Australia" s0) in *.
  assert (B1 : starts_clean (replace " China" "China" s1) = true)
    by (apply replace_starts_clean; [reflexivity | exact A1 | reflexivity
                                     | discriminate]).
  assert (B2 : ends_clean (replace " China" "China" s1) = true)
    by (apply replace_from_ends_clean; [discriminate | reflexivity | exact A2]).
  set (s2 := replace " China" "China" s1) in *.
  split; [|split].
  - apply replace_starts_clean; [reflexivity | exact B1 | reflexivity
                                 | discriminate].
  - apply replace_from_ends_clean; [discriminate | reflexivity | exact B2].
  - intro Hne. apply replace_nonempty; [discriminate|].
    apply replace_nonempty; [discriminate|].
    apply replace_nonempty; [discriminate | exact Hne].
Qed.

Lemma truthy_iff (s : string) : truthy s = true <-> s <> "".
Proof. unfold truthy. rewrite negb_true_iff. apply String.eqb_neq. Qed.

Lemma extract_country_clean (location_name location_state : string) :
  extract_country location_name location_state <> ""
  /\ Text.strip (extract_country location_name location_state)
     = extract_country location_name location_state.
Proof.
  unfold extract_country.
  destruct (truthy location_name && Text.contains "," location_name).
  - destruct (truthy (Text.strip (after_last_comma location_name))) eqn:E.
    + split; [apply truthy_iff; exact E | apply strip_idempotent].
    + destruct (truthy location_state).
      * destruct (normalise_state_clean location_state) as [C1 [C2 _]].
        destruct (truthy (normalise_state location_state)) eqn:E2.
        -- split; [apply truthy_iff; exact E2 | apply strip_clean; assumption].
        -- split; [discriminate | reflexivity].
      * destruct (truthy location_name); [|split; [discriminate | reflexivity]].
        destruct (Nat.ltb 2 (String.length (Text.strip location_name))
                  && negb (Text.contains "," (Text.strip location_name))) eqn:E3;
          [|split; [discriminate | reflexivity]].
        split; [|apply strip_idempotent].
        apply andb_true_iff in E3. destruct E3 as [E3 _].
        apply Nat.ltb_lt in E3. intro Z. rewrite Z in E3. simpl in E3. lia.
  - destruct (truthy location_state).
    + destruct (normalise_state_clean location_state) as [C1 [C2 _]].
      destruct (truthy (normalise_state location_state)) eqn:E2.
      * split; [apply truthy_iff; exact E2 | apply strip_clean; assumption].
      * split; [discriminate | reflexivity].
    + destruct (truthy location_name); [|split; [discriminate | reflexivity]].
      destruct (Nat.ltb 2 (String.length (Text.strip location_name))
                && negb (Text.contains "," (Text.strip location_name))) eqn:E3;
        [|split; [discriminate | reflexivity]].
      split; [|apply strip_idempotent].
      apply andb_true_iff in E3. destruct E3 as [E3 _].
      apply Nat.ltb_lt in E3. intro Z. rewrite Z in E3. simpl in E3. lia.
Qed.

(** X17. [extract_country] never returns the empty string and never returns
    a name with leading or trailing white space.  With an empty location
    name it returns the state with the three replacements applied when the
    state is not blank, and "Unknown" when the state is blank. *)
Theorem extract_country_named_and_trimmed
        (location_name location_state : string) :
  extract_country location_name location_state <> ""
  /\ Text.strip (extract_country location_name location_state)
     = extract_country location_name location_state
  /\ (location_name = "" -> Text.strip location_state <> "" ->
      extract_country location_name location_state
      = normalise_state location_state)
  /\ (location_name = "" -> Text.strip location_state = "" ->
      extract_country location_name location_state = "Unknown").
Proof.
  destruct (extract_country_clean location_name location_state) as [H1 H2].
  split; [exact H1|]. split; [exact H2|]. split.
  - intros En Hs. subst location_name.
    destruct (normalise_state_clean location_state) as [_ [_ Hne]].
    specialize (Hne Hs).
    assert (Ht : truthy location_state = true).
    { apply truthy_iff. intro Z. subst. apply Hs. reflexivity. }
    unfold extract_country. cbn [truthy String.eqb negb andb].
    rewrite Ht. apply truthy_iff in Hne. rewrite Hne. reflexivity.
  - intros En Hs. subst location_name.
    unfold extract_country. cbn [truthy String.eqb negb andb].
    destruct (truthy location_state); [|reflexivity].
    unfold normalise_state. rewrite Hs. reflexivity.
Qed.

Lemma extract_country_named_and_trimmed_witness :
  extract_country "" "  NSW Australia " = normalise_state "  NSW Australia ".
Proof.
  apply (proj1 (proj2 (proj2
           (extract_country_named_and_trimmed "" "  NSW Australia ")))).
  - reflexivity.
  - vm_compute. intro E. discriminate E.
Defined.

(** ** From catalogue product to engine locations *)

Lemma extracted_transform (t : string) (site : ApiSite) :
  extracted t (transform_site site)
  = mkExtractedLocation t
      (or_default (api_location_name site) "Unknown")
      (or_default (api_location_name site) "")
      (api_country site).
Proof. reflexivity. Qed.

Lemma pipeline_locations (product : ApiProduct) :
  extract_locations (_transform_product_data product)
  = map (fun s => extracted "manufacturing" (transform_site s))
        (or_nil (api_manufacturing_locations product))
    ++ map (fun s => extracted "raw_material" (transform_site s))
           (or_nil (api_material_locations product))
    ++ map (fun s => extracted "supplier" (transform_site s))
           (or_nil (api_storage_locations product)).
Proof.
  unfold extract_locations, _transform_product_data.
  cbn [tp_manufacturingSites tp_rawMaterialSources tp_suppliers or_nil].
  rewrite !map_map. reflexivity.
Qed.

(** X18. The locations extracted from a transformed catalogue product are
    its manufacturing entries, then its material entries, then its storage
    entries, one location each, typed manufacturing / raw_material /
    supplier; each has the entry's location name as address, and a country
    that is neither empty nor padded with white space.  No location is
    extracted exactly when the three lists are empty or missing. *)
Theorem pipeline_locations_shape (product : ApiProduct) :
  let m := or_nil (api_manufacturing_locations product) in
  let r := or_nil (api_material_locations product) in
  let s := or_nil (api_storage_locations product) in
  let locations := extract_locations (_transform_product_data product) in
  map el_type locations
  = repeat "manufacturing" (List.length m)
    ++ repeat "raw_material" (List.length r)
    ++ repeat "supplier" (List.length s)
  /\ map el_country locations = map api_country (m ++ r ++ s)
  /\ map el_address locations
     = map (fun e => or_default (api_location_name e) "") (m ++ r ++ s)
  /\ Forall (fun l => el_country l <> ""
                      /\ Text.strip (el_country l) = el_country l) locations
  /\ (locations = [] <-> m = [] /\ r = [] /\ s = []).
Proof.
  intros m r s locations. unfold locations.
  rewrite pipeline_locations. fold m r s.
  assert (T : forall (t : string) (l : list ApiSite),
             map el_type (map (fun e => extracted t (transform_site e)) l)
             = repeat t (List.length l)).
  { intros t l. induction l as [|e l IH]; [reflexivity|].
    simpl. f_equal. exact IH. }
  split; [rewrite !map_app, !T; reflexivity|].
  split; [rewrite !map_app, !map_map; reflexivity|].
  split; [rewrite !map_app, !map_map; reflexivity|].
  split.
  - rewrite !Forall_app. repeat split;
      apply Forall_forall; intros l Hl; apply in_map_iff in Hl;
      destruct Hl as [e [<- _]]; rewrite extracted_transform;
      cbn [el_country]; apply extract_country_clean.
  - split.
    + intro E. apply app_eq_nil in E. destruct E as [E1 E].
      apply app_eq_nil in E. destruct E as [E2 E3].
      apply map_eq_nil in E1, E2, E3. repeat split; assumption.
    + intros [-> [-> ->]]. reflexivity.
Qed.

Lemma has_type_extracted (t t' : string) (site : Site) :
  has_type t (to_location (extracted t' site)) = String.eqb t' t.
Proof. reflexivity. Qed.

Lemma countries_of_type_pipeline (t : string) (product : ApiProduct) :
  countries_of_type t
    (map to_location (extract_locations (_transform_product_data product)))
  = (if String.eqb "manufacturing" t
     then map api_country (or_nil (api_manufacturing_locations product))
     else [])
    ++ (if String.eqb "raw_material" t
        then map api_country (or_nil (api_material_locations product))
        else [])
    ++ (if String.eqb "supplier" t
        then map api_country (or_nil (api_storage_locations product))
        else []).
Proof.
  unfold countries_of_type. rewrite pipeline_locations.
  assert (F : forall (t' : string) (l : list ApiSite),
             map country_of
                 (filter (has_type t)
                         (map to_location
                              (map (fun e => extracted t' (transform_site e)) l)))
             = if String.eqb t' t then map api_country l else []).
  { intros t' l. induction l as [|e l IH].
    - destruct (String.eqb t' t); reflexivity.
    - cbn [map filter]. rewrite has_type_extracted.
      destruct (String.eqb t' t) eqn:E.
      + cbn [map]. rewrite IH. reflexivity.
      + exact IH. }
  rewrite !map_app, !filter_app, !map_app, !F. reflexivity.
Qed.

Lemma api_country_named (l : list ApiSite) :
  Forall (fun c => c <> "") (map api_country l).
Proof.
  apply Forall_forall. intros c Hc. apply in_map_iff in Hc.
  destruct Hc as [e [<- _]]. apply extract_country_clean.
Qed.

(** X19. On the locations that the catalogue pipeline produces, the engine's
    per-segment country lists are the countries of the corresponding
    catalogue lists, each per-segment index is the sum of squared country
    shares of that list, and the guard of the overlap ratio never fires:
    both overlap ratios are the plain fraction of source locations whose
    country occurs in the target segment. *)
Theorem pipeline_segments (product : ApiProduct) :
  let locations :=
    map to_location (extract_locations (_transform_product_data product)) in
  let m := map api_country (or_nil (api_manufacturing_locations product)) in
  let r := map api_country (or_nil (api_material_locations product)) in
  let s := map api_country (or_nil (api_storage_locations product)) in
  let v := geo_locals locations in
  countries_of_type "manufacturing" locations = m
  /\ countries_of_type "raw_material" locations = r
  /\ countries_of_type "supplier" locations = s
  /\ manufacturing_hhi v == spec_concentration_index m
  /\ materials_hhi v == spec_concentration_index r
  /\ storage_hhi v == spec_concentration_index s
  /\ overlap_m2m v = spec_overlap_ratio r m
  /\ overlap_manu_to_store v = spec_overlap_ratio m s.
Proof.
  intros locations m r s v.
  assert (Cm : countries_of_type "manufacturing" locations = m).
  { unfold locations. rewrite countries_of_type_pipeline.
    cbn [String.eqb Ascii.eqb Bool.eqb]. rewrite app_nil_r. reflexivity. }
  assert (Cr : countries_of_type "raw_material" locations = r).
  { unfold locations. rewrite countries_of_type_pipeline.
    cbn [String.eqb Ascii.eqb Bool.eqb]. rewrite app_nil_r. reflexivity. }
  assert (Cs : countries_of_type "supplier" locations = s).
  { unfold locations. rewrite countries_of_type_pipeline.
    cbn [String.eqb Ascii.eqb Bool.eqb]. reflexivity. }
  assert (Hh : forall t, t <> "" ->
             calculate_hhi locations (Some t)
             == spec_concentration_index (countries_of_type t locations)).
  { intros t Ht. rewrite calculate_hhi_index. unfold filter_by_type.
    apply String.eqb_neq in Ht. rewrite Ht. reflexivity. }
  split; [exact Cm|]. split; [exact Cr|]. split; [exact Cs|].
  unfold v, geo_locals.
  cbn [manufacturing_hhi materials_hhi storage_hhi overlap_m2m
       overlap_manu_to_store].
  split; [rewrite Hh by discriminate; rewrite Cm; reflexivity|].
  split; [rewrite Hh by discriminate; rewrite Cr; reflexivity|].
  split; [rewrite Hh by discriminate; rewrite Cs; reflexivity|].
  rewrite Cm, Cr, Cs.
  split; apply overlap_ratio_named_countries; apply api_country_named.
Qed.

(* ------------------------------------------------------------------ *)
(** ** Data-quality metrics (product catalogue service) *)

Lemma round2_monotone (x y : Q) : x <= y -> round2 x <= round2 y.
Proof.
  intro H. unfold round2, Qle. simpl.
  apply Z.mul_le_mono_nonneg_r; [lia|].
  apply round_half_even_monotone. nra.
Qed.

Lemma round2_proper (x y : Q) : x == y -> round2 x = round2 y.
Proof.
  intro H. unfold round2. f_equal.
  apply round_half_even_proper. rewrite H. reflexivity.
Qed.

Lemma round2_integer (z : Z) : round2 (inject_Z z) == inject_Z z.
Proof.
  unfold round2.
  rewrite (round_half_even_proper (inject_Z z * 100) (inject_Z (z * 100))).
  - rewrite round_half_even_integer. unfold Qeq. simpl. lia.
  - rewrite inject_Z_mult. reflexivity.
Qed.

Lemma quality_fold (ps : list TransformedProduct) (acc : QualityCounts) :
  fold_left quality_step ps acc
  = mkQualityCounts
      (qc_manufacturing acc + List.length (filter has_manufacturing ps))
      (qc_materials acc + List.length (filter has_materials ps))
      (qc_storage acc + List.length (filter has_storage ps))
      (qc_complete acc + List.length (filter is_complete ps))
      (qc_issues acc ++ map no_location_issue (filter is_unlocated ps)).
Proof.
  revert acc. induction ps as [|p ps IH]; intro acc.
  - simpl. rewrite !Nat.add_0_r, app_nil_r. destruct acc; reflexivity.
  - cbn [fold_left filter]. rewrite IH. unfold quality_step.
    cbn [qc_manufacturing qc_materials qc_storage qc_complete qc_issues].
    fold (is_complete p). fold (is_unlocated p).
    destruct (has_manufacturing p); destruct (has_materials p);
      destruct (has_storage p); destruct (is_complete p);
      destruct (is_unlocated p);
      cbn [List.length map]; rewrite <- ?app_assoc; cbn [app];
      f_equal; lia.
Qed.

Lemma percentage_range (count total_products : nat) :
  (0 < total_products)%nat -> (count <= total_products)%nat ->
  0 <= percentage count total_products <= 100.
Proof.
  intros Ht Hc. unfold percentage.
  apply of_nat_pos in Ht. apply of_nat_le in Hc.
  pose proof (of_nat_nonneg count) as H0.
  assert (Hq : 0 <= Py.of_nat count / Py.of_nat total_products <= 1).
  { split; [apply Qle_shift_div_l | apply Qle_shift_div_r]; lra. }
  lra.
Qed.

Lemma percentage_monotone (c1 c2 total_products : nat) :
  (0 < total_products)%nat -> (c1 <= c2)%nat ->
  percentage c1 total_products <= percentage c2 total_products.
Proof.
  intros Ht Hc. unfold percentage.
  apply of_nat_pos in Ht. apply of_nat_le in Hc.
  assert (H : Py.of_nat c1 / Py.of_nat total_products
              <= Py.of_nat c2 / Py.of_nat total_products)
    by (apply div_le_mono; assumption).
  lra.
Qed.

Lemma round2_percentage_range (count total_products : nat) :
  (0 < total_products)%nat -> (count <= total_products)%nat ->
  0 <= round2 (percentage count total_products) <= 100.
Proof.
  intros Ht Hc. destruct (percentage_range _ _ Ht Hc) as [H0 H1]. split.
  - rewrite <- (round2_integer 0). apply round2_monotone. exact H0.
  - rewrite <- (round2_integer 100). apply round2_monotone. exact H1.
Qed.

Lemma calculate_data_quality_nonempty (products : list TransformedProduct) :
  products <> [] ->
  let n := List.length products in
  let pct (f : TransformedProduct -> bool) :=
    round2 (percentage (List.length (filter f products)) n) in
  calculate_data_quality products
  = mkDataQuality n (pct is_complete)
      (Some (mkCoverage (pct has_manufacturing) (pct has_materials)
                        (pct has_storage) (pct is_complete)))
      (firstn 10 (map no_location_issue (filter is_unlocated products))).
Proof.
  intro Hne. destruct products as [|p ps]; [congruence|].
  unfold calculate_data_quality. rewrite quality_fold. reflexivity.
Qed.

(** X20. For a non-empty product list the data-quality record counts the
    products, gives coverage percentages between 0 and 100 with the complete
    coverage no larger than any of the other three and equal to the
    completeness score, scores 100 when every product has all three kinds of
    location and 0 when none has, and lists at most 10 issues, the first
    products without any location in input order.  The empty list gives
    0 products, score 0, no coverage and no issue. *)
Theorem data_quality_metrics (products : list TransformedProduct) :
  let q := calculate_data_quality products in
  (products = [] ->
   dq_total_products q = 0%nat /\ dq_completeness_score q = 0
   /\ dq_location_coverage q = None /\ dq_issues q = [])
  /\ (products <> [] ->
      dq_total_products q = List.length products
      /\ dq_issues q
         = firstn 10 (map no_location_issue (filter is_unlocated products))
      /\ (List.length (dq_issues q) <= 10)%nat
      /\ exists c,
          dq_location_coverage q = Some c
          /\ dq_completeness_score q = cov_complete c
          /\ 0 <= cov_manufacturing c <= 100
          /\ 0 <= cov_materials c <= 100
          /\ 0 <= cov_storage c <= 100
          /\ 0 <= cov_complete c
          /\ cov_complete c <= cov_manufacturing c
          /\ cov_complete c <= cov_materials c
          /\ cov_complete c <= cov_storage c
          /\ ((forall p, In p products -> is_complete p = true) ->
              cov_complete c == 100)
          /\ ((forall p, In p products -> is_complete p = false) ->
              cov_complete c == 0)).
Proof.
  intro q. split.
  - intro E. unfold q. rewrite E. repeat split.
  - intro Hne. unfold q. rewrite (calculate_data_quality_nonempty _ Hne).
    cbn [dq_total_products dq_issues dq_location_coverage
         dq_completeness_score].
    assert (Hn : (0 < List.length products)%nat)
      by (destruct products; [congruence | simpl; lia]).
    assert (Hsub : forall f g : TransformedProduct -> bool,
               (forall p, f p = true -> g p = true) ->
               round2 (percentage (List.length (filter f products))
                                  (List.length products))
               <= round2 (percentage (List.length (filter g products))
                                     (List.length products))).
    { intros f g Hfg. apply round2_monotone. apply percentage_monotone;
        [exact Hn|]. apply filter_length_mono. intros p _. apply Hfg. }
    split; [reflexivity|]. split; [reflexivity|].
    split; [rewrite length_firstn; lia|].
    eexists. split; [reflexivity|].
    cbn [cov_manufacturing cov_materials cov_storage cov_complete].
    split; [reflexivity|].
    do 3 (split; [apply round2_percentage_range;
                  [exact Hn | apply filter_length_le]|]).
    split; [apply round2_percentage_range; [exact Hn | apply filter_length_le]|].
    split; [apply Hsub; unfold is_complete; intros p Hp;
            apply andb_true_iff in Hp; destruct Hp as [Hp _];
            apply andb_true_iff in Hp; tauto|].
    split; [apply Hsub; unfold is_complete; intros p Hp;
            apply andb_true_iff in Hp; destruct Hp as [Hp _];
            apply andb_true_iff in Hp; tauto|].
    split; [apply Hsub; unfold is_complete; intros p Hp;
            apply andb_true_iff in Hp; tauto|].
    split.
    + intro Hall. apply filter_length_all in Hall. rewrite Hall.
      apply of_nat_pos in Hn.
      rewrite (round2_proper _ (inject_Z 100));
        [apply round2_integer | unfold percentage; field; lra].
    + intro Hnone. apply filter_length_none in Hnone. rewrite Hnone.
      apply of_nat_pos in Hn.
      rewrite (round2_proper _ (inject_Z 0));
        [apply round2_integer
        | unfold percentage; change (Py.of_nat 0) with 0; field; lra].
Qed.

Lemma data_quality_metrics_witness :
  let complete :=
    mkTransformedProduct (Some "Panel") (Some [mkSite None None None])
                         (Some [mkSite None None None])
                         (Some [mkSite None None None]) None in
  let bare := mkTransformedProduct None None (Some []) None None in
  dq_issues (calculate_data_quality [bare; complete])
  = ["Product 'Unknown' has no location data"].
Proof.
  intros complete bare.
  rewrite (proj1 (proj2 (proj2 (data_quality_metrics [bare; complete])
                           ltac:(intro E; discriminate E)))).
  reflexivity.
Defined.

(* ------------------------------------------------------------------ *)
(** ** The risk endpoint, per product *)

Lemma geocode_all_kept (provider : nat -> GeocodeOutcome) (i : nat)
      (locs : list ExtractedLocation) :
  Forall (fun l => In l locs /\ el_address l <> "") (geocode_all provider i locs)
  /\ (List.length (geocode_all provider i locs) <= List.length locs)%nat.
Proof.
  revert i. induction locs as [|l locs IH]; intro i.
  - split; [constructor | simpl; lia].
  - destruct (IH (S i)) as [IH1 IH2].
    assert (Hrest : Forall (fun x => In x (l :: locs) /\ el_address x <> "")
                           (geocode_all provider (S i) locs)).
    { eapply Forall_impl; [|exact IH1]. intros x [Hx Ha].
      split; [right; exact Hx | exact Ha]. }
    cbn [geocode_all]. unfold geocode_location.
    destruct (truthy (el_address l)) eqn:Et.
    + apply truthy_iff in Et.
      destruct (provider i); cbn [List.length];
        (split; [try constructor; try (split; [left; reflexivity | exact Et]);
                 exact Hrest | lia]).
    + split; [exact Hrest | cbn [List.length]; lia].
Qed.

Lemma geocode_all_all_found (provider : nat -> GeocodeOutcome) (i : nat)
      (locs : list ExtractedLocation) :
  (forall j, provider j <> geocode_not_found) ->
  geocode_all provider i locs = filter (fun l => truthy (el_address l)) locs.
Proof.
  intro Hp. revert i. induction locs as [|l locs IH]; intro i; [reflexivity|].
  cbn [geocode_all filter]. unfold geocode_location.
  destruct (truthy (el_address l)); [|apply IH].
  specialize (Hp i). destruct (provider i); try congruence; rewrite IH;
    reflexivity.
Qed.

Lemma geocode_all_none_found (provider : nat -> GeocodeOutcome) (i : nat)
      (locs : list ExtractedLocation) :
  (forall j, provider j = geocode_not_found) -> geocode_all provider i locs = [].
Proof.
  intro Hp. revert i. induction locs as [|l locs IH]; intro i; [reflexivity|].
  cbn [geocode_all]. unfold geocode_location.
  destruct (truthy (el_address l)); [rewrite Hp|]; apply IH.
Qed.

(** X21. Whatever the geocoding provider answers, the locations handed to
    the engine for a catalogue product are among the extracted ones, none of
    them without an address, each with a non-empty country and with its
    address as name; if no lookup is "not found" they are exactly the
    extracted locations that have an address, in order; and if every lookup
    is "not found" there are none. *)
Theorem geocoded_locations_of_product (provider : nat -> GeocodeOutcome)
        (product : ApiProduct) :
  let extracted := extract_locations (_transform_product_data product) in
  let geocoded := geocode_all provider 0 extracted in
  Forall (fun l => In l extracted /\ el_address l <> ""
                   /\ el_name l = el_address l /\ el_country l <> "")
         geocoded
  /\ (List.length geocoded <= List.length extracted)%nat
  /\ ((forall j, provider j <> geocode_not_found) ->
      geocoded = filter (fun l => truthy (el_address l)) extracted)
  /\ ((forall j, provider j = geocode_not_found) -> geocoded = []).
Proof.
  intros extracted geocoded.
  destruct (geocode_all_kept provider 0 extracted) as [Hk Hlen].
  fold geocoded in Hk, Hlen.
  split; [|split; [exact Hlen|split]].
  - eapply Forall_impl; [|exact Hk]. intros l [Hin Ha].
    split; [exact Hin|]. split; [exact Ha|].
    unfold extracted in Hin. rewrite pipeline_locations in Hin.
    rewrite !in_app_iff, !in_map_iff in Hin.
    assert (G : exists t e, extracted_location_of t e = l).
    { destruct Hin as [[e [E _]]|[[e [E _]]|[e [E _]]]];
        eexists; exists e; exact E. }
    destruct G as [t [e <-]]. unfold extracted_location_of in *.
    rewrite extracted_transform in *. cbn [el_name el_address el_country] in *.
    split; [|apply extract_country_clean].
    destruct (api_location_name e); [reflexivity | simpl in Ha; congruence].
  - apply geocode_all_all_found.
  - apply geocode_all_none_found.
Qed.

Lemma geocoded_locations_of_product_witness :
  let product :=
    mkApiProduct (Some "Panel") (mkRaw None None None)
                 (Some [mkApiSite (Some "Shenzhen, China") None;
                        mkApiSite None (Some " China")])
                 None (Some [mkApiSite (Some "Sydney NSW") (Some " Australia")]) in
  geocode_all (fun _ => geocode_raised) 0
              (extract_locations (_transform_product_data product))
  = filter (fun l => truthy (el_address l))
           (extract_locations (_transform_product_data product)).
Proof.
  intro product.
  apply (proj1 (proj2 (proj2
           (geocoded_locations_of_product (fun _ => geocode_raised) product)))).
  intros j E. discriminate E.
Defined.

Lemma int_round_at_least (t : Z) (x : Q) :
  inject_Z t <= x -> (t <= int_round x)%Z.
Proof.
  intro H. pose proof (round_half_even_monotone _ _ H) as M.
  rewrite round_half_even_integer in M. exact M.
Qed.

Lemma int_round_at_most (t : Z) (x : Q) :
  x <= inject_Z t -> (int_round x <= t)%Z.
Proof.
  intro H. pose proof (round_half_even_monotone _ _ H) as M.
  rewrite round_half_even_integer in M. exact M.
Qed.

Lemma int_round_percent (x : Q) :
  0 <= x <= 1 -> (0 <= int_round (x * 100) <= 100)%Z.
Proof.
  intros [H0 H1]. split.
  - apply int_round_at_least. change (inject_Z 0) with 0. lra.
  - apply int_round_at_most. change (inject_Z 100) with 100. lra.
Qed.

Lemma int_round_scaled_round3 (x : Q) :
  int_round (Py.round3 x * 10000) = (10 * Py.round_half_even (x * 1000))%Z.
Proof.
  unfold int_round, Py.round3.
  set (z := Py.round_half_even (x * 1000)).
  rewrite (round_half_even_proper ((z # 1000) * 10000) (inject_Z (10 * z)));
    [apply round_half_even_integer
    | unfold Qeq, Qmult, inject_Z; cbn [Qnum Qden]; lia].
Qed.

(** The view of the engine's record on any input. *)
Lemma product_assessment_of_engine (locations : list Location)
      (products : option (list Product)) :
  let v := product_assessment (assess_supply_chain_risk locations products) in
  (0 <= pa_totalRiskPercentage v <= 100)%Z
  /\ (0 <= pa_hhi_score v <= 10000)%Z
  /\ (exists z, pa_hhi_score v = (10 * z)%Z)
  /\ (0 <= pa_leadTime_percentage v <= 100)%Z
  /\ (pa_overallRiskLevel v = lvl_very_high ->
      (80 <= pa_totalRiskPercentage v)%Z)
  /\ (pa_overallRiskLevel v = lvl_high ->
      (60 <= pa_totalRiskPercentage v <= 80)%Z)
  /\ (pa_overallRiskLevel v = lvl_moderate ->
      (40 <= pa_totalRiskPercentage v <= 60)%Z)
  /\ (pa_overallRiskLevel v = lvl_low ->
      (20 <= pa_totalRiskPercentage v <= 40)%Z)
  /\ (pa_overallRiskLevel v = lvl_very_low ->
      (pa_totalRiskPercentage v <= 20)%Z)
  /\ (pa_overallRiskLevel v = lvl_unknown <-> locations = [])
  /\ (locations = [] ->
      pa_totalRiskPercentage v = 0%Z /\ pa_hhi_score v = 0%Z
      /\ pa_hhi_riskLevel v = conc_low /\ pa_leadTime_percentage v = 0%Z)
  /\ (locations <> [] ->
      pa_hhi_riskLevel v = concentration_level (calculate_hhi locations None)
      /\ pa_hhi_score v
         = (10 * Py.round_half_even (calculate_hhi locations None * 1000))%Z).
Proof.
  intro v.
  assert (Hcase : locations = [] \/ locations <> [])
    by (destruct locations; [left | right]; congruence).
  destruct Hcase as [E|Hne].
  - unfold v. rewrite E. cbn.
    repeat split; try lia; try reflexivity; try discriminate;
      try (exists 0%Z; reflexivity); try congruence.
  - pose proof (assess_supply_chain_risk_nonempty locations products Hne) as Ha.
    cbv zeta in Ha.
    destruct (score_level_band locations products Hne)
      as [B1 [B2 [B3 [B4 [B5 B6]]]]].
    cbv zeta in B1, B2, B3, B4, B5, B6.
    destruct (assessment_core locations products Hne) as [s [Hs [Hr _]]].
    assert (Hu : 0 <= risk_score (assess_supply_chain_risk locations products) <= 1).
    { rewrite Hr. apply round3_unit_interval. rewrite Hs. apply clamp01_range. }
    destruct (lead_time_average_close (products_or_empty products)) as [_ HL].
    pose proof (calculate_hhi_range locations None) as Hh.
    pose proof (round3_unit_interval _ Hh) as HH.
    assert (V : v = mkProductAssessment
                      (overall_risk (assess_supply_chain_risk locations products))
                      (int_round (risk_score
                                    (assess_supply_chain_risk locations products)
                                  * 100))
                      (int_round (Py.round3 (calculate_hhi locations None)
                                  * 10000))
                      (concentration_level (calculate_hhi locations None))
                      (int_round (lt_average_risk
                                    (_assess_lead_time_risk
                                       (products_or_empty products)) * 100))).
    { unfold v, product_assessment. rewrite Ha.
      cbn [geographic_risk lead_time_risk concentration_risk overall_risk
           risk_score].
      rewrite (geo_hhi_nonempty locations Hne).
      rewrite (proj2 (geo_countries_count locations Hne)). reflexivity. }
    rewrite V.
    cbn [pa_overallRiskLevel pa_totalRiskPercentage pa_hhi_score
         pa_hhi_riskLevel pa_leadTime_percentage].
    set (rs := risk_score (assess_supply_chain_risk locations products)) in *.
    split; [apply int_round_percent; exact Hu|].
    split.
    { split.
      - apply (int_round_at_least 0). change (inject_Z 0) with 0. lra.
      - apply (int_round_at_most 10000). change (inject_Z 10000) with 10000. lra. }
    split; [eexists; apply int_round_scaled_round3|].
    split; [apply int_round_percent; exact HL|].
    split.
    { intro E. apply B1 in E.
      apply (int_round_at_least 80). change (inject_Z 80) with 80. lra. }
    split.
    { intro E. apply B2 in E. split;
        [apply (int_round_at_least 60); change (inject_Z 60) with 60
        | apply (int_round_at_most 80); change (inject_Z 80) with 80]; lra. }
    split.
    { intro E. apply B3 in E. split;
        [apply (int_round_at_least 40); change (inject_Z 40) with 40
        | apply (int_round_at_most 60); change (inject_Z 60) with 60]; lra. }
    split.
    { intro E. apply B4 in E. split;
        [apply (int_round_at_least 20); change (inject_Z 20) with 20
        | apply (int_round_at_most 40); change (inject_Z 40) with 40]; lra. }
    split.
    { intro E. apply B5 in E.
      apply (int_round_at_most 20). change (inject_Z 20) with 20. lra. }
    split; [split; [intro E; exfalso; exact (B6 E) | congruence]|].
    split; [congruence|].
    intros _. split; [reflexivity | apply int_round_scaled_round3].
Qed.

Lemma analyse_product_cases (provider : nat -> GeocodeOutcome)
      (product : TransformedProduct) :
  (extract_locations product = [] /\ analyse_product provider product = None)
  \/ (extract_locations product <> []
      /\ analyse_product provider product
         = Some (product_assessment
                   (assess_supply_chain_risk
                      (map to_location
                           (geocode_all provider 0 (extract_locations product)))
                      (Some [to_engine_product product])))).
Proof.
  unfold analyse_product.
  destruct (extract_locations product) as [|l ls];
    [left; split; reflexivity | right; split; [discriminate | reflexivity]].
Qed.

(** X22. A product is skipped by the endpoint exactly when no location can
    be extracted from it.  Otherwise, whatever the geocoding provider
    answers: the total and lead-time percentages lie in 0..100, the index
    score lies in 0..10000 and is a multiple of 10, the total percentage
    lies in the band of the overall level (very_high from 80, high 60..80,
    moderate 40..60, low 20..40, very_low up to 20), and the level is
    "unknown" exactly when every location was dropped by geocoding, in which
    case all three numbers are 0 and the index level is low. *)
Theorem endpoint_numbers (provider : nat -> GeocodeOutcome)
        (product : TransformedProduct) :
  (analyse_product provider product = None <-> extract_locations product = [])
  /\ forall v, analyse_product provider product = Some v ->
       (0 <= pa_totalRiskPercentage v <= 100)%Z
       /\ (0 <= pa_hhi_score v <= 10000)%Z
       /\ (exists z, pa_hhi_score v = (10 * z)%Z)
       /\ (0 <= pa_leadTime_percentage v <= 100)%Z
       /\ (pa_overallRiskLevel v = lvl_very_high ->
           (80 <= pa_totalRiskPercentage v)%Z)
       /\ (pa_overallRiskLevel v = lvl_high ->
           (60 <= pa_totalRiskPercentage v <= 80)%Z)
       /\ (pa_overallRiskLevel v = lvl_moderate ->
           (40 <= pa_totalRiskPercentage v <= 60)%Z)
       /\ (pa_overallRiskLevel v = lvl_low ->
           (20 <= pa_totalRiskPercentage v <= 40)%Z)
       /\ (pa_overallRiskLevel v = lvl_very_low ->
           (pa_totalRiskPercentage v <= 20)%Z)
       /\ (pa_overallRiskLevel v = lvl_unknown
           <-> geocode_all provider 0 (extract_locations product) = [])
       /\ (pa_overallRiskLevel v = lvl_unknown ->
           pa_totalRiskPercentage v = 0%Z /\ pa_hhi_score v = 0%Z
           /\ pa_hhi_riskLevel v = conc_low
           /\ pa_leadTime_percentage v = 0%Z).
Proof.
  destruct (analyse_product_cases provider product) as [[E1 E2]|[E1 E2]].
  - split; [split; intro; assumption|]. rewrite E2. discriminate.
  - split; [rewrite E2; split; [discriminate | congruence]|].
    intros v Hv. rewrite E2 in Hv. injection Hv as <-.
    pose proof (product_assessment_of_engine
                  (map to_location
                       (geocode_all provider 0 (extract_locations product)))
                  (Some [to_engine_product product])) as H.
    cbv zeta in H.
    destruct H as [H1 [H2 [H3 [H4 [H5 [H6 [H7 [H8 [H9 [H10 [H11 _]]]]]]]]]]].
    do 9 (split; [assumption|]).
    assert (M : map to_location
                    (geocode_all provider 0 (extract_locations product)) = []
                <-> geocode_all provider 0 (extract_locations product) = []).
    { split; [apply map_eq_nil | intros ->; reflexivity]. }
    split; [rewrite H10; exact M|].
    intro E. apply H11. apply H10. exact E.
Qed.

Lemma endpoint_numbers_witness :
  let product :=
    _transform_product_data
      (mkApiProduct (Some "Panel") (mkRaw (Some "8 weeks") None None)
                    (Some [mkApiSite (Some "Shenzhen, China") None])
                    (Some [mkApiSite (Some "Perth, Australia") None])
                    None) in
  exists v,
    analyse_product (fun _ => geocode_found) product = Some v
    /\ (40 <= pa_totalRiskPercentage v <= 60)%Z.
Proof.
  intro product.
  eexists. split; [reflexivity|].
  refine (proj1 (proj2 (proj2 (proj2 (proj2 (proj2 (proj2
            (proj2 (endpoint_numbers (fun _ => geocode_found) product)
                   _ eq_refl))))))) _).
  vm_compute. reflexivity.
Defined.

(* ------------------------------------------------------------------ *)
(** ** Order of the input *)
















(** ** Diversification *)

Lemma counter_incr_new (c : Counter) (k : string) :
  ~ In k (map fst c) -> counter_incr c k = c ++ [(k, 1%nat)].
Proof.
  induction c as [|[a n] c IH]; simpl; intro H; [reflexivity|].
  destruct (String.eqb a k) eqn:E.
  - apply String.eqb_eq in E. exfalso. apply H. left. exact E.
  - rewrite IH; [reflexivity|]. intro Hin. apply H. right. exact Hin.
Qed.

Lemma counter_of_snoc (cs : list string) (c : string) :
  counter_of (cs ++ [c]) = counter_incr (counter_of cs) c.
Proof. unfold counter_of. rewrite fold_left_app. reflexivity. Qed.

Lemma sumsq_app (xs ys : list nat) : sumsq (xs ++ ys) = (sumsq xs + sumsq ys)%nat.
Proof. induction xs as [|x xs IH]; simpl; [reflexivity | rewrite IH; lia]. Qed.

Lemma total_le_sumsq (vs : list nat) : (total vs <= sumsq vs)%nat.
Proof. induction vs as [|v vs IH]; simpl; [lia | nia]. Qed.

Lemma of_nat_lt (a b : nat) : (a < b)%nat -> Py.of_nat a < Py.of_nat b.
Proof. intro H. unfold Py.of_nat. rewrite <- Zlt_Qlt. lia. Qed.

(** X25. Adding one location in a country that the list does not yet
    contain strictly lowers the (unfiltered) concentration index of a
    non-empty list. *)
Theorem new_country_lowers_index (locations : list Location) (l : Location) :
  locations <> [] ->
  (forall x, In x locations -> country_of x <> country_of l) ->
  calculate_hhi (locations ++ [l]) None < calculate_hhi locations None.
Proof.
  intros Hne Hnew.
  assert (Hne' : filter_by_type (locations ++ [l]) None <> [])
    by (cbn [filter_by_type]; destruct locations; discriminate).
  rewrite (calculate_hhi_nonempty _ None Hne').
  rewrite (calculate_hhi_nonempty locations None Hne).
  cbn [filter_by_type]. rewrite map_app. cbn [map].
  set (cs := map country_of locations).
  destruct (counter_of_inv cs) as [_ _ Hkeys Htot _].
  assert (Hc : ~ In (country_of l) (map fst (counter_of cs))).
  { rewrite Hkeys. unfold cs. rewrite in_map_iff. intros [x [E Hx]].
    apply (Hnew x Hx). exact E. }
  rewrite counter_of_snoc, (counter_incr_new _ _ Hc), map_app. cbn [map snd].
  assert (HN : (0 < List.length cs)%nat).
  { unfold cs. rewrite length_map. destruct locations; [congruence | simpl; lia]. }
  rewrite length_app. cbn [List.length].
  rewrite (hhi_loop_ratio _ (List.length cs + 1)) by lia.
  rewrite (hhi_loop_ratio _ (List.length cs) HN).
  rewrite sumsq_app. cbn [sumsq fold_right].
  pose proof (total_le_sumsq (map snd (counter_of cs))) as HS.
  rewrite Htot in HS.
  set (S := sumsq (map snd (counter_of cs))) in *.
  set (N := List.length cs) in *.
  assert (Hnat : ((S + (1 * 1 + 0)) * (N * N) < S * ((N + 1) * (N + 1)))%nat)
    by nia.
  apply of_nat_lt in Hnat. rewrite !of_nat_mul in Hnat.
  pose proof (of_nat_pos N HN) as HpN.
  assert (HpN1 : 0 < Py.of_nat (N + 1)) by (apply of_nat_pos; lia).
  set (a := Py.of_nat (S + (1 * 1 + 0))) in *.
  set (b := Py.of_nat S) in *.
  set (n := Py.of_nat N) in *. set (m := Py.of_nat (N + 1)) in *.
  apply Qlt_shift_div_r; [nra|].
  assert (E : b / (n * n) * (m * m) == b * (m * m) / (n * n)) by (field; lra).
  rewrite E. apply Qlt_shift_div_l; [nra | lra].
Qed.

Lemma new_country_lowers_index_witness :
  let a := mkLocation (Some "supplier") None (Some "Chile") in
  let b := mkLocation (Some "supplier") None (Some "Peru") in
  calculate_hhi ([a; a] ++ [b]) None < calculate_hhi [a; a] None.
Proof.
  intros a b. apply new_country_lowers_index.
  - intro E. discriminate E.
  - intros x [<-|[<-|[]]] E; discriminate E.
Defined.

(* ------------------------------------------------------------------ *)
(** ** Product validation *)

(** X26. Whether a product is valid depends only on its manufacturer and
    product names with surrounding white space removed; a product lacking
    either name, or with a blank one, is rejected; and the names of an
    accepted product are, in any letter case, none of the placeholder words,
    its manufacturer is not a listed country and its name not a listed
    city. *)
Theorem is_valid_product_sound (manufacturer_name product_name : option string) :
  is_valid_product manufacturer_name product_name
  = is_valid_product (Some (Text.strip (or_default manufacturer_name "")))
                     (Some (Text.strip (or_default product_name "")))
  /\ (Text.strip (or_default manufacturer_name "") = ""
      \/ Text.strip (or_default product_name "") = "" ->
      is_valid_product manufacturer_name product_name = false)
  /\ (is_valid_product manufacturer_name product_name = true ->
      let m := Text.strip (or_default manufacturer_name "") in
      let n := Text.strip (or_default product_name "") in
      m <> "" /\ n <> ""
      /\ ~ In m invalid_manufacturers
      /\ ~ In n invalid_product_names
      /\ ~ In (Text.lower m) placeholder_names
      /\ ~ In (Text.lower n) placeholder_names).
Proof.
  split; [|split].
  - unfold is_valid_product. cbn [or_default].
    rewrite !strip_idempotent. reflexivity.
  - unfold is_valid_product.
    set (m := Text.strip (or_default manufacturer_name "")).
    set (n := Text.strip (or_default product_name "")).
    intros [E|E]; rewrite E;
      destruct (in_set _ invalid_manufacturers); try reflexivity;
      destruct (in_set _ invalid_product_names); try reflexivity;
      cbn [truthy String.eqb negb orb]; rewrite ?orb_true_r; reflexivity.
  - unfold is_valid_product. intros H.
    set (m := Text.strip (or_default manufacturer_name "")) in *.
    set (n := Text.strip (or_default product_name "")) in *.
    cbv zeta.
    destruct (in_set m invalid_manufacturers) eqn:E1; [discriminate|].
    destruct (in_set n invalid_product_names) eqn:E2; [discriminate|].
    destruct (negb (truthy m) || negb (truthy n)) eqn:E3; [discriminate|].
    destruct (in_set (Text.lower m) placeholder_names) eqn:E4; [discriminate|].
    destruct (in_set (Text.lower n) placeholder_names) eqn:E5; [discriminate|].
    apply orb_false_iff in E3. destruct E3 as [Em En].
    apply negb_false_iff in Em, En. apply truthy_iff in Em, En.
    repeat split; try assumption;
      intro Hin; apply in_set_iff in Hin; congruence.
Qed.

Lemma is_valid_product_sound_witness :
  is_valid_product (Some "  ") (Some "Panel") = false.
Proof.
  apply (proj1 (proj2 (is_valid_product_sound (Some "  ") (Some "Panel")))).
  left. reflexivity.
Defined.
